(** * Product search platform: the CSV record parser and the search engine

    A shallow embedding of [lib/csvParser.ts] (record parser) and
    [lib/searchEngine.ts] (normalizer, field scorer, relevance ranker,
    filter engine, sort engine, search orchestration), followed by the
    properties of the specification that concern them.

    Conventions of the embedding.
    - JavaScript strings are [string]s of 8-bit characters: white space
      ([\s], [trim]) is the ASCII white space and [toLowerCase] acts on
      [A-Z].
    - JavaScript numbers are [number]: a rational, one of the two
      infinities, or [NaN].  The sums and differences the code forms are
      exact on the numbers it meets; the one quotient it forms, the
      progress percentage, is rounded to a double as the code rounds it.
    - Counters and indices are [nat]; percentages and clock readings [Z].
    - A call that can throw returns an [outcome], and a [catch] is a match
      on it.  The observer of [parseCSV] is a function of the caller that
      returns.
    - What the JavaScript run time provides and the repository does not
      define ([JSON.parse], [Number], [parseFloat], [parseInt], [Date],
      [localeCompare]) is the interface [Runtime]; [reference_runtime] is
      one implementation, used to evaluate the code on concrete inputs. *)

From Stdlib Require Import String Ascii List Bool Arith ZArith QArith Qround Qpower.
From Stdlib Require Import Lia Lqa.
From Stdlib Require Import Sorted Permutation OrderedTypeEx.
Import ListNotations.

Close Scope Q_scope.
Set Warnings "-register-all".
Open Scope string_scope.
Open Scope list_scope.

Notation "a +++ b" := (String.append a b) (at level 60, right associativity).

(** ** JavaScript strings *)

Module JSString.

(** [!s] on a string: only the empty string is falsy. *)
Definition isEmpty (s : string) : bool :=
  match s with EmptyString => true | String _ _ => false end.

(** [s || d] on strings. *)
Definition orElse (s d : string) : string :=
  if isEmpty s then d else s.

(** The characters matched by [\s] and removed by [trim]. *)
Definition isWhitespace (c : ascii) : bool :=
  let n := nat_of_ascii c in
  ((9 <=? n) && (n <=? 13) || (n =? 32))%nat.

Definition lowerChar (c : ascii) : ascii :=
  let n := nat_of_ascii c in
  if ((65 <=? n) && (n <=? 90))%nat then ascii_of_nat (n + 32) else c.

Fixpoint toLowerCase (s : string) : string :=
  match s with
  | EmptyString => EmptyString
  | String c s' => String (lowerChar c) (toLowerCase s')
  end.

Fixpoint trimStart (s : string) : string :=
  match s with
  | EmptyString => EmptyString
  | String c s' => if isWhitespace c then trimStart s' else s
  end.

Fixpoint trimEnd (s : string) : string :=
  match s with
  | EmptyString => EmptyString
  | String c s' =>
      let r := trimEnd s' in
      if isWhitespace c && isEmpty r then EmptyString else String c r
  end.

Definition trim (s : string) : string := trimEnd (trimStart s).

(** [s.replace(/\s+/g, ' ')]; [inRun] tells that the previous character
    was white space, already replaced. *)
Fixpoint collapseFrom (inRun : bool) (s : string) : string :=
  match s with
  | EmptyString => EmptyString
  | String c s' =>
      if isWhitespace c
      then if inRun then collapseFrom true s'
           else String " "%char (collapseFrom true s')
      else String c (collapseFrom false s')
  end.

Definition collapseWhitespace (s : string) : string := collapseFrom false s.

Definition startsWith (s t : string) : bool := String.prefix t s.

Fixpoint includes (s t : string) : bool :=
  String.prefix t s ||
  match s with
  | EmptyString => false
  | String _ s' => includes s' t
  end.

Definition endsWith (s t : string) : bool :=
  let ls := String.length s in
  let lt := String.length t in
  (lt <=? ls)%nat && (String.substring (ls - lt) lt s =? t)%string.

(** [s.split(/\s+/)]: [cur] is the piece being read, [inSep] tells that
    the previous character belonged to a separator. *)
Fixpoint splitWsFrom (cur : string) (inSep : bool) (s : string) : list string :=
  match s with
  | EmptyString => [cur]
  | String c s' =>
      if isWhitespace c
      then if inSep then splitWsFrom cur true s'
           else cur :: splitWsFrom EmptyString true s'
      else splitWsFrom (cur +++ String c EmptyString) false s'
  end.

Definition splitWhitespace (s : string) : list string :=
  splitWsFrom EmptyString false s.

(** [s.split(sep)] for a one-character separator. *)
Fixpoint splitCharFrom (sep : ascii) (cur : string) (s : string) : list string :=
  match s with
  | EmptyString => [cur]
  | String c s' =>
      if Ascii.eqb c sep then cur :: splitCharFrom sep EmptyString s'
      else splitCharFrom sep (cur +++ String c EmptyString) s'
  end.

Definition splitChar (sep : ascii) (s : string) : list string :=
  splitCharFrom sep EmptyString s.

(** [parts.join(sep)]. *)
Fixpoint join (sep : string) (parts : list string) : string :=
  match parts with
  | [] => EmptyString
  | [p] => p
  | p :: rest => p +++ sep +++ join sep rest
  end.

Definition isLowerAlnum (c : ascii) : bool :=
  let n := nat_of_ascii c in
  ((97 <=? n) && (n <=? 122) || (48 <=? n) && (n <=? 57))%nat.

(** [s.replace(/[^a-z0-9]/g, '')]. *)
Fixpoint keepLowerAlnum (s : string) : string :=
  match s with
  | EmptyString => EmptyString
  | String c s' =>
      if isLowerAlnum c then String c (keepLowerAlnum s') else keepLowerAlnum s'
  end.

(** [html.replace(/<[^>]*>/g, ' ')]: [pending] holds the text read since
    an opening [<] that has not met its [>] yet; it is put back when
    the input ends first. *)
Fixpoint replaceTagsFrom (pending : option string) (s : string) : string :=
  match s, pending with
  | EmptyString, None => EmptyString
  | EmptyString, Some buf => buf
  | String c s', None =>
      if Ascii.eqb c "<"%char
      then replaceTagsFrom (Some (String c EmptyString)) s'
      else String c (replaceTagsFrom None s')
  | String c s', Some buf =>
      if Ascii.eqb c ">"%char
      then String " "%char (replaceTagsFrom None s')
      else replaceTagsFrom (Some (buf +++ String c EmptyString)) s'
  end.

Definition replaceTags (s : string) : string := replaceTagsFrom None s.

End JSString.

Import JSString.

(** ** JavaScript numbers *)

Inductive number : Type :=
| NaN
| NegInfinity
| Finite (q : Q)
| PosInfinity.

Module JSNumber.

Definition zero : number := Finite 0%Q.

Definition ofZ (z : Z) : number := Finite (inject_Z z).

Definition Qltb (p q : Q) : bool := negb (Qle_bool q p).

(** [a < b]; a comparison with [NaN] is false. *)
Definition lt (a b : number) : bool :=
  match a, b with
  | Finite p, Finite q => Qltb p q
  | NegInfinity, Finite _ => true
  | NegInfinity, PosInfinity => true
  | Finite _, PosInfinity => true
  | _, _ => false
  end.

(** [a <= b]. *)
Definition le (a b : number) : bool :=
  match a, b with
  | Finite p, Finite q => Qle_bool p q
  | NaN, _ => false
  | _, NaN => false
  | NegInfinity, _ => true
  | _, PosInfinity => true
  | _, _ => false
  end.

Definition gt (a b : number) : bool := lt b a.
Definition ge (a b : number) : bool := le b a.

(** [a - b]. *)
Definition sub (a b : number) : number :=
  match a, b with
  | NaN, _ => NaN
  | _, NaN => NaN
  | Finite p, Finite q => Finite (p - q)%Q
  | PosInfinity, PosInfinity => NaN
  | NegInfinity, NegInfinity => NaN
  | PosInfinity, _ => PosInfinity
  | NegInfinity, _ => NegInfinity
  | Finite _, PosInfinity => NegInfinity
  | Finite _, NegInfinity => PosInfinity
  end.

(** Truthiness of a number: [NaN] and zero are falsy. *)
Definition truthy (a : number) : bool :=
  match a with
  | NaN => false
  | Finite q => negb (Qeq_bool q 0%Q)
  | _ => true
  end.

(** [a || 0]. *)
Definition orZero (a : number) : number := if truthy a then a else zero.

(** [a || undefined]. *)
Definition orUndefined (a : number) : option number :=
  if truthy a then Some a else None.

(** The same number: used to group records with equal sort keys. *)
Definition same (a b : number) : bool :=
  match a, b with
  | NaN, NaN => true
  | NegInfinity, NegInfinity => true
  | PosInfinity, PosInfinity => true
  | Finite p, Finite q => Qeq_bool p q
  | _, _ => false
  end.

Definition isNaN (a : number) : bool :=
  match a with NaN => true | _ => false end.

(** [Math.round] on a non-negative rational: the nearest integer, a half
    rounding up. *)
Definition round (q : Q) : Z := Qfloor (q + (1 # 2))%Q.

(** *** Doubles

    A quotient or a product of two doubles is the double nearest to the
    exact value.  The definitions are the rounding of IEEE 754 binary64
    on the normal range, which holds every value the code forms from row
    counts (fewer than [2 ^ 53] rows). *)

(** The exponent of the leading bit of a positive rational [q]:
    [2 ^ ilog2 q <= q < 2 ^ (ilog2 q + 1)]. *)
Definition ilog2 (q : Q) : Z :=
  let k := (Z.log2 (Qnum q) - Z.log2 (Zpos (Qden q)))%Z in
  if Qle_bool (2 ^ k)%Q q then k else (k - 1)%Z.

(** The nearest integer, a half going to the even one. *)
Definition roundHalfEven (q : Q) : Z :=
  let f := Qfloor q in
  match (q - inject_Z f ?= 1 # 2)%Q with
  | Lt => f
  | Gt => (f + 1)%Z
  | Eq => if Z.even f then f else (f + 1)%Z
  end.

(** The double nearest to a positive rational: a significand of 53 bits,
    a tie going to the even significand. *)
Definition nearestDouble (q : Q) : Q :=
  let e := (ilog2 q - 52)%Z in
  (inject_Z (roundHalfEven (q / 2 ^ e)) * 2 ^ e)%Q.

Definition binary64 (q : Q) : Q :=
  match (q ?= 0)%Q with
  | Eq => 0%Q
  | Gt => nearestDouble q
  | Lt => (- nearestDouble (- q))%Q
  end.

End JSNumber.

(** ** Values of [JSON.parse] *)

Inductive JSValue : Type :=
| JNull
| JBool (b : bool)
| JNum (n : number)
| JStr (s : string)
| JArr (items : list JSValue)
| JObj (members : list (string * JSValue)).

Module JSON.

(** [v.key] on a parsed value: an own member of an object, [undefined]
    on everything else (none of the keys the parser reads is inherited
    from a prototype). *)
Fixpoint lookupMember (key : string) (members : list (string * JSValue)) : option JSValue :=
  match members with
  | [] => None
  | (k, v) :: rest => if (k =? key)%string then Some v else lookupMember key rest
  end.

Definition get (v : JSValue) (key : string) : option JSValue :=
  match v with
  | JObj members => lookupMember key members
  | _ => None
  end.

(** [v?.key] where [v] may be [undefined] or [null]. *)
Definition getOpt (v : option JSValue) (key : string) : option JSValue :=
  match v with
  | None => None
  | Some JNull => None
  | Some w => get w key
  end.

Definition truthy (v : JSValue) : bool :=
  match v with
  | JNull => false
  | JBool b => b
  | JNum n => JSNumber.truthy n
  | JStr s => negb (isEmpty s)
  | JArr _ => true
  | JObj _ => true
  end.

Definition truthyOpt (v : option JSValue) : bool :=
  match v with
  | None => false
  | Some w => truthy w
  end.

(** [v || d]. *)
Definition orElse (v : option JSValue) (d : JSValue) : JSValue :=
  match v with
  | Some w => if truthy w then w else d
  | None => d
  end.

(** The conversion of [v] to a primitive, which [Number(v)], [parseFloat(v)]
    and [parseInt(v)] begin with, throws a [TypeError].  A parsed object
    with an own member [toString] has no callable [toString] (a parsed
    member is never a function) and its [valueOf], own or inherited,
    gives no primitive; an array is joined, which converts every element
    but [null] in turn. *)
Fixpoint throwsToPrimitive (v : JSValue) : bool :=
  match v with
  | JObj members => existsb (fun member => (fst member =? "toString")%string) members
  | JArr items => existsb throwsToPrimitive items
  | _ => false
  end.

End JSON.

(** ** The run time *)

(** [JSON_parse] is [None] where [JSON.parse] throws [SyntaxError];
    [toNumber] is [Number(v)] with [None] for [undefined]; [parseFloat]
    and [parseInt10] first convert their argument to a string; the three
    give the number a conversion that does not throw results in, and
    [JSON.throwsToPrimitive] tells when it throws;
    [dateTime s] is [new Date(s).getTime()], [NaN] for a text that is not
    a date; [localeCompare] is the sign of [a.localeCompare(b)]. *)
Class Runtime : Type := {
  JSON_parse : string -> option JSValue;
  toNumber : option JSValue -> number;
  parseFloat : JSValue -> number;
  parseInt10 : JSValue -> number;
  dateTime : string -> number;
  localeCompare : string -> string -> comparison
}.

(** A collation is a consistent comparison of strings. *)
Class CollationLaws (RT : Runtime) : Prop := {
  localeCompare_antisym :
    forall a b, localeCompare b a = CompOpp (localeCompare a b);
  localeCompare_trans :
    forall a b c, localeCompare a b <> Gt -> localeCompare b c <> Gt ->
                  localeCompare a c <> Gt
}.

(** ** Exceptions *)

Inductive outcome (A : Type) : Type :=
| Returned (a : A)
| Thrown (error : string).

Arguments Returned {A} a.
Arguments Thrown {A} error.

(** The statements after a call are run when the call returns. *)
Definition andThen {A B : Type} (x : outcome A) (f : A -> outcome B) : outcome B :=
  match x with
  | Returned a => f a
  | Thrown error => Thrown error
  end.

Definition TypeError : string := "TypeError".

(** ** Arrays *)

Module JSArray.

Section Sort.
Context {A : Type}.
Variable comparefn : A -> A -> number.

(** [x], which stood before every element of the sorted [l], moves
    behind the elements [y] with [comparefn(x, y) > 0] and no
    further. *)
Fixpoint insert (x : A) (l : list A) : list A :=
  match l with
  | [] => [x]
  | y :: l' =>
      if JSNumber.gt (comparefn x y) JSNumber.zero
      then y :: insert x l'
      else x :: l
  end.

(** [Array.prototype.sort(comparefn)].  The language asks for a stable
    sort, which fixes the result when [comparefn] is a consistent
    comparison of the elements; a value of [comparefn] that is [NaN]
    counts as 0.  When the comparison is not consistent the language
    leaves the order open: the model is then this insertion sort. *)
Definition sort (l : list A) : list A := fold_right insert [] l.
End Sort.

(** [l.slice(0, limit)] for an integer [limit]; a negative one counts
    from the end. *)
Definition slice0 {A : Type} (l : list A) (limit : Z) : list A :=
  if (0 <=? limit)%Z then firstn (Z.to_nat limit) l
  else firstn (length l - Z.to_nat (- limit)) l.

(** [l[i] || ''] on an array of strings. *)
Definition nthOrEmpty (l : list string) (i : nat) : string :=
  nth i l EmptyString.

(** [l.some(f)]. *)
Definition some {A : Type} (f : A -> bool) (l : list A) : bool := existsb f l.

End JSArray.

(** ** [types/product.ts] *)

(** The members read from parsed JSON keep the value they get at run
    time: the casts of the source ([as T], [safeJsonParse<T>]) check
    nothing. *)
Record Price : Type := {
  amount : number;
  currency : JSValue
}.

Record ProductImage : Type := {
  image_id : JSValue;
  url : JSValue;
  altText : option JSValue;
  width : option JSValue;
  height : option JSValue
}.

Record Product : Type := {
  id : string;
  title : string;
  handle : string;
  vendor : string;
  productType : string;
  description : string;
  bodyHtml : string;
  tags : list string;
  status : string;
  createdAt : string;
  updatedAt : string;
  price : Price;
  compareAtPrice : option Price;
  inventory : number;
  images : list ProductImage;
  rating : option number;
  reviewCount : option number
}.

Record SearchResult : Type := {
  product : Product;
  relevanceScore : Q;
  matchedFields : list string
}.

Record PriceRange : Type := {
  min : number;
  max : number
}.

Record SearchFilters : Type := {
  vendors : option (list string);
  priceRange : option PriceRange;
  inStock : option bool
}.

(** [sortBy] is a [SortOption] for the type checker and any string at run
    time; [limit] is an integer. *)
Record SearchOptions : Type := {
  query : string;
  filters : option SearchFilters;
  sortBy : option string;
  limit : option Z
}.

(** ** [lib/csvParser.ts] *)

Module csvParser.

Definition dquote : ascii := "034"%char.
Definition newline : ascii := "010"%char.
Definition carriageReturn : ascii := "013"%char.

(** [RawProductData]: the object built from one row; a later write to a
    key hides the earlier ones, a key never written reads [undefined]. *)
Definition RawProductData : Type := list (string * string).

Fixpoint rawGet (raw : RawProductData) (key : string) : option string :=
  match raw with
  | [] => None
  | (k, v) :: rest => if (k =? key)%string then Some v else rawGet rest key
  end.

Definition rawSet (raw : RawProductData) (key value : string) : RawProductData :=
  (key, value) :: raw.

(** [raw.KEY || d]. *)
Definition rawGetOr (raw : RawProductData) (key d : string) : string :=
  match rawGet raw key with
  | Some v => orElse v d
  | None => d
  end.

Record ParseStats : Type := {
  totalRows : nat;
  parsedProducts : nat;
  skippedRows : nat;
  errors : nat;
  parseTime : Z
}.

(** The [Partial<ParseStats>] handed to the observer. *)
Record ProgressStats : Type := {
  progressTotalRows : nat;
  progressParsedProducts : nat;
  progressSkippedRows : nat;
  progressErrors : nat
}.

Record ParseResult : Type := {
  products : list Product;
  stats : ParseStats
}.

Section WithRuntime.
Context {RT : Runtime}.

Definition safeJsonParse (json : option string) : JSValue :=
  match json with
  | None => JNull
  | Some text =>
      if isEmpty text then JNull
      else match JSON_parse text with
           | Some v => v
           | None => JNull
           end
  end.

(** [Number(v)], [parseFloat(v)] and [parseInt(v, 10)] on a parsed
    value, [undefined] included: a [TypeError] when the conversion to a
    primitive throws. *)
Definition numberOf (v : option JSValue) : outcome number :=
  match v with
  | Some w =>
      if JSON.throwsToPrimitive w then Thrown TypeError else Returned (toNumber v)
  | None => Returned (toNumber v)
  end.

Definition parseFloatOf (v : JSValue) : outcome number :=
  if JSON.throwsToPrimitive v then Thrown TypeError else Returned (parseFloat v).

Definition parseIntOf (v : JSValue) : outcome number :=
  if JSON.throwsToPrimitive v then Thrown TypeError else Returned (parseInt10 v).

Definition extractPrice (priceJson : option string) : outcome Price :=
  let priceRange := safeJsonParse priceJson in
  match JSON.getOpt (Some priceRange) "min_variant_price" with
  | Some minVariantPrice =>
      if JSON.truthy minVariantPrice
      then
        andThen (numberOf (JSON.get minVariantPrice "amount")) (fun n =>
        Returned {| amount := JSNumber.orZero n;
                    currency := JSON.orElse (JSON.get minVariantPrice "currency_code")
                                            (JStr "GBP") |})
      else Returned {| amount := JSNumber.zero; currency := JStr "GBP" |}
  | None => Returned {| amount := JSNumber.zero; currency := JStr "GBP" |}
  end.

Definition extractImages (imagesJson featuredJson : option string) : list ProductImage :=
  match featuredJson with
  | None => []
  | Some text =>
      if isEmpty text then []
      else
        let featured := safeJsonParse featuredJson in
        match JSON.getOpt (Some featured) "url" with
        | Some featuredUrl =>
            if JSON.truthy featuredUrl
            then [ {| image_id := JSON.orElse (JSON.get featured "id") (JStr "featured");
                      url := featuredUrl;
                      altText := JSON.get featured "alt_text";
                      width := JSON.get featured "width";
                      height := JSON.get featured "height" |} ]
            else []
        | None => []
        end
  end.

(** [x && x > 0 ? x : undefined] on the result of [... || undefined]. *)
Definition positiveOrUndefined (x : option number) : option number :=
  match x with
  | Some n => if JSNumber.truthy n && JSNumber.gt n JSNumber.zero then Some n else None
  | None => None
  end.

(** The two values [extractRating] converts, when it converts any:
    [metafields.yotpo_reviews_average?.value || '0'] and the same of
    [yotpo_reviews_count]. *)
Definition reviewValues (metafieldsJson : option string) : option (JSValue * JSValue) :=
  match metafieldsJson with
  | None => None
  | Some text =>
      if isEmpty text then None
      else
        let metafields := safeJsonParse metafieldsJson in
        if negb (JSON.truthy metafields) then None
        else
          Some (JSON.orElse
                  (JSON.getOpt (JSON.get metafields "yotpo_reviews_average") "value")
                  (JStr "0"),
                JSON.orElse
                  (JSON.getOpt (JSON.get metafields "yotpo_reviews_count") "value")
                  (JStr "0"))
  end.

Definition extractRating (metafieldsJson : option string)
  : outcome (option number * option number) :=
  match reviewValues metafieldsJson with
  | None => Returned (None, None)
  | Some (average, count) =>
      andThen (parseFloatOf average) (fun x =>
      let rating := JSNumber.orUndefined x in
      andThen (parseIntOf count) (fun y =>
      let reviewCount := JSNumber.orUndefined y in
      Returned (positiveOrUndefined rating, positiveOrUndefined reviewCount)))
  end.

Definition parseTags (tagsString : string) : list string :=
  if isEmpty tagsString then []
  else filter (fun t => negb (String.length t =? 0)%nat)
              (map trim (splitChar ","%char tagsString)).

(** The [try] block of [parseProduct]. *)
Definition parseProductTry (raw : RawProductData) : outcome Product :=
  andThen (extractPrice (rawGet raw "PRICE_RANGE_V2")) (fun price =>
  let images := extractImages (rawGet raw "IMAGES") (rawGet raw "FEATURED_IMAGE") in
  andThen (extractRating (rawGet raw "METAFIELDS")) (fun ratings =>
  let '(rating, reviewCount) := ratings in
  let tags := parseTags (rawGetOr raw "TAGS" "") in
  Returned {| id := rawGetOr raw "ID" "";
              title := rawGetOr raw "TITLE" "Untitled Product";
              handle := rawGetOr raw "HANDLE" "";
              vendor := rawGetOr raw "VENDOR" "Unknown";
              productType := rawGetOr raw "PRODUCT_TYPE" "";
              description := rawGetOr raw "DESCRIPTION" "";
              bodyHtml := rawGetOr raw "BODY_HTML" "";
              tags := tags;
              status := rawGetOr raw "STATUS" "ACTIVE";
              createdAt := rawGetOr raw "CREATED_AT" "";
              updatedAt := rawGetOr raw "UPDATED_AT" "";
              price := price;
              compareAtPrice := None;
              inventory := parseInt10 (JStr (rawGetOr raw "TOTAL_INVENTORY" "0"));
              images := images;
              rating := rating;
              reviewCount := reviewCount |})).

(** [parseProduct]: its [catch] takes whatever the [try] block throws
    and returns [null]. *)
Definition parseProduct (raw : RawProductData) : option Product :=
  match parseProductTry raw with
  | Returned product => Some product
  | Thrown _ => None
  end.

(** [parseCSVLine]: the fields of one line, each trimmed.  A quote
    toggles [inQuotes], except that inside quotes a doubled quote
    stands for one quote character; a comma outside quotes ends the
    field. *)
Fixpoint parseCSVLineFrom (result : list string) (current : string)
         (inQuotes : bool) (line : string) : list string :=
  match line with
  | EmptyString => result ++ [trim current]
  | String char rest =>
      if Ascii.eqb char dquote then
        match rest with
        | String next rest' =>
            if inQuotes && Ascii.eqb next dquote
            then parseCSVLineFrom result (current +++ String dquote EmptyString)
                                  inQuotes rest'
            else parseCSVLineFrom result current (negb inQuotes) rest
        | EmptyString => parseCSVLineFrom result current (negb inQuotes) rest
        end
      else if Ascii.eqb char ","%char && negb inQuotes then
        parseCSVLineFrom (result ++ [trim current]) EmptyString inQuotes rest
      else parseCSVLineFrom result (current +++ String char EmptyString) inQuotes rest
  end.

Definition parseCSVLine (line : string) : list string :=
  parseCSVLineFrom [] EmptyString false line.

(** [if (currentLine.trim()) lines.push(currentLine)]. *)
Definition pushLine (lines : list string) (currentLine : string) : list string :=
  if isEmpty (trim currentLine) then lines else lines ++ [currentLine].

(** The first loop of [parseCSV]: the text is cut at line ends that are
    outside quotes, and blank lines are dropped.  At a doubled quote
    the source appends the pair and then the character itself. *)
Fixpoint splitLinesFrom (lines : list string) (currentLine : string)
         (inQuotes : bool) (csvText : string) : list string :=
  match csvText with
  | EmptyString => pushLine lines currentLine
  | String char rest =>
      if Ascii.eqb char dquote then
        match rest with
        | String next rest' =>
            if Ascii.eqb next dquote
            then splitLinesFrom lines
                   (currentLine +++ String dquote (String dquote EmptyString)
                                +++ String char EmptyString)
                   inQuotes rest'
            else splitLinesFrom lines (currentLine +++ String char EmptyString)
                                (negb inQuotes) rest
        | EmptyString =>
            splitLinesFrom lines (currentLine +++ String char EmptyString)
                           (negb inQuotes) rest
        end
      else if (Ascii.eqb char newline || Ascii.eqb char carriageReturn)
              && negb inQuotes then
        let lines' := pushLine lines currentLine in
        match rest with
        | String next rest' =>
            if Ascii.eqb char carriageReturn && Ascii.eqb next newline
            then splitLinesFrom lines' EmptyString inQuotes rest'
            else splitLinesFrom lines' EmptyString inQuotes rest
        | EmptyString => splitLinesFrom lines' EmptyString inQuotes rest
        end
      else splitLinesFrom lines (currentLine +++ String char EmptyString) inQuotes rest
  end.

Definition splitLines (csvText : string) : list string :=
  splitLinesFrom [] EmptyString false csvText.

(** [headers.forEach((header, index) => rawData[header] = values[index] || '')]. *)
Fixpoint fillRawData (headers values : list string) (index : nat)
         (rawData : RawProductData) : RawProductData :=
  match headers with
  | [] => rawData
  | header :: headers' =>
      fillRawData headers' values (S index)
                  (rawSet rawData header (JSArray.nthOrEmpty values index))
  end.

(** The products, in the order they were pushed, and the counters of
    the second loop. *)
Record LoopState : Type := {
  loopProducts : list Product;
  loopSkippedRows : nat;
  loopErrors : nat
}.

Definition pushProduct (st : LoopState) (p : Product) : LoopState :=
  {| loopProducts := loopProducts st ++ [p];
     loopSkippedRows := loopSkippedRows st;
     loopErrors := loopErrors st |}.

Definition skipRow (st : LoopState) : LoopState :=
  {| loopProducts := loopProducts st;
     loopSkippedRows := S (loopSkippedRows st);
     loopErrors := loopErrors st |}.

Definition errorRow (st : LoopState) : LoopState :=
  {| loopProducts := loopProducts st;
     loopSkippedRows := S (loopSkippedRows st);
     loopErrors := S (loopErrors st) |}.

(** The part of the [try] block that builds the product: cutting the
    line and filling [rawData] throw nothing, and [parseProduct] has
    caught what its own block threw. *)
Definition decodeRow (headers : list string) (line : string) : outcome (option Product) :=
  let values := parseCSVLine line in
  let rawData := fillRawData headers values 0 [] in
  Returned (parseProduct rawData).

(** [product && product.status === 'ACTIVE' && product.price.amount > 0]. *)
Definition isRetained (product : option Product) : bool :=
  match product with
  | Some p => (status p =? "ACTIVE")%string
              && JSNumber.gt (amount (price p)) JSNumber.zero
  | None => false
  end.

(** The [try]/[catch] of the second loop. *)
Definition rowStep (headers : list string) (line : string) (st : LoopState) : LoopState :=
  match decodeRow headers line with
  | Returned product =>
      match product with
      | Some p => if isRetained product then pushProduct st p else skipRow st
      | None => skipRow st
      end
  | Thrown _ => errorRow st
  end.

(** [Math.round((i / totalLines) * 100)]: the quotient and the product
    are doubles; the loop runs with [totalLines] at least 1. *)
Definition percentOf (i totalLines : nat) : Z :=
  JSNumber.round
    (JSNumber.binary64
       (JSNumber.binary64 (inject_Z (Z.of_nat i) / inject_Z (Z.of_nat totalLines))
        * inject_Z 100))%Q.

Definition progressStats (rowsSeen : nat) (st : LoopState) : ProgressStats :=
  {| progressTotalRows := rowsSeen;
     progressParsedProducts := length (loopProducts st);
     progressSkippedRows := loopSkippedRows st;
     progressErrors := loopErrors st |}.

Section WithObserver.
(** The observer is a function of the caller: it is run on the
    caller's state [S]. *)
Context {S : Type}.
Variable onProgress : option (Z -> ProgressStats -> S -> S).

Definition report (percent : Z) (st : ProgressStats) (obs : S) : S :=
  match onProgress with
  | Some callback => callback percent st obs
  | None => obs
  end.

(** The second loop of [parseCSV], from row [i] on; [rows] are the
    lines [lines[i]], [lines[i+1]], ... *)
Fixpoint parseRows (headers : list string) (totalLines : nat) (i : nat)
         (rows : list string) (st : LoopState) (obs : S) : LoopState * S :=
  match rows with
  | [] => (st, obs)
  | row :: rows' =>
      let line := trim row in
      if isEmpty line
      then parseRows headers totalLines (Datatypes.S i) rows' (skipRow st) obs
      else
        let st' := rowStep headers line st in
        let obs' :=
          if (i mod 1000 =? 0)%nat
          then report (percentOf i totalLines) (progressStats i st') obs
          else obs in
        parseRows headers totalLines (Datatypes.S i) rows' st' obs'
  end.

(** What [parseCSV] reads and writes besides its arguments: the
    state of the observer and the module variable
    [cachedParseResult]. *)
Record World : Type := {
  observer : S;
  cachedParseResult : option ParseResult
}.

(** The result for an input of fewer than two lines. *)
Definition noData (startTime now : Z) : ParseResult :=
  {| products := [];
     stats := {| totalRows := 0; parsedProducts := 0; skippedRows := 0;
                 errors := 0; parseTime := (now - startTime)%Z |} |}.

(** [startTime] and [now] are the two readings of [Date.now()]. *)
Definition parseCSV (csvText : string) (startTime now : Z) (w : World)
  : outcome ParseResult * World :=
  let lines := splitLines csvText in
  match lines with
  | [] | [_] => (Returned (noData startTime now), w)
  | headerLine :: rows =>
      let headers := parseCSVLine headerLine in
      let totalLines := (length lines - 1)%nat in
      let '(st, obs) :=
        parseRows headers totalLines 1 rows
                  {| loopProducts := []; loopSkippedRows := 0; loopErrors := 0 |}
                  (observer w) in
      let obs' := report 100%Z (progressStats totalLines st) obs in
      let result :=
        {| products := loopProducts st;
           stats := {| totalRows := totalLines;
                       parsedProducts := length (loopProducts st);
                       skippedRows := loopSkippedRows st;
                       errors := loopErrors st;
                       parseTime := (now - startTime)%Z |} |} in
      (Returned result, {| observer := obs'; cachedParseResult := Some result |})
  end.

End WithObserver.

End WithRuntime.

End csvParser.

(** ** [lib/searchEngine.ts] *)

Module searchEngine.

Module FIELD_WEIGHTS.
Definition title : Q := 3.
Definition vendor : Q := 2.
Definition description : Q := 1.
Definition tags : Q := 1 # 2.
End FIELD_WEIGHTS.

Definition MINIMUM_SCORE : Q := 1 # 10.

Definition normalize (text : string) : string :=
  if isEmpty text then EmptyString
  else collapseWhitespace (trim (toLowerCase text)).

Definition normalizeForFuzzy (text : string) : string :=
  keepLowerAlnum (normalize text).

(** The loop of [isSubsequence]: the characters of [needle] are met in
    [haystack] in their order. *)
Fixpoint subsequenceFrom (haystack needle : string) : bool :=
  match needle, haystack with
  | EmptyString, _ => true
  | String _ _, EmptyString => false
  | String n needle', String h haystack' =>
      if Ascii.eqb n h then subsequenceFrom haystack' needle'
      else subsequenceFrom haystack' needle
  end.

Definition isSubsequence (needle haystack : string) : bool :=
  if isEmpty needle then false else subsequenceFrom haystack needle.

Definition tokenize (query : string) : list string :=
  filter (fun t => (0 <? String.length t)%nat) (splitWhitespace (normalize query)).

Definition space : string := String " "%char EmptyString.

(** The body of the loop of [scoreField], for one token. *)
Definition scoreToken (normalized normalizedFuzzy : string) (weight : Q)
           (score : Q) (token : string) : Q :=
  let fuzzyToken :=
    if (3 <=? String.length token)%nat then keepLowerAlnum token else EmptyString in
  if (normalized =? token)%string then (score + 10 * weight)%Q
  else if startsWith normalized token then (score + 5 * weight)%Q
  else if includes normalized (space +++ token +++ space)
          || startsWith normalized (token +++ space)
          || endsWith normalized (space +++ token)
  then (score + 4 * weight)%Q
  else if includes normalized token then (score + 2 * weight)%Q
  else if negb (isEmpty normalizedFuzzy) && negb (isEmpty fuzzyToken)
          && isSubsequence fuzzyToken normalizedFuzzy
  then (score + 1 * weight)%Q
  else score.

Definition scoreField (tokens : list string) (field : string) (weight : Q) : Q :=
  if isEmpty field || (length tokens =? 0)%nat then 0%Q
  else
    let normalized := normalize field in
    let normalizedFuzzy :=
      if (String.length normalized <=? 120)%nat then normalizeForFuzzy field
      else EmptyString in
    fold_left (scoreToken normalized normalizedFuzzy weight) tokens 0%Q.

Definition stripHtml (html : string) : string :=
  trim (collapseWhitespace (replaceTags html)).

(** [product.description || product.bodyHtml || '']. *)
Definition descriptionText (p : Product) : string :=
  orElse (orElse (description p) (bodyHtml p)) EmptyString.

Definition calculateScore (p : Product) (tokens : list string) : Q :=
  if (length tokens =? 0)%nat then 0%Q
  else
    (0 + scoreField tokens (title p) FIELD_WEIGHTS.title
       + scoreField tokens (vendor p) FIELD_WEIGHTS.vendor
       + scoreField tokens (stripHtml (descriptionText p)) FIELD_WEIGHTS.description
       + scoreField tokens (orElse (join space (tags p)) EmptyString) FIELD_WEIGHTS.tags)%Q.

Definition getMatches (p : Product) (tokens : list string) : list string :=
  let matched := [] in
  let matched :=
    if JSArray.some (fun t => includes (normalize (title p)) t) tokens
    then matched ++ ["title"] else matched in
  let matched :=
    if JSArray.some (fun t => includes (normalize (vendor p)) t) tokens
    then matched ++ ["vendor"] else matched in
  let matched :=
    if JSArray.some (fun t => includes (normalize (stripHtml (descriptionText p))) t) tokens
    then matched ++ ["description"] else matched in
  let matched :=
    if JSArray.some
         (fun t => JSArray.some (fun tag => includes (normalize tag) t) (tags p)) tokens
    then matched ++ ["tags"] else matched in
  matched.

Definition applyFilters (products : list Product) (filters : option SearchFilters)
  : list Product :=
  match filters with
  | None => products
  | Some f =>
      let filtered := products in
      let filtered :=
        match vendors f with
        | Some vs =>
            if (0 <? length vs)%nat
            then filter (fun p => existsb (fun v => (v =? vendor p)%string) vs) filtered
            else filtered
        | None => filtered
        end in
      let filtered :=
        match priceRange f with
        | Some range =>
            filter (fun p => JSNumber.ge (amount (price p)) (min range)
                             && JSNumber.le (amount (price p)) (max range)) filtered
        | None => filtered
        end in
      let filtered :=
        match inStock f with
        | Some true => filter (fun p => JSNumber.gt (inventory p) JSNumber.zero) filtered
        | _ => filtered
        end in
      filtered
  end.

Definition numberOfComparison (c : comparison) : number :=
  match c with
  | Lt => JSNumber.ofZ (-1)
  | Eq => JSNumber.zero
  | Gt => JSNumber.ofZ 1
  end.

(** [r.rating || 0]. *)
Definition ratingOrZero (r : SearchResult) : number :=
  match rating (product r) with
  | Some n => JSNumber.orZero n
  | None => JSNumber.zero
  end.

Section WithRuntime.
Context {RT : Runtime}.

(** [new Date(r.createdAt).getTime()]. *)
Definition createdTime (r : SearchResult) : number :=
  dateTime (createdAt (product r)).

Definition byRecentDesc (a b : SearchResult) : number :=
  JSNumber.sub (createdTime b) (createdTime a).
Definition byPriceAsc (a b : SearchResult) : number :=
  JSNumber.sub (amount (price (product a))) (amount (price (product b))).
Definition byPriceDesc (a b : SearchResult) : number :=
  JSNumber.sub (amount (price (product b))) (amount (price (product a))).
Definition byRatingDesc (a b : SearchResult) : number :=
  JSNumber.sub (ratingOrZero b) (ratingOrZero a).
Definition byVendorAsc (a b : SearchResult) : number :=
  numberOfComparison (localeCompare (vendor (product a)) (vendor (product b))).
Definition byVendorDesc (a b : SearchResult) : number :=
  numberOfComparison (localeCompare (vendor (product b)) (vendor (product a))).

(** The comparison function each [case] of [sortResults] sorts with. *)
Definition comparatorOf (sortBy : string) : SearchResult -> SearchResult -> number :=
  if (sortBy =? "recent-desc")%string then byRecentDesc
  else if (sortBy =? "price-asc")%string then byPriceAsc
  else if (sortBy =? "price-desc")%string then byPriceDesc
  else if (sortBy =? "rating-desc")%string then byRatingDesc
  else if (sortBy =? "vendor-asc")%string then byVendorAsc
  else if (sortBy =? "vendor-desc")%string then byVendorDesc
  else byRecentDesc.

(** [sortBy] is [None] when the argument is left out: the default
    parameter of the source then applies. *)
Definition sortResults (results : list SearchResult) (sortBy : option string)
  : list SearchResult :=
  let sortBy := match sortBy with Some s => s | None => "recent-desc" end in
  let sorted := results in
  JSArray.sort (comparatorOf sortBy) sorted.

(** [typeof limit === 'number' ? l.slice(0, limit) : l]. *)
Definition truncate {A : Type} (limit : option Z) (l : list A) : list A :=
  match limit with
  | Some n => JSArray.slice0 l n
  | None => l
  end.

(** [sortBy] as a condition: absent and the empty string are falsy. *)
Definition sortByGiven (sortBy : option string) : option string :=
  match sortBy with
  | Some s => if isEmpty s then None else Some s
  | None => None
  end.

Definition unscored (p : Product) : SearchResult :=
  {| product := p; relevanceScore := 0%Q; matchedFields := [] |}.

(** The body of the scoring loop of [searchProducts]. *)
Definition scoreInto (tokens : list string) (results : list SearchResult)
           (p : Product) : list SearchResult :=
  let score := calculateScore p tokens in
  if Qle_bool MINIMUM_SCORE score
  then results ++ [ {| product := p; relevanceScore := score;
                       matchedFields := getMatches p tokens |} ]
  else results.

Definition byRelevance (a b : SearchResult) : number :=
  Finite (relevanceScore b - relevanceScore a)%Q.

Definition searchProducts (products : list Product) (options : SearchOptions)
  : list SearchResult :=
  let filtered := applyFilters products (filters options) in
  if isEmpty (query options) || (trim (query options) =? "")%string then
    let results := map unscored filtered in
    let sorted :=
      sortResults results
        (Some match sortByGiven (sortBy options) with
              | Some s => s
              | None => "vendor-asc"
              end) in
    truncate (limit options) sorted
  else
    let tokens := tokenize (query options) in
    if (length tokens =? 0)%nat then []
    else
      let results := fold_left (scoreInto tokens) filtered [] in
      let results := JSArray.sort byRelevance results in
      match sortByGiven (sortBy options) with
      | None => truncate (limit options) results
      | Some s => truncate (limit options) (sortResults results (Some s))
      end.

End WithRuntime.

End searchEngine.

(** ** A reference run time

    An implementation of [Runtime] to run the code on concrete inputs.  It
    covers what a catalogue feed contains: JSON texts without [\u] escapes,
    decimal numerals, dates in the ISO formats [YYYY-MM-DD] and
    [YYYY-MM-DDTHH:mm:ss(.sss)Z], and it compares strings by their
    characters' codes.  The properties below are proved for every
    [Runtime], not for this one only. *)

Module Reference.

Definition isDigit (c : ascii) : bool :=
  let n := nat_of_ascii c in ((48 <=? n) && (n <=? 57))%nat.

Definition digitValue (c : ascii) : Z := Z.of_nat (nat_of_ascii c - 48).

(** Reads a run of digits: its value after [acc], its length after
    [count], and the rest of the text. *)
Fixpoint readDigits (acc : Z) (count : nat) (s : string) : Z * nat * string :=
  match s with
  | String c s' =>
      if isDigit c then readDigits (acc * 10 + digitValue c)%Z (S count) s'
      else (acc, count, s)
  | EmptyString => (acc, count, s)
  end.

Definition scale10 (q : Q) (e : Z) : Q :=
  if (0 <=? e)%Z then Qred (q * inject_Z (10 ^ e))%Q
  else Qred (q / inject_Z (10 ^ (- e)))%Q.

(** [e] or [E], an optional sign and digits; nothing is read when the
    digits are missing. *)
Definition readExponent (s : string) : Z * string :=
  match s with
  | String c s' =>
      if Ascii.eqb c "e"%char || Ascii.eqb c "E"%char then
        let '(negative, s'') :=
          match s' with
          | String sign t =>
              if Ascii.eqb sign "-"%char then (true, t)
              else if Ascii.eqb sign "+"%char then (false, t)
              else (false, s')
          | EmptyString => (false, s')
          end in
        let '(e, n, rest) := readDigits 0 0 s'' in
        if (n =? 0)%nat then (0%Z, s)
        else ((if negative then - e else e)%Z, rest)
      else (0%Z, s)
  | EmptyString => (0%Z, s)
  end.

(** An unsigned decimal numeral at the head of [s]: digits, an optional
    fraction and an optional exponent, with a digit on one side of the
    point at least. *)
Definition readUnsignedDecimal (s : string) : option (Q * string) :=
  let '(whole, wholeDigits, afterWhole) := readDigits 0 0 s in
  let mantissa : option (Z * nat * string) :=
    match afterWhole with
    | String c t =>
        if Ascii.eqb c "."%char then
          let '(m, k, rest) := readDigits whole 0 t in
          if (wholeDigits + k =? 0)%nat then None else Some (m, k, rest)
        else if (wholeDigits =? 0)%nat then None
        else Some (whole, 0%nat, afterWhole)
    | EmptyString =>
        if (wholeDigits =? 0)%nat then None else Some (whole, 0%nat, afterWhole)
    end in
  match mantissa with
  | Some (m, fractionDigits, afterFraction) =>
      let '(e, rest) := readExponent afterFraction in
      Some (scale10 (inject_Z m) (e - Z.of_nat fractionDigits), rest)
  | None => None
  end.

(** A numeral with an optional sign, or [Infinity]. *)
Definition readSignedNumber (s : string) : option (number * string) :=
  let '(negative, body) :=
    match s with
    | String c t =>
        if Ascii.eqb c "-"%char then (true, t)
        else if Ascii.eqb c "+"%char then (false, t)
        else (false, s)
    | EmptyString => (false, s)
    end in
  if String.prefix "Infinity" body
  then Some (if negative then NegInfinity else PosInfinity,
             String.substring 8 (String.length body - 8) body)
  else match readUnsignedDecimal body with
       | Some (q, rest) => Some (Finite (if negative then Qred (- q) else q), rest)
       | None => None
       end.

(** [Number(s)] on a string. *)
Definition stringToNumber (s : string) : number :=
  let t := trim s in
  if isEmpty t then JSNumber.zero
  else match readSignedNumber t with
       | Some (n, rest) => if isEmpty rest then n else NaN
       | None => NaN
       end.

Definition referenceToNumber (v : option JSValue) : number :=
  match v with
  | None => NaN
  | Some JNull => JSNumber.zero
  | Some (JBool b) => if b then JSNumber.ofZ 1 else JSNumber.zero
  | Some (JNum n) => n
  | Some (JStr s) => stringToNumber s
  | Some (JArr []) => JSNumber.zero
  | Some (JArr [JNum n]) => n
  | Some (JArr [JStr s]) => stringToNumber s
  | Some (JArr _) => NaN
  | Some (JObj _) => NaN
  end.

(** [parseFloat]: the longest numeral at the head of the text. *)
Definition referenceParseFloat (v : JSValue) : number :=
  match v with
  | JNum n => n
  | JStr s =>
      match readSignedNumber (trimStart s) with
      | Some (n, _) => n
      | None => NaN
      end
  | _ => NaN
  end.

(** [parseInt(v, 10)]: an optional sign and the digits at the head of the
    text. *)
Definition referenceParseInt10 (v : JSValue) : number :=
  match v with
  | JNum (Finite q) =>
      JSNumber.ofZ (if Qle_bool 0 q then Qfloor q else Qceiling q)
  | JStr s =>
      let t := trimStart s in
      let '(negative, body) :=
        match t with
        | String c t' =>
            if Ascii.eqb c "-"%char then (true, t')
            else if Ascii.eqb c "+"%char then (false, t')
            else (false, t)
        | EmptyString => (false, t)
        end in
      let '(value, n, _) := readDigits 0 0 body in
      if (n =? 0)%nat then NaN
      else JSNumber.ofZ (if negative then - value else value)
  | _ => NaN
  end.

(** *** [JSON.parse] *)

Definition isJsonWhitespace (c : ascii) : bool :=
  let n := nat_of_ascii c in
  ((n =? 32) || (n =? 9) || (n =? 10) || (n =? 13))%nat.

Fixpoint skipWhitespace (s : string) : string :=
  match s with
  | String c s' => if isJsonWhitespace c then skipWhitespace s' else s
  | EmptyString => s
  end.

Definition dropChars (n : nat) (s : string) : string :=
  String.substring n (String.length s - n) s.

(** The character written by a two-character escape. *)
Definition unescape (e : ascii) : option ascii :=
  if Ascii.eqb e csvParser.dquote then Some csvParser.dquote
  else if Ascii.eqb e "\"%char then Some "\"%char
  else if Ascii.eqb e "/"%char then Some "/"%char
  else if Ascii.eqb e "b"%char then Some "008"%char
  else if Ascii.eqb e "f"%char then Some "012"%char
  else if Ascii.eqb e "n"%char then Some "010"%char
  else if Ascii.eqb e "r"%char then Some "013"%char
  else if Ascii.eqb e "t"%char then Some "009"%char
  else None.

(** The text of a string literal after its opening quote. *)
Fixpoint readStringBody (acc : string) (s : string) : option (string * string) :=
  match s with
  | EmptyString => None
  | String c rest =>
      if Ascii.eqb c csvParser.dquote then Some (acc, rest)
      else if Ascii.eqb c "\"%char then
        match rest with
        | String e rest' =>
            match unescape e with
            | Some ch => readStringBody (acc +++ String ch EmptyString) rest'
            | None => None
            end
        | EmptyString => None
        end
      else if (nat_of_ascii c <? 32)%nat then None
      else readStringBody (acc +++ String c EmptyString) rest
  end.

(** A JSON number: no [+], no leading zero, digits after the point. *)
Definition readJsonNumber (s : string) : option (JSValue * string) :=
  let '(negative, body) :=
    match s with
    | String c t => if Ascii.eqb c "-"%char then (true, t) else (false, s)
    | EmptyString => (false, s)
    end in
  let '(_, wholeDigits, afterWhole) := readDigits 0 0 body in
  let leadingZero := String.prefix "0" body && (1 <? wholeDigits)%nat in
  let barePoint :=
    match afterWhole with
    | String c t =>
        Ascii.eqb c "."%char
        && (let '(_, k, _) := readDigits 0 0 t in (k =? 0)%nat)
    | EmptyString => false
    end in
  if (wholeDigits =? 0)%nat || leadingZero || barePoint then None
  else match readUnsignedDecimal body with
       | Some (q, rest) =>
           Some (JNum (Finite (if negative then Qred (- q) else q)), rest)
       | None => None
       end.

(** A value, the elements of an array after its [[], the members of an
    object after its [{].  The members are kept last first, so that the
    last of two equal keys is the one read. *)
Fixpoint readValue (fuel : nat) (s : string) {struct fuel} : option (JSValue * string) :=
  match fuel with
  | O => None
  | S fuel' =>
      match skipWhitespace s with
      | EmptyString => None
      | String c rest as t =>
          if Ascii.eqb c "{"%char then
            match skipWhitespace rest with
            | String c' rest' =>
                if Ascii.eqb c' "}"%char then Some (JObj [], rest')
                else readMembers fuel' [] rest
            | EmptyString => None
            end
          else if Ascii.eqb c "["%char then
            match skipWhitespace rest with
            | String c' rest' =>
                if Ascii.eqb c' "]"%char then Some (JArr [], rest')
                else readElements fuel' [] rest
            | EmptyString => None
            end
          else if Ascii.eqb c csvParser.dquote then
            match readStringBody EmptyString rest with
            | Some (text, rest') => Some (JStr text, rest')
            | None => None
            end
          else if String.prefix "true" t then Some (JBool true, dropChars 4 t)
          else if String.prefix "false" t then Some (JBool false, dropChars 5 t)
          else if String.prefix "null" t then Some (JNull, dropChars 4 t)
          else readJsonNumber t
      end
  end
with readElements (fuel : nat) (acc : list JSValue) (s : string) {struct fuel}
     : option (JSValue * string) :=
  match fuel with
  | O => None
  | S fuel' =>
      match readValue fuel' s with
      | Some (v, rest) =>
          match skipWhitespace rest with
          | String c rest' =>
              if Ascii.eqb c ","%char then readElements fuel' (acc ++ [v]) rest'
              else if Ascii.eqb c "]"%char then Some (JArr (acc ++ [v]), rest')
              else None
          | EmptyString => None
          end
      | None => None
      end
  end
with readMembers (fuel : nat) (acc : list (string * JSValue)) (s : string) {struct fuel}
     : option (JSValue * string) :=
  match fuel with
  | O => None
  | S fuel' =>
      match skipWhitespace s with
      | String q afterQuote =>
          if Ascii.eqb q csvParser.dquote then
            match readStringBody EmptyString afterQuote with
            | Some (key, afterKey) =>
                match skipWhitespace afterKey with
                | String colon afterColon =>
                    if Ascii.eqb colon ":"%char then
                      match readValue fuel' afterColon with
                      | Some (v, rest) =>
                          match skipWhitespace rest with
                          | String c rest' =>
                              if Ascii.eqb c ","%char
                              then readMembers fuel' ((key, v) :: acc) rest'
                              else if Ascii.eqb c "}"%char
                              then Some (JObj ((key, v) :: acc), rest')
                              else None
                          | EmptyString => None
                          end
                      | None => None
                      end
                    else None
                | EmptyString => None
                end
            | None => None
            end
          else None
      | EmptyString => None
      end
  end.

Definition referenceJsonParse (text : string) : option JSValue :=
  match readValue (2 * String.length text + 2) text with
  | Some (v, rest) => if isEmpty (skipWhitespace rest) then Some v else None
  | None => None
  end.

(** *** [Date] *)

(** Exactly [n] digits. *)
Definition readFixedDigits (n : nat) (s : string) : option (Z * string) :=
  let '(value, count, _) := readDigits 0 0 (String.substring 0 n s) in
  if (count =? n)%nat && (n <=? String.length s)%nat
  then Some (value, dropChars n s) else None.

Definition expect (c : ascii) (s : string) : option string :=
  match s with
  | String c' rest => if Ascii.eqb c c' then Some rest else None
  | EmptyString => None
  end.

Definition isLeapYear (y : Z) : bool :=
  ((y mod 4 =? 0) && negb (y mod 100 =? 0) || (y mod 400 =? 0))%Z.

Definition daysInMonth (y m : Z) : Z :=
  if (m =? 2)%Z then (if isLeapYear y then 29 else 28)%Z
  else if ((m =? 4) || (m =? 6) || (m =? 9) || (m =? 11))%Z then 30%Z
  else 31%Z.

(** The number of days from 1970-01-01 to the day [y]-[m]-[d]. *)
Definition daysFromCivil (y m d : Z) : Z :=
  let y' := (if m <=? 2 then y - 1 else y)%Z in
  let era := (y' / 400)%Z in
  let yearOfEra := (y' - era * 400)%Z in
  let dayOfYear := ((153 * (if 2 <? m then m - 3 else m + 9) + 2) / 5 + d - 1)%Z in
  let dayOfEra := (yearOfEra * 365 + yearOfEra / 4 - yearOfEra / 100 + dayOfYear)%Z in
  (era * 146097 + dayOfEra - 719468)%Z.

Definition bind {A B : Type} (o : option A) (f : A -> option B) : option B :=
  match o with
  | Some a => f a
  | None => None
  end.

Notation "e >>= f" := (bind e f) (at level 50, left associativity).

(** [HH:mm:ss], an optional [.sss], and [Z]: the milliseconds since
    midnight. *)
Definition readTimeOfDay (s : string) : option Z :=
  readFixedDigits 2 s >>= fun '(h, s) =>
  expect ":"%char s >>= fun s =>
  readFixedDigits 2 s >>= fun '(mi, s) =>
  expect ":"%char s >>= fun s =>
  readFixedDigits 2 s >>= fun '(sec, s) =>
  match expect "."%char s with
  | Some s' => readFixedDigits 3 s'
  | None => Some (0%Z, s)
  end >>= fun '(ms, s) =>
  expect "Z"%char s >>= fun s =>
  if isEmpty s && (h <=? 23)%Z && (mi <=? 59)%Z && (sec <=? 59)%Z
  then Some (((h * 60 + mi) * 60 + sec) * 1000 + ms)%Z
  else None.

Definition readIsoDate (s : string) : option Z :=
  readFixedDigits 4 s >>= fun '(y, s) =>
  expect "-"%char s >>= fun s =>
  readFixedDigits 2 s >>= fun '(m, s) =>
  expect "-"%char s >>= fun s =>
  readFixedDigits 2 s >>= fun '(d, s) =>
  if ((1 <=? m) && (m <=? 12) && (1 <=? d) && (d <=? daysInMonth y m))%Z then
    match expect "T"%char s with
    | Some s' => readTimeOfDay s'
    | None => if isEmpty s then Some 0%Z else None
    end >>= fun time =>
    Some (daysFromCivil y m d * 86400000 + time)%Z
  else None.

Definition referenceDateTime (s : string) : number :=
  match readIsoDate s with
  | Some t => JSNumber.ofZ t
  | None => NaN
  end.

#[export] Instance reference_runtime : Runtime := {|
  JSON_parse := referenceJsonParse;
  toNumber := referenceToNumber;
  parseFloat := referenceParseFloat;
  parseInt10 := referenceParseInt10;
  dateTime := referenceDateTime;
  localeCompare := String.compare
|}.

End Reference.

(** ** Observers of the parser *)

Module Observers.
Import csvParser.

(** One call [onProgress(percent, stats)]. *)
Definition Call : Type := (Z * ProgressStats)%type.

(** The observer that writes down its calls. *)
Definition logger (percent : Z) (st : ProgressStats) (log : list Call) : list Call :=
  log ++ [(percent, st)].

(** The state of an observer after the calls [calls]. *)
Definition replay {S : Type} (callback : Z -> ProgressStats -> S -> S)
           (calls : list Call) (obs : S) : S :=
  fold_left (fun s call => callback (fst call) (snd call) s) calls obs.

(** The calls [parseCSV] makes on [csvText]. *)
Definition progressCalls {RT : Runtime} (csvText : string) : list Call :=
  observer (snd (parseCSV (Some logger) csvText 0 0
                          {| observer := []; cachedParseResult := None |})).

Definition rowOf (call : Call) : nat := progressTotalRows (snd call).

(** The statistics of the last call, from the result. *)
Definition finalProgress (result : ParseResult) : ProgressStats :=
  {| progressTotalRows := totalRows (stats result);
     progressParsedProducts := parsedProducts (stats result);
     progressSkippedRows := skippedRows (stats result);
     progressErrors := errors (stats result) |}.

(** The statistics of a call count every row up to its own once. *)
Definition Cumulative (call : Call) : Prop :=
  progressParsedProducts (snd call) + progressSkippedRows (snd call)
  = progressTotalRows (snd call)
  /\ progressErrors (snd call) <= progressSkippedRows (snd call).

(** A header [header] and [n] rows [row]. *)
Fixpoint rowsText (row : string) (n : nat) : string :=
  match n with
  | O => EmptyString
  | S n' => String newline (row +++ rowsText row n')
  end.

Definition feed (header row : string) (n : nat) : string :=
  header +++ rowsText row n.

End Observers.

(** ** The six orders of the sort engine, as the specification names them *)

Inductive SortOption : Type :=
| RecentDesc | PriceAsc | PriceDesc | RatingDesc | VendorAsc | VendorDesc.

(** The order a sort name selects; a name that is none of the six selects
    [RecentDesc]. *)
Definition sortOptionOf (sortBy : string) : SortOption :=
  if (sortBy =? "price-asc")%string then PriceAsc
  else if (sortBy =? "price-desc")%string then PriceDesc
  else if (sortBy =? "rating-desc")%string then RatingDesc
  else if (sortBy =? "vendor-asc")%string then VendorAsc
  else if (sortBy =? "vendor-desc")%string then VendorDesc
  else RecentDesc.

Definition isSortName (sortBy : string) : bool :=
  existsb (String.eqb sortBy)
          ["recent-desc"; "price-asc"; "price-desc"; "rating-desc"; "vendor-asc"; "vendor-desc"].

Section SortKeys.
Context {RT : Runtime}.

Definition priceOf (r : SearchResult) : number := amount (price (product r)).
Definition vendorOf (r : SearchResult) : string := vendor (product r).

(** [a] may stand before [b] in the output of the order [o]. *)
Definition inOrder (o : SortOption) (a b : SearchResult) : Prop :=
  match o with
  | RecentDesc => JSNumber.ge (searchEngine.createdTime a) (searchEngine.createdTime b) = true
  | PriceAsc => JSNumber.le (priceOf a) (priceOf b) = true
  | PriceDesc => JSNumber.ge (priceOf a) (priceOf b) = true
  | RatingDesc =>
      JSNumber.ge (searchEngine.ratingOrZero a) (searchEngine.ratingOrZero b) = true
  | VendorAsc => localeCompare (vendorOf a) (vendorOf b) <> Gt
  | VendorDesc => localeCompare (vendorOf b) (vendorOf a) <> Gt
  end.

(** [a] and [b] have the same key in the order [o]. *)
Definition sameKey (o : SortOption) (a b : SearchResult) : bool :=
  match o with
  | RecentDesc => JSNumber.same (searchEngine.createdTime a) (searchEngine.createdTime b)
  | PriceAsc | PriceDesc => JSNumber.same (priceOf a) (priceOf b)
  | RatingDesc => JSNumber.same (searchEngine.ratingOrZero a) (searchEngine.ratingOrZero b)
  | VendorAsc | VendorDesc =>
      match localeCompare (vendorOf a) (vendorOf b) with Eq => true | _ => false end
  end.

(** The key of [r] in the order [o] is a number that compares: a price
    that is not [NaN], a creation text that is a date. *)
Definition keyComparable (o : SortOption) (r : SearchResult) : Prop :=
  match o with
  | RecentDesc => searchEngine.createdTime r <> NaN
  | PriceAsc | PriceDesc => priceOf r <> NaN
  | RatingDesc | VendorAsc | VendorDesc => True
  end.

(** The comparison function of the order [o]. *)
Definition comparatorFor (o : SortOption) : SearchResult -> SearchResult -> number :=
  match o with
  | RecentDesc => searchEngine.byRecentDesc
  | PriceAsc => searchEngine.byPriceAsc
  | PriceDesc => searchEngine.byPriceDesc
  | RatingDesc => searchEngine.byRatingDesc
  | VendorAsc => searchEngine.byVendorAsc
  | VendorDesc => searchEngine.byVendorDesc
  end.

End SortKeys.

(** ** The score ladder, as the specification words it *)

Inductive Rung : Type :=
| ExactMatch | PrefixMatch | WordMatch | SubstringMatch | FuzzyMatch | NoMatch.

Module Ladder.
Import searchEngine.

(** The first rule of the ladder that [token] meets on [field]. *)
Definition rungOf (field token : string) : Rung :=
  let normalized := normalize field in
  if (normalized =? token)%string then ExactMatch
  else if startsWith normalized token then PrefixMatch
  else if includes normalized (space +++ token +++ space)
          || startsWith normalized (token +++ space)
          || endsWith normalized (space +++ token)
  then WordMatch
  else if includes normalized token then SubstringMatch
  else if (3 <=? String.length token)%nat
          && (String.length normalized <=? 120)%nat
          && isSubsequence (keepLowerAlnum token) (normalizeForFuzzy field)
  then FuzzyMatch
  else NoMatch.

Definition factor (r : Rung) : Q :=
  match r with
  | ExactMatch => 10
  | PrefixMatch => 5
  | WordMatch => 4
  | SubstringMatch => 2
  | FuzzyMatch => 1
  | NoMatch => 0
  end.

(** The place of a rung on the ladder, the first rule at 0. *)
Definition rank (r : Rung) : nat :=
  match r with
  | ExactMatch => 0
  | PrefixMatch => 1
  | WordMatch => 2
  | SubstringMatch => 3
  | FuzzyMatch => 4
  | NoMatch => 5
  end.

(** The sum, over the tokens, of the value of the first matching rule. *)
Fixpoint ladderScore (tokens : list string) (field : string) (weight : Q) : Q :=
  match tokens with
  | [] => 0
  | token :: tokens' =>
      (factor (rungOf field token) * weight + ladderScore tokens' field weight)%Q
  end.

End Ladder.

(** ** Matched fields, as the specification words them *)

(** [t] occurs in [s] as a substring. *)
Definition occursIn (t s : string) : Prop :=
  exists before after : string, s = before +++ t +++ after.

Definition fieldNames : list string := ["title"; "vendor"; "description"; "tags"].

(** The weight of the field [name]. *)
Definition weightOf (name : string) : Q :=
  if (name =? "title")%string then searchEngine.FIELD_WEIGHTS.title
  else if (name =? "vendor")%string then searchEngine.FIELD_WEIGHTS.vendor
  else if (name =? "description")%string then searchEngine.FIELD_WEIGHTS.description
  else if (name =? "tags")%string then searchEngine.FIELD_WEIGHTS.tags
  else 0.

(** What the field [name] adds to the score of [p]: its term in the sum
    of [calculateScore]. *)
Definition contribution (p : Product) (tokens : list string) (name : string) : Q :=
  if (name =? "title")%string
  then searchEngine.scoreField tokens (title p) searchEngine.FIELD_WEIGHTS.title
  else if (name =? "vendor")%string
  then searchEngine.scoreField tokens (vendor p) searchEngine.FIELD_WEIGHTS.vendor
  else if (name =? "description")%string
  then searchEngine.scoreField tokens
         (searchEngine.stripHtml (searchEngine.descriptionText p))
         searchEngine.FIELD_WEIGHTS.description
  else if (name =? "tags")%string
  then searchEngine.scoreField tokens
         (orElse (join searchEngine.space (tags p)) EmptyString)
         searchEngine.FIELD_WEIGHTS.tags
  else 0.

(** ** Sample records and options *)

Module Samples.

Definition gbp (q : Q) : Price := {| amount := Finite q; currency := JStr "GBP" |}.

Definition blank : Product :=
  {| id := ""; title := ""; handle := ""; vendor := ""; productType := "";
     description := ""; bodyHtml := ""; tags := []; status := "ACTIVE";
     createdAt := ""; updatedAt := ""; price := gbp 1; compareAtPrice := None;
     inventory := Finite 1; images := []; rating := None; reviewCount := None |}.

(** The two records of [searchEngine.test.ts]. *)
Definition wheyProtein : Product :=
  {| id := "1"; title := "Transparent Labs Whey Protein"; handle := "tl-whey";
     vendor := "Transparent Labs"; productType := "Supplements";
     description := "High quality protein";
     bodyHtml := "<p>High quality protein</p>"; tags := ["protein"; "whey"];
     status := "ACTIVE";
     createdAt := "2024-05-01T10:00:00.000Z"; updatedAt := "2024-05-01T10:00:00.000Z";
     price := gbp 40; compareAtPrice := None; inventory := Finite 10; images := [];
     rating := None; reviewCount := None |}.

Definition supplement : Product :=
  {| id := "2"; title := "Another Brand Supplement"; handle := "generic-supp";
     vendor := "Generic Brand"; productType := "Supplements";
     description := "Contains Transparent Labs formula";
     bodyHtml := "<p>Contains formula</p>"; tags := ["mix"];
     status := "ACTIVE";
     createdAt := "2024-05-01T10:00:00.000Z"; updatedAt := "2024-05-01T10:00:00.000Z";
     price := gbp 20; compareAtPrice := None; inventory := Finite 5; images := [];
     rating := None; reviewCount := None |}.

Definition mockProducts : list Product := [wheyProtein; supplement].

Definition queryOnly (q : string) : SearchOptions :=
  {| query := q; filters := None; sortBy := None; limit := None |}.

(** A record of the vendor [v], created on the day [day]. *)
Definition dated (v day : string) : Product :=
  {| id := v; title := v; handle := ""; vendor := v; productType := "";
     description := ""; bodyHtml := ""; tags := []; status := "ACTIVE";
     createdAt := day; updatedAt := day; price := gbp 1; compareAtPrice := None;
     inventory := Finite 1; images := []; rating := None; reviewCount := None |}.

Definition priced (name : string) (a : number) : Product :=
  {| id := name; title := name; handle := ""; vendor := name; productType := "";
     description := ""; bodyHtml := ""; tags := []; status := "ACTIVE";
     createdAt := ""; updatedAt := "";
     price := {| amount := a; currency := JStr "GBP" |}; compareAtPrice := None;
     inventory := Finite 1; images := []; rating := None; reviewCount := None |}.

(** The filters [{vendor = {}, price = [0, Infinity), inStock = false}]. *)
Definition openFilters : SearchFilters :=
  {| vendors := Some [];
     priceRange := Some {| min := JSNumber.zero; max := PosInfinity |};
     inStock := Some false |}.

(** A feed of three rows as an export writes it: the JSON of the price is
    a quoted field, its quotes doubled. *)
Definition quote : string := String csvParser.dquote EmptyString.

Definition priceField (a : string) : string :=
  quote +++ "{" +++ quote +++ quote +++ "min_variant_price" +++ quote +++ quote
        +++ ":{" +++ quote +++ quote +++ "amount" +++ quote +++ quote +++ ":"
        +++ quote +++ quote +++ a +++ quote +++ quote +++ ","
        +++ quote +++ quote +++ "currency_code" +++ quote +++ quote +++ ":"
        +++ quote +++ quote +++ "GBP" +++ quote +++ quote +++ "}}" +++ quote.

Definition line (s : string) : string := s +++ String csvParser.newline EmptyString.

Definition catalogue : string :=
  line "ID,TITLE,STATUS,PRICE_RANGE_V2"
  +++ line ("1,Whey,ACTIVE," +++ priceField "12.99")
  +++ line ("2,Sketch,DRAFT," +++ priceField "5")
  +++ line ""
  +++ line "3,Gift,ACTIVE,{}".

(** A price whose amount is an object with a member [toString]:
    [Number] throws on it. *)
Definition doubled (s : string) : string := quote +++ quote +++ s +++ quote +++ quote.

Definition objectAmount : string :=
  quote +++ "{" +++ doubled "min_variant_price" +++ ":{" +++ doubled "amount"
        +++ ":{" +++ doubled "toString" +++ ":1}}}" +++ quote.

(** A feed whose second row does not decode. *)
Definition oddCatalogue : string :=
  line "ID,TITLE,STATUS,PRICE_RANGE_V2"
  +++ line ("1,Whey,ACTIVE," +++ priceField "12.99")
  +++ line ("2,Odd,ACTIVE," +++ objectAmount)
  +++ line ("3,Gift,ACTIVE," +++ priceField "5").

Definition draftOnly : string :=
  line "ID,TITLE,STATUS,PRICE_RANGE_V2" +++ line ("7,Sketch,DRAFT," +++ priceField "5").

Definition idle : csvParser.World (S := unit) :=
  {| csvParser.observer := tt; csvParser.cachedParseResult := None |}.

End Samples.

(** ** The relevance ranker, as the specification words it *)

Module Ranker.
Import searchEngine.

(** The aggregate score of [p] reaches the minimum threshold. *)
Definition qualifies (tokens : list string) (p : Product) : bool :=
  Qle_bool MINIMUM_SCORE (calculateScore p tokens).

(** The result emitted for [p]. *)
Definition scored (tokens : list string) (p : Product) : SearchResult :=
  {| product := p;
     relevanceScore := calculateScore p tokens;
     matchedFields := getMatches p tokens |}.

End Ranker.

(** ** Invariants of the record parser *)

(** What the retention rule keeps. *)
Definition Retained (p : Product) : Prop :=
  status p = "ACTIVE" /\ JSNumber.gt (amount (price p)) JSNumber.zero = true.

(** The counters after [n] rows: every row is counted once, an errored
    row is a skipped row, every product kept is retained. *)
Record Counted (n : nat) (st : csvParser.LoopState) : Prop := {
  counted_rows :
    length (csvParser.loopProducts st) + csvParser.loopSkippedRows st = n;
  counted_errors : csvParser.loopErrors st <= csvParser.loopSkippedRows st;
  counted_retained : Forall Retained (csvParser.loopProducts st)
}.

(** The row object of a data row under the fields of the header. *)
Definition rawDataOf (headers : list string) (row : string) : csvParser.RawProductData :=
  csvParser.fillRawData headers (csvParser.parseCSVLine (trim row)) 0 [].

(** The decoding of a row fails: the [try] block of [parseProduct]
    throws. *)
Definition DecodingFails {RT : Runtime} (headers : list string) (row : string) : Prop :=
  exists error : string, csvParser.parseProductTry (rawDataOf headers row) = Thrown error.

(** The record a row adds to the collection: the row is not blank, it
    decodes, and its record is retained. *)
Definition rowRecord {RT : Runtime} (headers : list string) (row : string)
  : option Product :=
  if isEmpty (trim row) then None
  else match csvParser.parseProduct (rawDataOf headers row) with
       | Some p => if csvParser.isRetained (Some p) then Some p else None
       | None => None
       end.

(** The records of the rows, in the order of the rows, and the number
    of rows that add none. *)
Definition keptRecords {RT : Runtime} (headers : list string) (rows : list string)
  : list Product :=
  flat_map (fun row => match rowRecord headers row with
                       | Some p => [p]
                       | None => []
                       end) rows.

Definition skippedCount {RT : Runtime} (headers : list string) (rows : list string)
  : nat :=
  length (filter (fun row => match rowRecord headers row with
                             | Some _ => false
                             | None => true
                             end) rows).

(** One of the conversions of [parseProduct] throws on the row object:
    [Number] on the amount of a truthy [min_variant_price], [parseFloat]
    or [parseInt] on a review value. *)
Definition amountThrows {RT : Runtime} (priceJson : option string) : bool :=
  match JSON.getOpt (Some (csvParser.safeJsonParse priceJson)) "min_variant_price" with
  | Some minVariantPrice =>
      JSON.truthy minVariantPrice
      && match JSON.get minVariantPrice "amount" with
         | Some a => JSON.throwsToPrimitive a
         | None => false
         end
  | None => false
  end.

Definition reviewThrows {RT : Runtime} (metafieldsJson : option string) : bool :=
  match csvParser.reviewValues metafieldsJson with
  | Some (average, count) => JSON.throwsToPrimitive average || JSON.throwsToPrimitive count
  | None => false
  end.

Definition conversionThrows {RT : Runtime} (raw : csvParser.RawProductData) : bool :=
  amountThrows (csvParser.rawGet raw "PRICE_RANGE_V2")
  || reviewThrows (csvParser.rawGet raw "METAFIELDS").

(** A string of white space only. *)
Fixpoint isBlank (s : string) : bool :=
  match s with
  | EmptyString => true
  | String c s' => isWhitespace c && isBlank s'
  end.

(** A line the first loop of [parseCSV] keeps. *)
Definition NonBlank (line : string) : Prop := isEmpty (trim line) = false.

(** A row whose progress is reported. *)
Definition reportedRow (i : nat) : bool := (i mod 1000 =? 0)%nat.

(** ** The list a query-scoped search cuts to [limit] *)

Definition ranked {RT : Runtime} (products : list Product) (options : SearchOptions)
  : list SearchResult :=
  let results :=
    JSArray.sort searchEngine.byRelevance
                 (map (Ranker.scored (searchEngine.tokenize (query options)))
                      (filter (Ranker.qualifies (searchEngine.tokenize (query options)))
                              (searchEngine.applyFilters products (filters options)))) in
  match searchEngine.sortByGiven (sortBy options) with
  | None => results
  | Some s => searchEngine.sortResults results (Some s)
  end.

(** ** The rest of [lib/searchEngine.ts] *)

Module searchEngineHelpers.

(** [set.add(v)] on a [Set] of strings, kept in the order of insertion. *)
Definition setAdd (set : list string) (v : string) : list string :=
  if existsb (String.eqb v) set then set else set ++ [v].

(** [new Set(values)]. *)
Definition setFrom (values : list string) : list string :=
  fold_left setAdd values [].

(** The comparison of [sort()] without a comparison function: strings by
    the codes of their characters. *)
Definition defaultCompare (a b : string) : number :=
  searchEngine.numberOfComparison (String.compare a b).

Definition getUniqueVendors (products : list Product) : list string :=
  let vendors :=
    setFrom (filter (fun v => negb (isEmpty v)) (map vendor products)) in
  JSArray.sort defaultCompare vendors.

(** One step of [Math.min]: [NaN] wins, then the smaller. *)
Definition min2 (acc x : number) : number :=
  if JSNumber.isNaN acc || JSNumber.isNaN x then NaN
  else if JSNumber.lt x acc then x else acc.

Definition max2 (acc x : number) : number :=
  if JSNumber.isNaN acc || JSNumber.isNaN x then NaN
  else if JSNumber.lt acc x then x else acc.

(** [Math.min(...l)] and [Math.max(...l)]. *)
Definition mathMin (l : list number) : number := fold_left min2 l PosInfinity.
Definition mathMax (l : list number) : number := fold_left max2 l NegInfinity.

Definition getPriceRange (products : list Product) : PriceRange :=
  if (length products =? 0)%nat
  then {| min := JSNumber.zero; max := JSNumber.zero |}
  else
    let prices := map (fun p => amount (price p)) products in
    {| min := mathMin prices; max := mathMax prices |}.

End searchEngineHelpers.

(** ** [lib/hooks.ts]: what [useProductSearch] computes from its state *)

Module hooks.

Definition hasQuery (query : string) : bool := negb (trim query =? "")%string.

(** [Boolean((filters?.vendors && filters.vendors.length > 0)
    || filters?.priceRange || filters?.inStock)]. *)
Definition hasActiveFilters (filters : option SearchFilters) : bool :=
  match filters with
  | None => false
  | Some f =>
      match vendors f with
      | Some vs => (0 <? length vs)%nat
      | None => false
      end
      || match priceRange f with Some _ => true | None => false end
      || match inStock f with Some b => b | None => false end
  end.

(** One of the two [if]s of the loop of [suggestions]: [candidate] is a
    trimmed title or vendor.  The set [unique] and [suggestionList] hold
    the same strings, so the list stands for both. *)
Definition consider (normalized candidate : string) (suggestionList : list string)
  : list string :=
  if negb (isEmpty candidate)
     && includes (toLowerCase candidate) normalized
     && negb (existsb (String.eqb candidate) suggestionList)
  then suggestionList ++ [candidate]
  else suggestionList.

(** The loop over the results, left at six suggestions or more. *)
Fixpoint suggestLoop (normalized : string) (results : list SearchResult)
         (suggestionList : list string) : list string :=
  match results with
  | [] => suggestionList
  | r :: rest =>
      let suggestionList :=
        consider normalized (trim (title (product r))) suggestionList in
      let suggestionList :=
        consider normalized (trim (vendor (product r))) suggestionList in
      if (6 <=? length suggestionList)%nat then suggestionList
      else suggestLoop normalized rest suggestionList
  end.

Definition suggestions (query : string) (results : list SearchResult) : list string :=
  let normalized := toLowerCase (trim query) in
  if (String.length normalized <? 2)%nat then []
  else suggestLoop normalized results [].

End hooks.

(** ** [components/search/FilterSidebar.tsx]: the handlers of the filters *)

Module FilterSidebar.

(** A [Partial<SearchFilters>]: a key is absent ([None]) or present with
    a value that may be [undefined]. *)
Record FilterPatch : Type := {
  patchVendors : option (option (list string));
  patchPriceRange : option (option PriceRange);
  patchInStock : option (option bool)
}.

(** [filters?.key]. *)
Definition currentVendors (filters : option SearchFilters) : option (list string) :=
  match filters with Some f => vendors f | None => None end.
Definition currentPriceRange (filters : option SearchFilters) : option PriceRange :=
  match filters with Some f => priceRange f | None => None end.
Definition currentInStock (filters : option SearchFilters) : option bool :=
  match filters with Some f => inStock f | None => None end.

(** The filters [updateFilters] builds before it decides what to hand
    over. *)
Definition updatedFilters (filters : option SearchFilters) (newFilterValues : FilterPatch)
  : SearchFilters :=
  {| vendors := match patchVendors newFilterValues with
                | Some v => v
                | None => currentVendors filters
                end;
     priceRange := match patchPriceRange newFilterValues with
                   | Some r => r
                   | None => currentPriceRange filters
                   end;
     inStock := match patchInStock newFilterValues with
                | Some b => b
                | None => currentInStock filters
                end |}.

(** The value [updateFilters] passes to [onFiltersChange]. *)
Definition updateFilters (filters : option SearchFilters) (newFilterValues : FilterPatch)
  : option SearchFilters :=
  let updated := updatedFilters filters newFilterValues in
  let hasActiveFilters :=
    match vendors updated with
    | Some vs => (0 <? length vs)%nat
    | None => false
    end
    || match priceRange updated with Some _ => true | None => false end
    || match inStock updated with Some b => b | None => false end in
  if hasActiveFilters then Some updated else None.

(** [filters?.vendors || []]. *)
Definition selectedVendors (filters : option SearchFilters) : list string :=
  match currentVendors filters with Some vs => vs | None => [] end.

(** [filters?.inStock || false]. *)
Definition inStockOnly (filters : option SearchFilters) : bool :=
  match currentInStock filters with Some b => b | None => false end.

Definition toggleVendor (filters : option SearchFilters) (vendor : string)
  : option SearchFilters :=
  let newVendors :=
    if existsb (String.eqb vendor) (selectedVendors filters)
    then filter (fun v => negb (v =? vendor)%string) (selectedVendors filters)
    else selectedVendors filters ++ [vendor] in
  updateFilters filters
    {| patchVendors := Some (if (0 <? length newVendors)%nat then Some newVendors else None);
       patchPriceRange := None; patchInStock := None |}.

Definition updatePriceRange (filters : option SearchFilters) (lo hi : number)
  : option SearchFilters :=
  updateFilters filters
    {| patchVendors := None;
       patchPriceRange := Some (Some {| min := lo; max := hi |});
       patchInStock := None |}.

Definition toggleInStock (filters : option SearchFilters) : option SearchFilters :=
  updateFilters filters
    {| patchVendors := None; patchPriceRange := None;
       patchInStock := Some (Some (negb (inStockOnly filters))) |}.

(** [counts.set(vendor, (counts.get(vendor) || 0) + 1)] on a [Map] kept in
    the order of insertion. *)
Fixpoint countVendor (counts : list (string * nat)) (v : string) : list (string * nat) :=
  match counts with
  | [] => [(v, 1)]
  | (k, n) :: rest =>
      if (k =? v)%string then (k, S n) :: rest else (k, n) :: countVendor rest v
  end.

Definition vendorCounts (products : list Product) : list (string * nat) :=
  fold_left (fun counts p => countVendor counts (vendor p)) products [].

(** [counts.get(v)]. *)
Fixpoint countOf (counts : list (string * nat)) (v : string) : option nat :=
  match counts with
  | [] => None
  | (k, n) :: rest => if (k =? v)%string then Some n else countOf rest v
  end.

End FilterSidebar.

(** ** [app/page.tsx]: the cart and the pages of results *)

Module page.

Record CartItem : Type := {
  cartProduct : Product;
  quantity : Z
}.

Definition sameProduct (productId : string) (item : CartItem) : bool :=
  (id (cartProduct item) =? productId)%string.

(** The update [handleAddToCart] applies to the cart. *)
Definition handleAddToCart (prev : list CartItem) (p : Product) : list CartItem :=
  if existsb (sameProduct (id p)) prev
  then map (fun item =>
              if sameProduct (id p) item
              then {| cartProduct := cartProduct item; quantity := (quantity item + 1)%Z |}
              else item)
           prev
  else prev ++ [ {| cartProduct := p; quantity := 1%Z |} ].


Definition cartCount (cartItems : list CartItem) : Z :=
  fold_left (fun sum item => (sum + quantity item)%Z) cartItems 0%Z.

Definition visibleResults (results : list SearchResult) (displayedItems : Z)
  : list SearchResult :=
  JSArray.slice0 results displayedItems.

Definition hasMoreResults (results : list SearchResult) (displayedItems : Z) : bool :=
  (displayedItems <? Z.of_nat (length results))%Z.

Definition handleLoadMore (prev itemsPerPage : Z) : Z := (prev + itemsPerPage)%Z.

End page.

(** ** Notions the further properties are stated with *)

(** The words of [s]: its longest pieces without white space; [cur] is
    the word being read. *)
Fixpoint wordsFrom (cur : string) (s : string) : list string :=
  match s with
  | EmptyString => if isEmpty cur then [] else [cur]
  | String c s' =>
      if isWhitespace c
      then if isEmpty cur then wordsFrom EmptyString s'
           else cur :: wordsFrom EmptyString s'
      else wordsFrom (cur +++ String c EmptyString) s'
  end.

Definition words (s : string) : list string := wordsFrom EmptyString s.

(** No character of [s] satisfies [f]. *)
Fixpoint noChar (f : ascii -> bool) (s : string) : bool :=
  match s with
  | EmptyString => true
  | String c s' => negb (f c) && noChar f s'
  end.

Definition isQuote (c : ascii) : bool := Ascii.eqb c csvParser.dquote.
Definition isComma (c : ascii) : bool := Ascii.eqb c ","%char.
Definition isLineBreak (c : ascii) : bool :=
  Ascii.eqb c csvParser.newline || Ascii.eqb c csvParser.carriageReturn.
Definition isUpper (c : ascii) : bool :=
  let n := nat_of_ascii c in ((65 <=? n) && (n <=? 90))%nat.

(** [needle] is [haystack] with characters left out. *)
Inductive Subsequence : string -> string -> Prop :=
| subsequence_empty (haystack : string) : Subsequence EmptyString haystack
| subsequence_skip (c : ascii) (needle haystack : string) :
    Subsequence needle haystack -> Subsequence needle (String c haystack)
| subsequence_take (c : ascii) (needle haystack : string) :
    Subsequence needle haystack ->
    Subsequence (String c needle) (String c haystack).

(** A field as a CSV writer quotes it: between quotes, its quotes
    doubled. *)
Fixpoint doubleQuotes (field : string) : string :=
  match field with
  | EmptyString => EmptyString
  | String c field' =>
      if isQuote c
      then String csvParser.dquote (String csvParser.dquote (doubleQuotes field'))
      else String c (doubleQuotes field')
  end.

Definition quoteField (field : string) : string :=
  String csvParser.dquote (doubleQuotes field +++ String csvParser.dquote EmptyString).

(** The filters accept [p]: the three tests of [applyFilters] together. *)
Definition passes (f : SearchFilters) (p : Product) : bool :=
  match vendors f with
  | Some vs =>
      if (0 <? length vs)%nat then existsb (fun v => (v =? vendor p)%string) vs else true
  | None => true
  end
  && match priceRange f with
     | Some range => JSNumber.ge (amount (price p)) (min range)
                     && JSNumber.le (amount (price p)) (max range)
     | None => true
     end
  && match inStock f with
     | Some true => JSNumber.gt (inventory p) JSNumber.zero
     | _ => true
     end.

(** A word: not empty and without white space. *)
Definition GoodWord (w : string) : Prop :=
  isEmpty w = false /\ noChar isWhitespace w = true.

(** The sum of the counts of a [Map] of counts. *)
Definition total (counts : list (string * nat)) : nat :=
  fold_right (fun entry sum => snd entry + sum) 0 counts.

(** The number of records of the vendor [v]. *)
Definition occurrences (products : list Product) (v : string) : nat :=
  length (filter (fun p => (vendor p =? v)%string) products).

(** The product id of an item of the cart. *)
Definition cartIds (item : page.CartItem) : string := id (page.cartProduct item).

(** A tag as [parseTags] returns it: not empty, trimmed, without a
    comma. *)
Definition CleanTag (t : string) : Prop :=
  t <> EmptyString /\ trim t = t /\ noChar isComma t = true.

(** What [parseProduct] guarantees of a record, whatever the row. *)
Definition WellFormed (p : Product) : Prop :=
  title p <> EmptyString
  /\ vendor p <> EmptyString
  /\ status p <> EmptyString
  /\ amount (price p) <> NaN
  /\ (forall n : number, rating p = Some n -> JSNumber.gt n JSNumber.zero = true)
  /\ (forall n : number, reviewCount p = Some n -> JSNumber.gt n JSNumber.zero = true)
  /\ length (images p) <= 1
  /\ compareAtPrice p = None
  /\ Forall CleanTag (tags p).

Definition isLt (c : ascii) : bool := Ascii.eqb c "<"%char.
Definition isGt (c : ascii) : bool := Ascii.eqb c ">"%char.

(** No [>] of [s] comes after a [<]: [s] holds no tag.  [opened] tells
    that a [<] was read. *)
Fixpoint noTagFrom (opened : bool) (s : string) : bool :=
  match s with
  | EmptyString => true
  | String c s' =>
      if opened && isGt c then false else noTagFrom (opened || isLt c) s'
  end.

(** The text [a], a quote, [b], a comma and [c]: a field that holds a
    quote and, later, a comma. *)
Definition quoteThenComma (a b c : string) : string :=
  a +++ String csvParser.dquote (b +++ String ","%char c).

(** The line the first loop of [parseCSV] makes of that field between
    quotes, its quote doubled. *)
Definition tripledLine (a b c : string) : string :=
  String csvParser.dquote
    (a +++ String csvParser.dquote (String csvParser.dquote (String csvParser.dquote
       (b +++ String ","%char (c +++ String csvParser.dquote EmptyString))))).

(** * Properties *)

(** ** Numbers *)

Module JSNumberFacts.
Import JSNumber.

Lemma Qltb_true (p q : Q) : Qltb p q = true <-> (p < q)%Q.
Proof.
  unfold Qltb. rewrite negb_true_iff. split; intro H.
  - apply Qnot_le_lt. intro Hle. apply Qle_bool_iff in Hle. congruence.
  - destruct (Qle_bool q p) eqn:E; [|reflexivity].
    apply Qle_bool_iff in E. exfalso. exact (Qlt_not_le _ _ H E).
Qed.

Lemma Qltb_false (p q : Q) : Qltb p q = false <-> (q <= p)%Q.
Proof.
  unfold Qltb. rewrite negb_false_iff. apply Qle_bool_iff.
Qed.

Lemma Qle_bool_false (p q : Q) : Qle_bool p q = false <-> (q < p)%Q.
Proof.
  split; intro H.
  - apply Qnot_le_lt. intro Hle. apply Qle_bool_iff in Hle. congruence.
  - destruct (Qle_bool p q) eqn:E; [|reflexivity].
    apply Qle_bool_iff in E. exfalso. exact (Qlt_not_le _ _ H E).
Qed.

(** With keys that are not [NaN], [comparefn(a, b) > 0] for the
    comparison function [a - b] says that [a <= b] fails. *)
Lemma gt_sub (x y : number) :
  x <> NaN -> y <> NaN -> gt (sub x y) zero = negb (le x y).
Proof.
  intros Hx Hy. destruct x as [| |p|], y as [| |q|]; try congruence; try reflexivity.
  cbn. unfold Qltb. f_equal.
  destruct (Qle_bool (p - q) 0) eqn:E1, (Qle_bool p q) eqn:E2; try reflexivity.
  - apply Qle_bool_iff in E1. apply Qle_bool_false in E2. lra.
  - apply Qle_bool_iff in E2. apply Qle_bool_false in E1. lra.
Qed.

Lemma le_trans (x y z : number) :
  le x y = true -> le y z = true -> le x z = true.
Proof.
  destruct x as [| |p|], y as [| |q|], z as [| |r|]; cbn; try congruence.
  rewrite !Qle_bool_iff. apply Qle_trans.
Qed.

Lemma le_total (x y : number) :
  x <> NaN -> y <> NaN -> le x y = false -> le y x = true.
Proof.
  intros Hx Hy. destruct x as [| |p|], y as [| |q|]; cbn; try congruence.
  rewrite Qle_bool_false, Qle_bool_iff. apply Qlt_le_weak.
Qed.

Lemma same_sym (x y : number) : same x y = same y x.
Proof.
  destruct x as [| |p|], y as [| |q|]; cbn; try reflexivity.
  destruct (Qeq_bool p q) eqn:E1, (Qeq_bool q p) eqn:E2; try reflexivity.
  - apply Qeq_bool_iff in E1. apply Qeq_bool_neq in E2. symmetry in E1. contradiction.
  - apply Qeq_bool_iff in E2. apply Qeq_bool_neq in E1. symmetry in E2. contradiction.
Qed.

Lemma same_trans (x y z : number) :
  same x y = true -> same y z = true -> same x z = true.
Proof.
  destruct x as [| |p|], y as [| |q|], z as [| |r|]; cbn; try congruence.
  rewrite !Qeq_bool_iff. apply Qeq_trans.
Qed.

(** Equal keys are never exchanged by the comparison function [a - b]. *)
Lemma gt_sub_same (x y : number) :
  same x y = true -> gt (sub x y) zero = false.
Proof.
  destruct x as [| |p|], y as [| |q|]; cbn; try congruence; try reflexivity.
  rewrite Qeq_bool_iff, Qltb_false. intro H. lra.
Qed.

Lemma lt_le (x y : number) : lt x y = true -> le x y = true.
Proof.
  destruct x as [| |p|], y as [| |q|]; cbn; try congruence.
  rewrite Qltb_true, Qle_bool_iff. apply Qlt_le_weak.
Qed.

Lemma orZero_not_NaN (x : number) : orZero x <> NaN.
Proof.
  unfold orZero. destruct x; cbn; try discriminate.
  destruct (negb _); discriminate.
Qed.

End JSNumberFacts.

(** ** Doubles *)

Module DoubleFacts.
Import JSNumber.
Local Open Scope Q_scope.

Lemma two_neq_0 : ~ 2 == 0.
Proof. discriminate. Qed.

Lemma pow2_pos (k : Z) : 0 < 2 ^ k.
Proof. apply Qpower_0_lt. reflexivity. Qed.

Lemma pow2_succ (k : Z) : 2 ^ (k + 1) == 2 * 2 ^ k.
Proof. rewrite Qpower_plus by apply two_neq_0. rewrite Qpower_1_r. ring. Qed.

Lemma pow2_inject (k : Z) : (0 <= k)%Z -> inject_Z (2 ^ k) == 2 ^ k.
Proof. intro H. now rewrite Zpower_Qpower. Qed.

(** The exponent of the leading bit. *)
Lemma ilog2_spec (q : Q) : 0 < q -> 2 ^ ilog2 q <= q /\ q < 2 ^ (ilog2 q + 1).
Proof.
  intro Hq. destruct q as [a b].
  assert (Ha : (0 < a)%Z) by (unfold Qlt in Hq; cbn in Hq; lia).
  unfold ilog2. cbn [Qnum Qden].
  set (la := Z.log2 a). set (lb := Z.log2 (Z.pos b)).
  destruct (Z.log2_spec a Ha) as [Ha1 Ha2]. fold la in Ha1, Ha2.
  destruct (Z.log2_spec (Z.pos b) eq_refl) as [Hb1 Hb2]. fold lb in Hb1, Hb2.
  assert (Hla : (0 <= la)%Z) by apply Z.log2_nonneg.
  assert (Hlb : (0 <= lb)%Z) by apply Z.log2_nonneg.
  assert (Hq' : a # b == inject_Z a / inject_Z (Z.pos b)) by apply Qmake_Qdiv.
  assert (Hbpos : 0 < inject_Z (Z.pos b)) by reflexivity.
  (* the two coarse bounds *)
  assert (Hup : a # b < 2 ^ (la - lb + 1)).
  { rewrite Hq'. apply Qlt_shift_div_r; [exact Hbpos|].
    apply Qlt_le_trans with (inject_Z (2 ^ (la + 1))).
    - rewrite <- Zlt_Qlt. unfold Z.succ in Ha2. exact Ha2.
    - rewrite pow2_inject by lia.
      replace (la + 1)%Z with ((la - lb + 1) + lb)%Z by lia.
      rewrite (Qpower_plus 2 (la - lb + 1) lb) by apply two_neq_0.
      apply Qmult_le_l; [apply pow2_pos|].
      rewrite <- pow2_inject by lia. rewrite <- Zle_Qle. exact Hb1. }
  assert (Hlow : 2 ^ (la - lb - 1) < a # b).
  { rewrite Hq'. apply Qlt_shift_div_l; [exact Hbpos|].
    apply Qlt_le_trans with (inject_Z (2 ^ la)).
    - rewrite pow2_inject by lia.
      replace la with ((la - lb - 1) + (lb + 1))%Z at 2 by lia.
      rewrite (Qpower_plus 2 (la - lb - 1) (lb + 1)) by apply two_neq_0.
      apply Qmult_lt_l; [apply pow2_pos|].
      rewrite <- pow2_inject by lia. rewrite <- Zlt_Qlt.
      unfold Z.succ in Hb2. exact Hb2.
    - rewrite <- Zle_Qle. exact Ha1. }
  destruct (Qle_bool (2 ^ (la - lb)) (a # b)) eqn:E.
  - apply Qle_bool_iff in E. split; assumption.
  - assert (Hlt : a # b < 2 ^ (la - lb)).
    { apply Qnot_le_lt. intro H. apply Qle_bool_iff in H. congruence. }
    split; [now apply Qlt_le_weak|].
    replace (la - lb - 1 + 1)%Z with (la - lb)%Z by lia. exact Hlt.
Qed.

Lemma ilog2_mono (p q : Q) : 0 < p -> p <= q -> (ilog2 p <= ilog2 q)%Z.
Proof.
  intros Hp Hpq.
  destruct (ilog2_spec p Hp) as [Hp1 _].
  destruct (ilog2_spec q (Qlt_le_trans _ _ _ Hp Hpq)) as [_ Hq2].
  assert (H : 2 ^ ilog2 p < 2 ^ (ilog2 q + 1)).
  { eapply Qle_lt_trans; [exact Hp1|]. eapply Qle_lt_trans; [exact Hpq | exact Hq2]. }
  apply Qpower_lt_compat_l_inv in H; [lia | reflexivity].
Qed.

(** Rounding to the nearest integer. *)
Lemma roundHalfEven_cases (q : Q) :
  (roundHalfEven q = Qfloor q /\ q - inject_Z (Qfloor q) <= 1 # 2)
  \/ (roundHalfEven q = (Qfloor q + 1)%Z /\ 1 # 2 <= q - inject_Z (Qfloor q)).
Proof.
  unfold roundHalfEven.
  destruct (q - inject_Z (Qfloor q) ?= 1 # 2) eqn:E.
  - apply Qeq_alt in E. destruct (Z.even (Qfloor q)).
    + left. split; [reflexivity|]. rewrite E. apply Qle_refl.
    + right. split; [reflexivity|]. rewrite E. apply Qle_refl.
  - apply Qlt_alt in E. left. split; [reflexivity | now apply Qlt_le_weak].
  - apply Qgt_alt in E. right. split; [reflexivity | now apply Qlt_le_weak].
Qed.

Lemma roundHalfEven_mono (p q : Q) : p <= q -> (roundHalfEven p <= roundHalfEven q)%Z.
Proof.
  intro Hpq. pose proof (Qfloor_resp_le _ _ Hpq) as Hf.
  destruct (Z.eq_dec (Qfloor p) (Qfloor q)) as [Heq|Hne].
  - unfold roundHalfEven. rewrite Heq.
    assert (Hr : p - inject_Z (Qfloor q) <= q - inject_Z (Qfloor q)) by lra.
    destruct (Qcompare_spec (p - inject_Z (Qfloor q)) (1 # 2)) as [Ep|Ep|Ep];
      destruct (Qcompare_spec (q - inject_Z (Qfloor q)) (1 # 2)) as [Eq'|Eq'|Eq'];
      try (destruct (Z.even (Qfloor q))); try lia; exfalso; lra.
  - destruct (roundHalfEven_cases p) as [[-> _]|[-> _]];
      destruct (roundHalfEven_cases q) as [[-> _]|[-> _]]; lia.
Qed.

Lemma roundHalfEven_le (q : Q) (n : Z) : q <= inject_Z n -> (roundHalfEven q <= n)%Z.
Proof.
  intro H. pose proof (Qfloor_le q) as Hfl. pose proof (Qlt_floor q) as Hlt.
  destruct (roundHalfEven_cases q) as [[-> _]|[-> Hr]].
  - rewrite Zle_Qle. lra.
  - assert (inject_Z (Qfloor q) < inject_Z n) by lra.
    rewrite <- Zlt_Qlt in *. lia.
Qed.

Lemma roundHalfEven_ge (q : Q) (n : Z) : inject_Z n <= q -> (n <= roundHalfEven q)%Z.
Proof.
  intro H. pose proof (Qfloor_resp_le _ _ H) as Hf. rewrite Qfloor_Z in Hf.
  destruct (roundHalfEven_cases q) as [[-> _]|[-> _]]; lia.
Qed.

(** The significand of a positive rational has 53 bits. *)
Lemma significand_bounds (q : Q) :
  0 < q ->
  inject_Z (2 ^ 52) <= q / 2 ^ (ilog2 q - 52)
  /\ q / 2 ^ (ilog2 q - 52) <= inject_Z (2 ^ 53).
Proof.
  intro Hq. destruct (ilog2_spec q Hq) as [H1 H2].
  pose proof (pow2_pos (ilog2 q - 52)) as He.
  rewrite !pow2_inject by lia.
  split.
  - apply Qle_shift_div_l; [exact He|].
    rewrite <- Qpower_plus by apply two_neq_0.
    replace (52 + (ilog2 q - 52))%Z with (ilog2 q) by lia. exact H1.
  - apply Qle_shift_div_r; [exact He|].
    rewrite <- Qpower_plus by apply two_neq_0.
    replace (53 + (ilog2 q - 52))%Z with (ilog2 q + 1)%Z by lia.
    now apply Qlt_le_weak.
Qed.

Lemma nearestDouble_pos (q : Q) : 0 < q -> 0 < nearestDouble q.
Proof.
  intro Hq. unfold nearestDouble.
  destruct (significand_bounds q Hq) as [H1 _].
  apply roundHalfEven_ge in H1.
  apply Qmult_lt_0_compat; [|apply pow2_pos].
  change 0 with (inject_Z 0). rewrite <- Zlt_Qlt. lia.
Qed.

Lemma nearestDouble_mono (p q : Q) :
  0 < p -> p <= q -> nearestDouble p <= nearestDouble q.
Proof.
  intros Hp Hpq. assert (Hq : 0 < q) by lra.
  pose proof (ilog2_mono p q Hp Hpq) as Hl.
  unfold nearestDouble.
  destruct (Z.eq_dec (ilog2 p) (ilog2 q)) as [Heq|Hne].
  - rewrite Heq. apply Qmult_le_compat_r; [|apply Qlt_le_weak, pow2_pos].
    rewrite <- Zle_Qle. apply roundHalfEven_mono.
    apply Qmult_le_compat_r; [exact Hpq|].
    apply Qinv_le_0_compat, Qlt_le_weak, pow2_pos.
  - destruct (significand_bounds p Hp) as [_ Hp2].
    destruct (significand_bounds q Hq) as [Hq1 _].
    apply roundHalfEven_le in Hp2. apply roundHalfEven_ge in Hq1.
    apply Qle_trans with (inject_Z (2 ^ 53) * 2 ^ (ilog2 p - 52)).
    + apply Qmult_le_compat_r; [|apply Qlt_le_weak, pow2_pos].
      now rewrite <- Zle_Qle.
    + apply Qle_trans with (inject_Z (2 ^ 52) * 2 ^ (ilog2 q - 52)).
      * rewrite !pow2_inject by lia.
        rewrite <- !Qpower_plus by apply two_neq_0.
        apply Qpower_le_compat_l; [lia | discriminate].
      * apply Qmult_le_compat_r; [|apply Qlt_le_weak, pow2_pos].
        now rewrite <- Zle_Qle.
Qed.

Lemma binary64_nonneg (q : Q) : 0 <= q -> 0 <= binary64 q.
Proof.
  intro Hq. unfold binary64. destruct (q ?= 0) eqn:E.
  - apply Qle_refl.
  - apply Qlt_alt in E. lra.
  - apply Qgt_alt in E. now apply Qlt_le_weak, nearestDouble_pos.
Qed.

(** Rounding to a double keeps the order. *)
Lemma binary64_mono (p q : Q) : 0 <= p -> p <= q -> binary64 p <= binary64 q.
Proof.
  intros Hp Hpq. unfold binary64 at 1. destruct (p ?= 0) eqn:E.
  - apply binary64_nonneg. lra.
  - apply Qlt_alt in E. lra.
  - apply Qgt_alt in E. unfold binary64.
    destruct (q ?= 0) eqn:E'.
    + apply Qeq_alt in E'. lra.
    + apply Qlt_alt in E'. lra.
    + now apply nearestDouble_mono.
Qed.

Lemma binary64_comp (p q : Q) : 0 <= p -> p == q -> binary64 p == binary64 q.
Proof.
  intros Hp Hpq. apply Qle_antisym; apply binary64_mono; lra.
Qed.

End DoubleFacts.

(** ** [Array.prototype.sort] *)

Module JSArrayFacts.
Import JSArray.

Section Sorting.
Context {A : Type}.
Variable comparefn : A -> A -> number.

Lemma insert_perm (x : A) (l : list A) : Permutation (insert comparefn x l) (x :: l).
Proof.
  induction l as [|y l IH]; cbn [insert].
  - apply Permutation_refl.
  - destruct (JSNumber.gt (comparefn x y) JSNumber.zero).
    + apply perm_trans with (y :: x :: l).
      * now apply perm_skip.
      * apply perm_swap.
    + apply Permutation_refl.
Qed.

Lemma sort_perm (l : list A) : Permutation (sort comparefn l) l.
Proof.
  induction l as [|x l IH]; cbn [sort fold_right].
  - apply perm_nil.
  - fold (sort comparefn l). apply perm_trans with (x :: sort comparefn l).
    + apply insert_perm.
    + now apply perm_skip.
Qed.

Lemma sort_length (l : list A) : length (sort comparefn l) = length l.
Proof. apply Permutation_length, sort_perm. Qed.

Lemma sort_In (x : A) (l : list A) : In x (sort comparefn l) <-> In x l.
Proof.
  split; apply Permutation_in; [|apply Permutation_sym]; apply sort_perm.
Qed.

(** *** Stability *)

Section Stable.
(** [class] picks the elements of one key; two of them are never
    exchanged. *)
Variable class : A -> bool.
Hypothesis class_kept :
  forall a b, class a = true -> class b = true ->
              JSNumber.gt (comparefn a b) JSNumber.zero = false.

Lemma insert_stable (x : A) (l : list A) :
  filter class (insert comparefn x l) = filter class (x :: l).
Proof.
  induction l as [|y l IH]; [reflexivity|].
  cbn [insert].
  destruct (JSNumber.gt (comparefn x y) JSNumber.zero) eqn:Hgt; [|reflexivity].
  cbn [filter] in *. rewrite IH.
  destruct (class x) eqn:Hx, (class y) eqn:Hy; try reflexivity.
  rewrite (class_kept x y Hx Hy) in Hgt. discriminate.
Qed.

Lemma sort_stable (l : list A) :
  filter class (sort comparefn l) = filter class l.
Proof.
  induction l as [|x l IH]; [reflexivity|].
  cbn [sort fold_right]. fold (sort comparefn l).
  rewrite insert_stable. cbn [filter]. now rewrite IH.
Qed.
End Stable.

(** *** Order *)

Section Sorted.
(** [P] holds of the elements that compare; on them [R] is the
    order the comparison function decides. *)
Variable P : A -> Prop.
Variable R : A -> A -> Prop.
Hypothesis R_trans :
  forall a b c, P a -> P b -> P c -> R a b -> R b c -> R a c.
Hypothesis kept :
  forall a b, P a -> P b ->
              JSNumber.gt (comparefn a b) JSNumber.zero = false -> R a b.
Hypothesis exchanged :
  forall a b, P a -> P b ->
              JSNumber.gt (comparefn a b) JSNumber.zero = true -> R b a.

Lemma insert_sorted (x : A) (l : list A) :
  P x -> Forall P l -> StronglySorted R l ->
  StronglySorted R (insert comparefn x l).
Proof.
  intros Hx HP Hs. induction Hs as [|y l Hs IH Hy].
  - cbn. constructor; constructor.
  - inversion HP as [|? ? HPy HPl]; subst.
    cbn [insert].
    destruct (JSNumber.gt (comparefn x y) JSNumber.zero) eqn:Hgt.
    + constructor; [now apply IH|].
      apply (Permutation_Forall (Permutation_sym (insert_perm x l))).
      constructor; [now apply exchanged|assumption].
    + constructor; [now constructor|].
      assert (Hxy : R x y) by now apply kept.
      constructor; [assumption|].
      rewrite Forall_forall in *. intros z Hz.
      apply (R_trans x y z); auto.
Qed.

Lemma sort_sorted (l : list A) :
  Forall P l -> StronglySorted R (sort comparefn l).
Proof.
  induction l as [|x l IH]; intro HP.
  - constructor.
  - inversion HP; subst. cbn [sort fold_right]. fold (sort comparefn l).
    apply insert_sorted; auto.
    apply (Permutation_Forall (Permutation_sym (sort_perm l))). assumption.
Qed.
End Sorted.

End Sorting.

(** *** The stable sort is determined

    Two lists that are ordered and hold the elements of every key in
    the same order are the same list: when the comparison is consistent,
    the language fixes the result of [sort]. *)

Section Determined.
Context {A : Type}.
Variable P : A -> Prop.
Variable R : A -> A -> Prop.
Variable class : A -> A -> bool.
Hypothesis class_refl : forall a, P a -> class a a = true.
Hypothesis class_both :
  forall a b, P a -> P b -> R a b -> R b a -> class a b = true.

Lemma sorted_stable_unique (l1 : list A) :
  forall l2 : list A,
    Forall P l1 -> Forall P l2 ->
    StronglySorted R l1 -> StronglySorted R l2 ->
    (forall r : A, P r -> filter (class r) l1 = filter (class r) l2) ->
    l1 = l2.
Proof.
  induction l1 as [|x l1 IH]; intros l2 HP1 HP2 Hs1 Hs2 Hf.
  - destruct l2 as [|y l2]; [reflexivity|].
    inversion HP2 as [|? ? Hy _]; subst.
    specialize (Hf y Hy). cbn [filter] in Hf. rewrite (class_refl y Hy) in Hf.
    discriminate.
  - inversion HP1 as [|? ? Hx HP1']; subst.
    destruct l2 as [|y l2].
    { specialize (Hf x Hx). cbn [filter] in Hf. rewrite (class_refl x Hx) in Hf.
      discriminate. }
    inversion HP2 as [|? ? Hy HP2']; subst.
    inversion Hs1 as [|? ? Hs1' Hx1]; subst.
    inversion Hs2 as [|? ? Hs2' Hy2]; subst.
    assert (Hxy : x = y).
    { assert (Hin2 : In x (y :: l2)).
      { apply (proj1 (filter_In (class x) x (y :: l2))).
        rewrite <- (Hf x Hx). cbn [filter]. rewrite (class_refl x Hx). now left. }
      assert (Hin1 : In y (x :: l1)).
      { apply (proj1 (filter_In (class y) y (x :: l1))).
        rewrite (Hf y Hy). cbn [filter]. rewrite (class_refl y Hy). now left. }
      destruct Hin2 as [E|Hin2]; [now symmetry|].
      destruct Hin1 as [E|Hin1]; [assumption|].
      rewrite Forall_forall in Hx1, Hy2.
      pose proof (class_both x y Hx Hy (Hx1 y Hin1) (Hy2 x Hin2)) as Hc.
      specialize (Hf x Hx). cbn [filter] in Hf.
      rewrite (class_refl x Hx), Hc in Hf. now injection Hf. }
    subst y. f_equal. apply IH; try assumption.
    intros r Hr. specialize (Hf r Hr). cbn [filter] in Hf.
    destruct (class r x); [now injection Hf | assumption].
Qed.
End Determined.

Lemma firstn_incl {A : Type} (n : nat) (l : list A) (x : A) :
  In x (firstn n l) -> In x l.
Proof.
  intro H. rewrite <- (firstn_skipn n l). apply in_or_app. now left.
Qed.

Lemma slice0_incl {A : Type} (l : list A) (limit : Z) (x : A) :
  In x (slice0 l limit) -> In x l.
Proof.
  unfold slice0. destruct (0 <=? limit)%Z; apply firstn_incl.
Qed.

End JSArrayFacts.

(** ** The sort engine *)

Module SortEngineFacts.
Import searchEngine.

Section WithRuntime.
Context {RT : Runtime}.

Lemma comparatorOf_sortOptionOf (sortBy : string) :
  comparatorOf sortBy = comparatorFor (sortOptionOf sortBy).
Proof.
  unfold comparatorOf, sortOptionOf.
  destruct (String.eqb_spec sortBy "recent-desc") as [->|_]; [reflexivity|].
  repeat match goal with
         | |- context [String.eqb sortBy ?s] => destruct (String.eqb sortBy s)
         end; reflexivity.
Qed.

Lemma sortOptionOf_unknown (sortBy : string) :
  isSortName sortBy = false -> sortOptionOf sortBy = RecentDesc.
Proof.
  unfold isSortName, sortOptionOf. cbn [existsb].
  rewrite !orb_false_iff. intros (_ & -> & -> & -> & -> & -> & _). reflexivity.
Qed.

Lemma gt_numberOfComparison (c : comparison) :
  JSNumber.gt (numberOfComparison c) JSNumber.zero = true <-> c = Gt.
Proof. destruct c; cbn; split; congruence. Qed.

Lemma ratingOrZero_not_NaN (r : SearchResult) : ratingOrZero r <> NaN.
Proof.
  unfold ratingOrZero. destruct (rating (product r)).
  - apply JSNumberFacts.orZero_not_NaN.
  - discriminate.
Qed.

(** Records with the same key are never exchanged, whatever the keys. *)
Lemma sameKey_kept `{!CollationLaws RT} (o : SortOption) (r a b : SearchResult) :
  sameKey o r a = true -> sameKey o r b = true ->
  JSNumber.gt (comparatorFor o a b) JSNumber.zero = false.
Proof.
  assert (Hnum : forall x y z, JSNumber.same x y = true -> JSNumber.same x z = true ->
                               JSNumber.same y z = true).
  { intros x y z Hxy Hxz. rewrite JSNumberFacts.same_sym in Hxy.
    eapply JSNumberFacts.same_trans; eassumption. }
  destruct o; cbn [sameKey comparatorFor]; intros Ha Hb;
    unfold byRecentDesc, byPriceAsc, byPriceDesc, byRatingDesc, byVendorAsc, byVendorDesc.
  - apply JSNumberFacts.gt_sub_same. eauto.
  - apply JSNumberFacts.gt_sub_same. eauto.
  - apply JSNumberFacts.gt_sub_same. eauto.
  - apply JSNumberFacts.gt_sub_same. eauto.
  - unfold vendorOf in *.
    destruct (localeCompare (vendor (product r)) (vendor (product a))) eqn:Ea;
      try discriminate.
    destruct (localeCompare (vendor (product r)) (vendor (product b))) eqn:Eb;
      try discriminate.
    apply not_true_is_false. rewrite gt_numberOfComparison.
    apply (localeCompare_trans _ (vendor (product r))).
    + rewrite (localeCompare_antisym (vendor (product r)) (vendor (product a))), Ea.
      discriminate.
    + rewrite Eb. discriminate.
  - unfold vendorOf in *.
    destruct (localeCompare (vendor (product r)) (vendor (product a))) eqn:Ea;
      try discriminate.
    destruct (localeCompare (vendor (product r)) (vendor (product b))) eqn:Eb;
      try discriminate.
    apply not_true_is_false. rewrite gt_numberOfComparison.
    apply (localeCompare_trans _ (vendor (product r))).
    + rewrite (localeCompare_antisym (vendor (product r)) (vendor (product b))), Eb.
      discriminate.
    + rewrite Ea. discriminate.
Qed.

Lemma inOrder_trans `{!CollationLaws RT} (o : SortOption) (a b c : SearchResult) :
  inOrder o a b -> inOrder o b c -> inOrder o a c.
Proof.
  destruct o; cbn [inOrder]; unfold JSNumber.ge; intros Hab Hbc;
    eauto using JSNumberFacts.le_trans, localeCompare_trans.
Qed.

Lemma comparator_kept (o : SortOption) (a b : SearchResult) :
  keyComparable o a -> keyComparable o b ->
  JSNumber.gt (comparatorFor o a b) JSNumber.zero = false -> inOrder o a b.
Proof.
  destruct o; cbn [keyComparable inOrder comparatorFor]; intros Ha Hb;
    unfold byRecentDesc, byPriceAsc, byPriceDesc, byRatingDesc, byVendorAsc,
           byVendorDesc, JSNumber.ge;
    try (rewrite JSNumberFacts.gt_sub, negb_false_iff;
         auto using ratingOrZero_not_NaN; fail).
  - unfold vendorOf. intros H E. apply gt_numberOfComparison in E. congruence.
  - unfold vendorOf. intros H E. apply gt_numberOfComparison in E. congruence.
Qed.

Lemma comparator_exchanged `{!CollationLaws RT} (o : SortOption) (a b : SearchResult) :
  keyComparable o a -> keyComparable o b ->
  JSNumber.gt (comparatorFor o a b) JSNumber.zero = true -> inOrder o b a.
Proof.
  destruct o; cbn [keyComparable inOrder comparatorFor]; intros Ha Hb;
    unfold byRecentDesc, byPriceAsc, byPriceDesc, byRatingDesc, byVendorAsc,
           byVendorDesc, JSNumber.ge;
    try (rewrite JSNumberFacts.gt_sub, negb_true_iff;
         auto using ratingOrZero_not_NaN;
         apply JSNumberFacts.le_total; auto using ratingOrZero_not_NaN; fail).
  - rewrite gt_numberOfComparison. intro E.
    rewrite (localeCompare_antisym (vendorOf a) (vendorOf b)). unfold vendorOf in *.
    rewrite E. discriminate.
  - rewrite gt_numberOfComparison. intro E.
    rewrite (localeCompare_antisym (vendorOf b) (vendorOf a)). unfold vendorOf in *.
    rewrite E. discriminate.
Qed.

Lemma sortResults_stable `{!CollationLaws RT} (results : list SearchResult)
      (sortBy : string) (r : SearchResult) :
  filter (sameKey (sortOptionOf sortBy) r) (sortResults results (Some sortBy))
  = filter (sameKey (sortOptionOf sortBy) r) results.
Proof.
  unfold sortResults. rewrite comparatorOf_sortOptionOf.
  apply JSArrayFacts.sort_stable. intros a b. apply sameKey_kept.
Qed.

Lemma sortResults_sorted `{!CollationLaws RT} (results : list SearchResult)
      (sortBy : string) :
  Forall (keyComparable (sortOptionOf sortBy)) results ->
  StronglySorted (inOrder (sortOptionOf sortBy)) (sortResults results (Some sortBy)).
Proof.
  unfold sortResults. rewrite comparatorOf_sortOptionOf.
  apply JSArrayFacts.sort_sorted.
  - intros a b c _ _ _. apply inOrder_trans.
  - apply comparator_kept.
  - apply comparator_exchanged.
Qed.

Lemma sameKey_refl `{!CollationLaws RT} (o : SortOption) (a : SearchResult) :
  keyComparable o a -> sameKey o a a = true.
Proof.
  assert (Hnum : forall x : number, x <> NaN -> JSNumber.same x x = true).
  { intros [| |q|] _; try reflexivity.
    cbn. apply Qeq_bool_iff. reflexivity. }
  assert (Hcol : forall v : string, localeCompare v v = Eq).
  { intro v. pose proof (localeCompare_antisym v v) as H.
    destruct (localeCompare v v); [reflexivity | discriminate | discriminate]. }
  destruct o; cbn [keyComparable sameKey]; intro Ha;
    auto using ratingOrZero_not_NaN; now rewrite Hcol.
Qed.

Lemma sameKey_both `{!CollationLaws RT} (o : SortOption) (a b : SearchResult) :
  inOrder o a b -> inOrder o b a -> sameKey o a b = true.
Proof.
  assert (Hnum : forall x y : number,
             JSNumber.le x y = true -> JSNumber.le y x = true ->
             JSNumber.same x y = true).
  { intros [| |p|] [| |q|]; cbn; try congruence.
    rewrite !Qle_bool_iff, Qeq_bool_iff. intros H1 H2. now apply Qle_antisym. }
  destruct o; cbn [inOrder sameKey]; unfold JSNumber.ge; intros Hab Hba; auto.
  - pose proof (localeCompare_antisym (vendorOf a) (vendorOf b)) as H.
    destruct (localeCompare (vendorOf a) (vendorOf b));
      [reflexivity | cbn in H; congruence | exfalso; auto].
  - pose proof (localeCompare_antisym (vendorOf a) (vendorOf b)) as H.
    destruct (localeCompare (vendorOf a) (vendorOf b));
      [reflexivity | cbn in H; congruence | exfalso; auto].
Qed.

(** When the keys compare, the output of [sortResults] is the one list
    that is ordered by the key and keeps the records of every key in
    their input order: a stable sort, whichever it is, returns it. *)
Lemma sortResults_determined `{!CollationLaws RT} (results sorted : list SearchResult)
      (sortBy : string) :
  Forall (keyComparable (sortOptionOf sortBy)) results ->
  Permutation sorted results ->
  StronglySorted (inOrder (sortOptionOf sortBy)) sorted ->
  (forall r : SearchResult,
      filter (sameKey (sortOptionOf sortBy) r) sorted
      = filter (sameKey (sortOptionOf sortBy) r) results) ->
  sorted = sortResults results (Some sortBy).
Proof.
  intros Hkeys Hperm Hsorted Hstable.
  apply (JSArrayFacts.sorted_stable_unique
           (keyComparable (sortOptionOf sortBy)) (inOrder (sortOptionOf sortBy))
           (sameKey (sortOptionOf sortBy))).
  - intro a. apply sameKey_refl.
  - intros a b _ _. apply sameKey_both.
  - apply (Permutation_Forall (Permutation_sym Hperm)). exact Hkeys.
  - apply (Permutation_Forall
             (Permutation_sym (JSArrayFacts.sort_perm _ results))). exact Hkeys.
  - exact Hsorted.
  - now apply sortResults_sorted.
  - intros r _. rewrite Hstable. symmetry. apply sortResults_stable.
Qed.

End WithRuntime.

End SortEngineFacts.

(** ** The record parser *)

Module csvParserFacts.
Import csvParser.

Section WithRuntime.
Context {RT : Runtime}.

Lemma isRetained_Retained (p : Product) : isRetained (Some p) = true -> Retained p.
Proof.
  unfold isRetained, Retained. rewrite andb_true_iff, String.eqb_eq. tauto.
Qed.

Lemma skipRow_Counted (n : nat) (st : LoopState) :
  Counted n st -> Counted (S n) (skipRow st).
Proof.
  intros [H1 H2 H3]. split; cbn; [lia | lia | assumption].
Qed.

Lemma errorRow_Counted (n : nat) (st : LoopState) :
  Counted n st -> Counted (S n) (errorRow st).
Proof.
  intros [H1 H2 H3]. split; cbn; [lia | lia | assumption].
Qed.

Lemma pushProduct_Counted (n : nat) (st : LoopState) (p : Product) :
  Retained p -> Counted n st -> Counted (S n) (pushProduct st p).
Proof.
  intros Hp [H1 H2 H3]. split; cbn.
  - rewrite length_app. cbn. lia.
  - assumption.
  - apply Forall_app. split; [assumption|]. constructor; [assumption|constructor].
Qed.

(** Whatever the [try] block does, the row is counted once: kept,
    skipped, or skipped as an error. *)
Lemma rowStep_Counted (headers : list string) (line : string) (n : nat) (st : LoopState) :
  Counted n st -> Counted (S n) (rowStep headers line st).
Proof.
  intro H. unfold rowStep.
  destruct (decodeRow headers line) as [[p|]|e].
  - destruct (isRetained (Some p)) eqn:E.
    + apply pushProduct_Counted; [now apply isRetained_Retained|assumption].
    + now apply skipRow_Counted.
  - now apply skipRow_Counted.
  - now apply errorRow_Counted.
Qed.

(** [parseProduct] has caught what its block threw, and no other step
    of the [try] block of the loop throws: its [catch] is never
    entered. *)
Lemma rowStep_errors (headers : list string) (line : string) (st : LoopState) :
  loopErrors (rowStep headers line st) = loopErrors st.
Proof.
  unfold rowStep, decodeRow.
  destruct (parseProduct _) as [p|]; [|reflexivity].
  destruct (isRetained _); reflexivity.
Qed.

(** A row that does not decode adds no record. *)
Lemma rowRecord_fails (headers : list string) (row : string) :
  DecodingFails headers row -> rowRecord headers row = None.
Proof.
  intros [error H]. unfold rowRecord, parseProduct. rewrite H.
  destruct (isEmpty (trim row)); reflexivity.
Qed.

Lemma keptRecords_app (headers : list string) (rows rows' : list string) :
  keptRecords headers (rows ++ rows')
  = keptRecords headers rows ++ keptRecords headers rows'.
Proof. unfold keptRecords. apply flat_map_app. Qed.

Lemma skippedCount_app (headers : list string) (rows rows' : list string) :
  skippedCount headers (rows ++ rows')
  = skippedCount headers rows + skippedCount headers rows'.
Proof. unfold skippedCount. now rewrite filter_app, length_app. Qed.

(** A row that adds no record is counted as skipped, and the rows
    around it give what they give without it. *)
Lemma skipped_row (headers : list string) (before after : list string) (row : string) :
  rowRecord headers row = None ->
  keptRecords headers (before ++ row :: after)
  = keptRecords headers before ++ keptRecords headers after
  /\ skippedCount headers (before ++ row :: after)
     = skippedCount headers before + 1 + skippedCount headers after.
Proof.
  intro H. rewrite keptRecords_app, skippedCount_app.
  change (row :: after) with ([row] ++ after).
  rewrite keptRecords_app, skippedCount_app.
  unfold keptRecords at 2, skippedCount at 2. cbn [flat_map filter]. rewrite H.
  cbn [app length]. split; [reflexivity|lia].
Qed.

Section WithObserver.
Context {S : Type}.
Variable onProgress : option (Z -> ProgressStats -> S -> S).

Lemma parseRows_errors (headers : list string) (totalLines : nat) (rows : list string) :
  forall (i : nat) (st : LoopState) (obs : S),
    loopErrors (fst (parseRows onProgress headers totalLines i rows st obs))
    = loopErrors st.
Proof.
  induction rows as [|row rows IH]; intros i st obs; cbn [parseRows]; [reflexivity|].
  destruct (isEmpty (trim row)); rewrite IH; [reflexivity|apply rowStep_errors].
Qed.

(** In this code the counter of errors stays at 0. *)
Lemma parseCSV_no_errors (csvText : string) (startTime now : Z) (w : World) :
  exists result : ParseResult,
    fst (parseCSV onProgress csvText startTime now w) = Returned result
    /\ errors (stats result) = 0.
Proof.
  unfold parseCSV.
  destruct (splitLines csvText) as [|headerLine [|row rows]];
    try (eexists; split; reflexivity).
  pose proof (parseRows_errors (parseCSVLine headerLine)
                (length (headerLine :: row :: rows) - 1) (row :: rows) 1
                {| loopProducts := []; loopSkippedRows := 0; loopErrors := 0 |}
                (observer w)) as H.
  destruct (parseRows onProgress _ _ 1 (row :: rows) _ _) as [st obs].
  eexists. split; [reflexivity|]. exact H.
Qed.

Lemma parseRows_Counted (headers : list string) (totalLines : nat) (rows : list string) :
  forall (i n : nat) (st : LoopState) (obs : S),
    Counted n st ->
    Counted (n + length rows) (fst (parseRows onProgress headers totalLines i rows st obs)).
Proof.
  induction rows as [|row rows IH]; intros i n st obs H; cbn [parseRows length].
  - now rewrite Nat.add_0_r.
  - rewrite Nat.add_succ_r.
    destruct (isEmpty (trim row)).
    + apply (IH _ (Datatypes.S n)). now apply skipRow_Counted.
    + apply (IH _ (Datatypes.S n)). now apply rowStep_Counted.
Qed.

(** The loop adds the records of the rows, in their order, counts the
    rows that add none, and goes on after a row that does not decode. *)
Lemma parseRows_rows (headers : list string) (totalLines : nat) (rows : list string) :
  forall (i : nat) (st : LoopState) (obs : S),
    loopProducts (fst (parseRows onProgress headers totalLines i rows st obs))
    = loopProducts st ++ keptRecords headers rows
    /\ loopSkippedRows (fst (parseRows onProgress headers totalLines i rows st obs))
       = loopSkippedRows st + skippedCount headers rows.
Proof.
  unfold keptRecords, skippedCount.
  induction rows as [|row rows IH]; intros i st obs; cbn [parseRows flat_map filter].
  - cbn. rewrite app_nil_r. auto.
  - unfold rowRecord at 1 3. destruct (isEmpty (trim row)).
    + destruct (IH (Datatypes.S i) (skipRow st) obs) as [-> ->].
      cbn [skipRow loopProducts loopSkippedRows app length]. split; [reflexivity|lia].
    + match goal with
      | |- context [parseRows _ _ _ _ _ ?st' ?obs'] =>
          destruct (IH (Datatypes.S i) st' obs') as [-> ->]
      end.
      unfold rowStep, decodeRow. fold (rawDataOf headers row).
      destruct (parseProduct (rawDataOf headers row)) as [p|].
      * destruct (isRetained (Some p)).
        -- cbn [pushProduct loopProducts loopSkippedRows app length].
           rewrite <- app_assoc. split; [reflexivity|lia].
        -- cbn [skipRow loopProducts loopSkippedRows app length]. split; [reflexivity|lia].
      * cbn [skipRow loopProducts loopSkippedRows app length]. split; [reflexivity|lia].
Qed.

(** What [parseCSV] returns for a header and at least one row. *)
Lemma parseCSV_rows (csvText : string) (startTime now : Z) (w : World)
      (headerLine row : string) (rows : list string) :
  splitLines csvText = headerLine :: row :: rows ->
  exists (result : ParseResult) (w' : World),
    parseCSV onProgress csvText startTime now w = (Returned result, w')
    /\ products result = keptRecords (parseCSVLine headerLine) (row :: rows)
    /\ totalRows (stats result) = length (row :: rows)
    /\ skippedRows (stats result) = skippedCount (parseCSVLine headerLine) (row :: rows)
    /\ errors (stats result) = 0
    /\ cachedParseResult w' = Some result.
Proof.
  intro Hlines. unfold parseCSV. rewrite Hlines.
  set (start := {| loopProducts := []; loopSkippedRows := 0; loopErrors := 0 |}).
  set (total := length (headerLine :: row :: rows) - 1).
  pose proof (parseRows_rows (parseCSVLine headerLine) total (row :: rows) 1
                start (observer w)) as [Hp Hs].
  pose proof (parseRows_errors (parseCSVLine headerLine) total (row :: rows) 1
                start (observer w)) as He.
  destruct (parseRows onProgress (parseCSVLine headerLine) total 1 (row :: rows) _ _)
    as [st obs].
  cbn [fst] in Hp, Hs, He.
  eexists. eexists. split; [reflexivity|].
  cbn [products stats totalRows skippedRows errors cachedParseResult].
  split; [exact Hp|]. split; [subst total; cbn [length]; lia|].
  split; [exact Hs|]. split; [exact He | reflexivity].
Qed.

(** The shape of every result of [parseCSV]. *)
Lemma parseCSV_cases (csvText : string) (startTime now : Z) (w : World) :
  (length (splitLines csvText) < 2
   /\ parseCSV onProgress csvText startTime now w
      = (Returned (noData startTime now), w))
  \/ (2 <= length (splitLines csvText)
      /\ exists (st : LoopState) (obs : S),
           Counted (length (splitLines csvText) - 1) st
           /\ parseCSV onProgress csvText startTime now w
              = (let result :=
                   {| products := loopProducts st;
                      stats := {| totalRows := length (splitLines csvText) - 1;
                                  parsedProducts := length (loopProducts st);
                                  skippedRows := loopSkippedRows st;
                                  errors := loopErrors st;
                                  parseTime := (now - startTime)%Z |} |} in
                 (Returned result,
                  {| observer := obs; cachedParseResult := Some result |}))).
Proof.
  unfold parseCSV.
  destruct (splitLines csvText) as [|headerLine [|row rows]] eqn:Hlines.
  - left. cbn. split; [lia|reflexivity].
  - left. cbn. split; [lia|reflexivity].
  - right. split; [cbn; lia|].
    set (rows' := row :: rows).
    set (total := length (headerLine :: rows') - 1).
    pose proof (parseRows_Counted (parseCSVLine headerLine) total rows' 1 0
                  {| loopProducts := []; loopSkippedRows := 0; loopErrors := 0 |}
                  (observer w)) as H.
    destruct (parseRows onProgress (parseCSVLine headerLine) total 1 rows' _ _)
      as [st obs] eqn:Hrows.
    exists st, (report onProgress 100%Z (progressStats total st) obs).
    split; [|reflexivity].
    cbn [fst] in H. replace total with (0 + length rows').
    + apply H. split; cbn; [reflexivity | lia | constructor].
    + subst total. cbn. lia.
Qed.

End WithObserver.
End WithRuntime.

End csvParserFacts.

(** ** The progress reports of the parser *)

Module ProgressFacts.
Import csvParser Observers.

Lemma pushLine_NonBlank (lines : list string) (currentLine : string) :
  Forall NonBlank lines -> Forall NonBlank (pushLine lines currentLine).
Proof.
  intro H. unfold pushLine. destruct (isEmpty (trim currentLine)) eqn:E; [assumption|].
  apply Forall_app. split; [assumption|]. constructor; [exact E|constructor].
Qed.

Section WithRuntime.
Context {RT : Runtime}.

(** Only lines that are not blank reach the second loop. *)
Lemma splitLinesFrom_NonBlank (n : nat) :
  forall (csvText : string) (lines : list string) (currentLine : string) (inQuotes : bool),
    String.length csvText <= n ->
    Forall NonBlank lines ->
    Forall NonBlank (splitLinesFrom lines currentLine inQuotes csvText).
Proof.
  induction n as [|n IH]; intros csvText lines cur inQ Hlen Hl.
  - destruct csvText; [|cbn in Hlen; lia]. cbn. now apply pushLine_NonBlank.
  - destruct csvText as [|char rest]; [cbn; now apply pushLine_NonBlank|].
    cbn [String.length] in Hlen.
    assert (Hrest : String.length rest <= n) by lia.
    cbn [splitLinesFrom].
    destruct (Ascii.eqb char dquote).
    + destruct rest as [|next rest'].
      * apply IH; assumption.
      * destruct (Ascii.eqb next dquote).
        -- apply IH; [cbn [String.length] in Hrest; lia|assumption].
        -- apply IH; assumption.
    + destruct ((Ascii.eqb char newline || Ascii.eqb char carriageReturn) && negb inQ).
      * destruct rest as [|next rest'].
        -- apply IH; [assumption|now apply pushLine_NonBlank].
        -- destruct (Ascii.eqb char carriageReturn && Ascii.eqb next newline).
           ++ apply IH; [cbn [String.length] in Hrest; lia|now apply pushLine_NonBlank].
           ++ apply IH; [assumption|now apply pushLine_NonBlank].
      * apply IH; assumption.
Qed.

Lemma splitLines_NonBlank (csvText : string) : Forall NonBlank (splitLines csvText).
Proof.
  apply (splitLinesFrom_NonBlank (String.length csvText)); [lia|constructor].
Qed.

(** *** The observer only listens *)

Lemma parseRows_logger (headers : list string) (totalLines : nat) (rows : list string) :
  forall (i : nat) (st : LoopState) (log : list Call),
    parseRows (Some logger) headers totalLines i rows st log
    = (fst (parseRows (Some logger) headers totalLines i rows st []),
       log ++ snd (parseRows (Some logger) headers totalLines i rows st [])).
Proof.
  induction rows as [|row rows IH]; intros i st log; cbn [parseRows].
  - cbn. now rewrite app_nil_r.
  - destruct (isEmpty (trim row)); [apply IH|].
    destruct (i mod 1000 =? 0)%nat; [|apply IH].
    cbn [report]. unfold logger. cbn [app].
    rewrite (IH _ _ (log ++ _)), (IH _ _ [_]). cbn [fst snd].
    now rewrite <- app_assoc.
Qed.

Lemma parseRows_replay {S : Type} (callback : Z -> ProgressStats -> S -> S)
      (headers : list string) (totalLines : nat) (rows : list string) :
  forall (i : nat) (st : LoopState) (obs : S),
    parseRows (Some callback) headers totalLines i rows st obs
    = (fst (parseRows (Some logger) headers totalLines i rows st []),
       replay callback (snd (parseRows (Some logger) headers totalLines i rows st [])) obs).
Proof.
  induction rows as [|row rows IH]; intros i st obs; cbn [parseRows].
  - reflexivity.
  - destruct (isEmpty (trim row)); [apply IH|].
    destruct (i mod 1000 =? 0)%nat; [|apply IH].
    rewrite IH. rewrite (parseRows_logger _ _ _ _ _ (report _ _ _ _)).
    cbn [fst snd report]. unfold logger, replay.
    rewrite fold_left_app. reflexivity.
Qed.


(** *** The percentage *)

Lemma quotient_nonneg (i totalLines : nat) :
  (0 <= inject_Z (Z.of_nat i) / inject_Z (Z.of_nat totalLines))%Q.
Proof.
  unfold Qdiv. apply Qmult_le_0_compat.
  - change 0%Q with (inject_Z 0). rewrite <- Zle_Qle. lia.
  - apply Qinv_le_0_compat. change 0%Q with (inject_Z 0). rewrite <- Zle_Qle. lia.
Qed.

Lemma percentOf_mono (totalLines i j : nat) :
  0 < totalLines -> i <= j -> (percentOf i totalLines <= percentOf j totalLines)%Z.
Proof.
  intros Ht Hij. unfold percentOf, JSNumber.round.
  apply Qfloor_resp_le, Qplus_le_l.
  assert (Hq : (inject_Z (Z.of_nat i) / inject_Z (Z.of_nat totalLines)
                <= inject_Z (Z.of_nat j) / inject_Z (Z.of_nat totalLines))%Q).
  { unfold Qdiv. apply Qmult_le_compat_r.
    - rewrite <- Zle_Qle. lia.
    - apply Qinv_le_0_compat. change 0%Q with (inject_Z 0). rewrite <- Zle_Qle. lia. }
  pose proof (DoubleFacts.binary64_mono _ _ (quotient_nonneg i totalLines) Hq) as Hb.
  pose proof (DoubleFacts.binary64_nonneg _ (quotient_nonneg i totalLines)) as H0.
  apply DoubleFacts.binary64_mono.
  - apply Qmult_le_0_compat; [exact H0 | discriminate].
  - apply Qmult_le_compat_r; [exact Hb | discriminate].
Qed.

Lemma percentOf_full (totalLines : nat) :
  0 < totalLines -> percentOf totalLines totalLines = 100%Z.
Proof.
  intro Ht. unfold percentOf, JSNumber.round.
  assert (H : (inject_Z (Z.of_nat totalLines) / inject_Z (Z.of_nat totalLines) == 1)%Q).
  { apply Qmult_inv_r. change 0%Q with (inject_Z 0).
    rewrite inject_Z_injective. lia. }
  assert (H1 : (JSNumber.binary64
                  (inject_Z (Z.of_nat totalLines) / inject_Z (Z.of_nat totalLines))
                == 1)%Q).
  { rewrite (DoubleFacts.binary64_comp _ 1 (quotient_nonneg _ _) H).
    vm_compute. reflexivity. }
  assert (H2 : (JSNumber.binary64
                  (JSNumber.binary64
                     (inject_Z (Z.of_nat totalLines) / inject_Z (Z.of_nat totalLines))
                   * inject_Z 100)
                == 100)%Q).
  { rewrite (DoubleFacts.binary64_comp _ 100).
    - vm_compute. reflexivity.
    - rewrite H1. discriminate.
    - rewrite H1. reflexivity. }
  rewrite H2. reflexivity.
Qed.

Lemma percentOf_le_100 (totalLines i : nat) :
  0 < totalLines -> i <= totalLines -> (percentOf i totalLines <= 100)%Z.
Proof.
  intros Ht Hi. rewrite <- (percentOf_full totalLines Ht). now apply percentOf_mono.
Qed.

(** The percentages of the reported rows, then [100], never go down. *)
Lemma percentages_sorted (totalLines n : nat) :
  forall i : nat,
    0 < totalLines -> i + n <= S totalLines ->
    StronglySorted Z.le
      (map (fun j => percentOf j totalLines) (filter reportedRow (seq i n)) ++ [100%Z]).
Proof.
  induction n as [|n IH]; intros i Ht Hin; cbn [seq filter map app].
  - constructor; constructor.
  - destruct (reportedRow i); [|apply IH; lia].
    cbn [map app]. constructor; [apply IH; lia|].
    apply Forall_app. split.
    + rewrite Forall_map, Forall_forall. intros j Hj.
      apply filter_In in Hj. destruct Hj as [Hj _]. apply in_seq in Hj.
      apply percentOf_mono; lia.
    + constructor; [|constructor]. apply percentOf_le_100; lia.
Qed.

(** *** The calls of the second loop *)

Lemma parseRows_calls (headers : list string) (totalLines : nat) (rows : list string) :
  forall (i : nat) (st : LoopState),
    Forall NonBlank rows ->
    Counted (i - 1) st -> 1 <= i ->
    let calls := snd (parseRows (Some logger) headers totalLines i rows st []) in
    map rowOf calls = filter reportedRow (seq i (length rows))
    /\ Forall (fun call => fst call = percentOf (rowOf call) totalLines) calls
    /\ Forall Cumulative calls.
Proof.
  induction rows as [|row rows IH]; intros i st Hrows Hst Hi; cbn [parseRows].
  - cbn. repeat split; constructor.
  - inversion Hrows as [|? ? Hrow Hrows']; subst.
    unfold NonBlank in Hrow. rewrite Hrow.
    assert (Hst' : Counted (S i - 1) (rowStep headers (trim row) st)).
    { replace (S i - 1) with (S (i - 1)) by lia. now apply csvParserFacts.rowStep_Counted. }
    destruct (IH (S i) _ Hrows' Hst' ltac:(lia)) as (IH1 & IH2 & IH3).
    cbn [length seq filter]. fold (reportedRow i).
    destruct (reportedRow i) eqn:Hrep.
    + cbn [report]. unfold logger. cbn [app].
      rewrite parseRows_logger. cbn [snd app map].
      repeat split.
      * f_equal. exact IH1.
      * constructor; [reflexivity|exact IH2].
      * constructor; [|exact IH3].
        destruct Hst' as [H1 H2 _]. unfold Cumulative, progressStats.
        cbn [snd progressParsedProducts progressSkippedRows progressTotalRows
                 progressErrors].
        split; [lia|exact H2].
    + repeat split; assumption.
Qed.

End WithRuntime.

End ProgressFacts.

(** * The claims about the record parser *)

Import csvParser Observers.

(** C1, as stated, fails: a header with no data row is fewer than two
    lines, and [parseCSV] returns for it (an empty collection, all
    counters zero) where the claim wants an error. *)
Lemma parseCSV_header_only_returns :
  length (splitLines "ID,TITLE,STATUS") < 2
  /\ fst (parseCSV (RT := Reference.reference_runtime) (S := unit) None
                   "ID,TITLE,STATUS" 0 0
                   {| observer := tt; cachedParseResult := None |})
     = Returned {| products := [];
                   stats := {| totalRows := 0; parsedProducts := 0; skippedRows := 0;
                               errors := 0; parseTime := 0 |} |}
  /\ forall error : string,
       fst (parseCSV (RT := Reference.reference_runtime) (S := unit) None
                     "ID,TITLE,STATUS" 0 0
                     {| observer := tt; cachedParseResult := None |})
       <> Thrown error.
Proof.
  split; [vm_compute; lia|]. split; [reflexivity|].
  intros error H. vm_compute in H. discriminate.
Qed.

(** C1, amended: with an observer that returns, [parseCSV] returns on
    every input.  On an input of fewer than two non-blank lines it
    returns the empty collection with all counters zero, and touches
    neither the observer nor the cache.  On every other input, a header
    line and data rows, it returns the records of the rows that are not
    blank, decode and are retained, in the order of the rows, with
    statistics over all the data rows, and caches them; a row whose
    decoding fails, [parseProduct] having caught the exception of a
    conversion, does not abort the parse: it is counted once in
    [skippedRows], never in [errors], and the rows before and after it
    give the records they give without it. *)
Theorem parseCSV_skips_undecodable_rows {RT : Runtime} {S : Type}
        (onProgress : option (Z -> ProgressStats -> S -> S))
        (csvText : string) (startTime now : Z) (w : World) :
  exists (result : ParseResult) (w' : World),
    parseCSV onProgress csvText startTime now w = (Returned result, w')
    /\ ((length (splitLines csvText) < 2
         /\ result = noData startTime now /\ w' = w)
        \/ (2 <= length (splitLines csvText)
            /\ totalRows (stats result) = length (splitLines csvText) - 1
            /\ cachedParseResult w' = Some result
            /\ exists (headerLine : string) (rows : list string),
                 splitLines csvText = headerLine :: rows
                 /\ products result = keptRecords (parseCSVLine headerLine) rows
                 /\ skippedRows (stats result)
                    = skippedCount (parseCSVLine headerLine) rows
                 /\ errors (stats result) = 0
                 /\ forall (before after : list string) (row : string),
                      rows = before ++ row :: after ->
                      DecodingFails (parseCSVLine headerLine) row ->
                      products result
                      = keptRecords (parseCSVLine headerLine) before
                        ++ keptRecords (parseCSVLine headerLine) after
                      /\ skippedRows (stats result)
                         = skippedCount (parseCSVLine headerLine) before + 1
                           + skippedCount (parseCSVLine headerLine) after)).
Proof.
  destruct (splitLines csvText) as [|headerLine [|row rows]] eqn:Hlines.
  - exists (noData startTime now), w. unfold parseCSV. rewrite Hlines.
    split; [reflexivity|]. left. cbn. auto.
  - exists (noData startTime now), w. unfold parseCSV. rewrite Hlines.
    split; [reflexivity|]. left. cbn. auto.
  - destruct (csvParserFacts.parseCSV_rows onProgress csvText startTime now w
                headerLine row rows Hlines)
      as (result & w' & Heq & Hp & Ht & Hs & He & Hc).
    exists result, w'. split; [exact Heq|]. right.
    split; [cbn; lia|]. split; [rewrite Ht; cbn; lia|]. split; [exact Hc|].
    exists headerLine, (row :: rows). split; [reflexivity|].
    split; [exact Hp|]. split; [exact Hs|]. split; [exact He|].
    intros before after bad Hrows Hbad. rewrite Hp, Hs, Hrows.
    apply csvParserFacts.skipped_row. now apply csvParserFacts.rowRecord_fails.
Qed.

(** A feed of three rows whose second row does not decode, with the
    reference run time: [Number] throws on the amount of the row,
    [parseProduct] returns [null] for it, and [parseCSV] returns the
    records of the rows 1 and 3, with one row skipped and no error. *)
Example parseCSV_goes_on_after_undecodable_row :
  DecodingFails (RT := Reference.reference_runtime)
    ["ID"; "TITLE"; "STATUS"; "PRICE_RANGE_V2"] ("2,Odd,ACTIVE," +++ Samples.objectAmount)
  /\ exists (result : ParseResult) (w' : World (S := unit)),
       parseCSV (RT := Reference.reference_runtime) None Samples.oddCatalogue 0 0 Samples.idle
       = (Returned result, w')
       /\ map id (products result) = ["1"; "3"]
       /\ stats result = {| totalRows := 3; parsedProducts := 2; skippedRows := 1;
                            errors := 0; parseTime := 0 |}.
Proof.
  split.
  - exists TypeError. vm_compute. reflexivity.
  - eexists. eexists. split; [vm_compute; reflexivity|].
    split; vm_compute; reflexivity.
Qed.

(** C3: every record of the collection [parseCSV] returns has status
    [ACTIVE] and a price amount greater than 0. *)
Theorem parseCSV_retention {RT : Runtime} {S : Type}
        (onProgress : option (Z -> ProgressStats -> S -> S))
        (csvText : string) (startTime now : Z) (w : World) :
  exists result : ParseResult,
    fst (parseCSV onProgress csvText startTime now w) = Returned result
    /\ Forall (fun p => status p = "ACTIVE"
                        /\ JSNumber.gt (amount (price p)) JSNumber.zero = true)
              (products result).
Proof.
  destruct (csvParserFacts.parseCSV_cases onProgress csvText startTime now w)
    as [[Hlen Heq] | (Hlen & st & obs & Hst & Heq)]; rewrite Heq.
  - eexists. split; [reflexivity|]. constructor.
  - eexists. split; [reflexivity|]. cbn. exact (counted_retained _ _ Hst).
Qed.

(** C10: in the statistics [parseCSV] returns, [parsedProducts] is the
    length of the collection, [parsedProducts + skippedRows] is
    [totalRows], and [errors] is at most [skippedRows]. *)
Theorem parseCSV_statistics {RT : Runtime} {S : Type}
        (onProgress : option (Z -> ProgressStats -> S -> S))
        (csvText : string) (startTime now : Z) (w : World) :
  exists result : ParseResult,
    fst (parseCSV onProgress csvText startTime now w) = Returned result
    /\ parsedProducts (stats result) = length (products result)
    /\ parsedProducts (stats result) + skippedRows (stats result)
       = totalRows (stats result)
    /\ errors (stats result) <= skippedRows (stats result).
Proof.
  destruct (csvParserFacts.parseCSV_cases onProgress csvText startTime now w)
    as [[Hlen Heq] | (Hlen & st & obs & Hst & Heq)]; rewrite Heq.
  - eexists. split; [reflexivity|]. cbn. auto.
  - eexists. split; [reflexivity|]. cbn.
    destruct Hst as [H1 H2 _]. auto.
Qed.

(** C8, as stated, fails: on a header and 1000 data rows two calls report
    100, the one of row 1000 and the one at completion. *)
Lemma parseCSV_reports_100_twice :
  2 <= length (splitLines (feed "ID" "x" 1000))
  /\ map fst (progressCalls (RT := Reference.reference_runtime) (feed "ID" "x" 1000))
     = [100%Z; 100%Z]
  /\ map rowOf (progressCalls (RT := Reference.reference_runtime) (feed "ID" "x" 1000))
     = [1000; 1000].
Proof.
  split; [|split]; vm_compute; [lia|reflexivity|reflexivity].
Qed.

(** C8, amended: on an input of at least two non-blank lines the observer
    receives one call for every 1000th row and no other row, each with the
    rounded percentage of that row and the statistics counted up to it,
    and then a last call with 100 and the final statistics; the
    percentages never go down.  (The call of a row can report 100 as
    well.) *)
Theorem parseCSV_progress_calls {RT : Runtime} (csvText : string) :
  2 <= length (splitLines csvText) ->
  exists intermediate : list Call,
    map rowOf intermediate
    = filter (fun i => (i mod 1000 =? 0)%nat) (seq 1 (length (splitLines csvText) - 1))
    /\ Forall (fun call => fst call
                           = percentOf (rowOf call) (length (splitLines csvText) - 1))
              intermediate
    /\ Forall Cumulative intermediate
    /\ (forall final : ProgressStats,
          StronglySorted Z.le (map fst (intermediate ++ [(100%Z, final)])))
    /\ forall (S : Type) (callback : Z -> ProgressStats -> S -> S)
              (startTime now : Z) (w : World),
         exists result : ParseResult,
           parseCSV (Some callback) csvText startTime now w
           = (Returned result,
              {| observer := replay callback
                                    (intermediate ++ [(100%Z, finalProgress result)])
                                    (observer w);
                 cachedParseResult := Some result |}).
Proof.
  intro Hlen.
  pose proof (ProgressFacts.splitLines_NonBlank csvText) as Hnb.
  unfold parseCSV.
  destruct (splitLines csvText) as [|headerLine [|row rows]] eqn:Hlines;
    [cbn in Hlen; lia | cbn in Hlen; lia |].
  set (rows' := row :: rows) in *.
  set (total := length (headerLine :: rows') - 1).
  assert (Htotal : total = length rows') by (subst total; cbn; lia).
  set (st0 := {| loopProducts := []; loopSkippedRows := 0; loopErrors := 0 |}).
  set (headers := parseCSVLine headerLine).
  exists (snd (parseRows (Some logger) headers total 1 rows' st0 [])).
  inversion Hnb as [|? ? _ Hrows]; subst.
  destruct (ProgressFacts.parseRows_calls headers total rows' 1 st0 Hrows)
    as (H1 & H2 & H3).
  { split; cbn; [reflexivity | lia | constructor]. }
  { lia. }
  split; [|split; [|split; [|split]]].
  - rewrite H1, Htotal. reflexivity.
  - exact H2.
  - exact H3.
  - intro final. rewrite map_app. cbn [map fst].
    replace (map fst (snd (parseRows (Some logger) headers total 1 rows' st0 [])))
      with (map (fun j => percentOf j total)
                (filter reportedRow (seq 1 (length rows')))).
    + apply ProgressFacts.percentages_sorted; subst total; cbn; lia.
    + rewrite <- H1, map_map. apply map_ext_Forall.
      revert H2. apply Forall_impl. intros call Hc. now rewrite Hc.
  - intros S callback startTime now w.
    rewrite ProgressFacts.parseRows_replay.
    set (st := fst (parseRows (Some logger) headers total 1 rows' st0 [])).
    exists {| products := loopProducts st;
              stats := {| totalRows := total;
                          parsedProducts := length (loopProducts st);
                          skippedRows := loopSkippedRows st;
                          errors := loopErrors st;
                          parseTime := (now - startTime)%Z |} |}.
    cbn [report]. unfold replay. rewrite fold_left_app. reflexivity.
Qed.

(** The hypothesis of [parseCSV_progress_calls] at a header and three
    rows: no row is reported, one call is made. *)
Lemma parseCSV_progress_calls_witness :
  2 <= length (splitLines (feed "ID" "x" 3))
  /\ exists intermediate : list Call,
       map rowOf intermediate
       = filter (fun i => (i mod 1000 =? 0)%nat)
                (seq 1 (length (splitLines (feed "ID" "x" 3)) - 1)).
Proof.
  assert (H : 2 <= length (splitLines (feed "ID" "x" 3))) by (vm_compute; lia).
  split; [exact H|].
  destruct (parseCSV_progress_calls (RT := Reference.reference_runtime) _ H)
    as (intermediate & H1 & _).
  exists intermediate. exact H1.
Defined.

(** The percentage is rounded from the double the code forms: row 23000
    of 40000 is reported as 57, the product of the double nearest to
    0.575 and 100 being the double below 57.5, where the quotient of the
    integers, taken exactly, rounds to 58. *)
Example percentOf_rounds_the_double :
  percentOf (23 * 1000) (40 * 1000) = 57%Z
  /\ JSNumber.round (inject_Z 23000 / inject_Z 40000 * inject_Z 100)%Q = 58%Z
  /\ percentOf 1000 3000 = 33%Z
  /\ percentOf 3000 3000 = 100%Z.
Proof. repeat split; vm_compute; reflexivity. Qed.

(** ** Strings *)

Module JSStringFacts.

Lemma prefix_spec (t s : string) :
  String.prefix t s = true <-> exists after : string, s = t +++ after.
Proof.
  revert t. induction s as [|d s IH]; intros [|c t]; cbn.
  - split; [intros _; now exists EmptyString | reflexivity].
  - split; [discriminate | intros [after H]; discriminate].
  - split; [intros _; now exists (String d s) | reflexivity].
  - destruct (ascii_dec c d) as [->|Hcd].
    + rewrite IH. split; intros [after H]; exists after.
      * now rewrite H.
      * now inversion H.
    + split; [discriminate|]. intros [after H]. injection H as H1 H2. congruence.
Qed.

Lemma includes_spec (s t : string) : includes s t = true <-> occursIn t s.
Proof.
  unfold occursIn. induction s as [|c s IH]; cbn [includes].
  - rewrite orb_false_r, prefix_spec. split.
    + intros [after H]. now exists EmptyString, after.
    + intros (before & after & H). exists after.
      destruct before; [exact H|discriminate].
  - rewrite orb_true_iff, prefix_spec, IH. split.
    + intros [[after H] | (before & after & H)].
      * now exists EmptyString, after.
      * exists (String c before), after. cbn. now rewrite H.
    + intros (before & after & H). destruct before as [|d before].
      * left. now exists after.
      * right. cbn in H. inversion H. now exists before, after.
Qed.

Lemma trimEnd_empty (s : string) : isEmpty (trimEnd s) = isBlank s.
Proof.
  induction s as [|c s IH]; [reflexivity|]. cbn.
  destruct (isWhitespace c); cbn; [|reflexivity].
  rewrite <- IH. now destruct (isEmpty (trimEnd s)).
Qed.

Lemma trimStart_blank (s : string) : isBlank (trimStart s) = isBlank s.
Proof.
  induction s as [|c s IH]; [reflexivity|]. cbn.
  destruct (isWhitespace c) eqn:E; cbn; [exact IH | now rewrite E].
Qed.

Lemma trim_empty (s : string) : isEmpty (trim s) = isBlank s.
Proof. unfold trim. now rewrite trimEnd_empty, trimStart_blank. Qed.

Lemma isWhitespace_lowerChar (c : ascii) : isWhitespace (lowerChar c) = isWhitespace c.
Proof.
  destruct c as [[] [] [] [] [] [] [] []]; reflexivity.
Qed.

Lemma blank_toLowerCase (s : string) : isBlank (toLowerCase s) = isBlank s.
Proof.
  induction s as [|c s IH]; [reflexivity|]. cbn.
  now rewrite isWhitespace_lowerChar, IH.
Qed.

Lemma isEmpty_true (s : string) : isEmpty s = true <-> s = EmptyString.
Proof. destruct s; cbn; split; congruence. Qed.

Lemma orElse_empty (s : string) : orElse s EmptyString = s.
Proof. now destruct s. Qed.

End JSStringFacts.

(** ** The field scorer *)

Module ScorerFacts.
Import searchEngine Ladder.

Lemma isSubsequence_empty_haystack (needle : string) :
  isSubsequence needle EmptyString = false.
Proof. now destruct needle. Qed.

Lemma isSubsequence_empty_needle (haystack : string) :
  isSubsequence EmptyString haystack = false.
Proof. reflexivity. Qed.

(** The two guards of the fuzzy rule add nothing to the subsequence
    test: it fails on an empty needle and on an empty haystack. *)
Lemma fuzzy_guard (needle haystack : string) :
  negb (isEmpty haystack) && negb (isEmpty needle) && isSubsequence needle haystack
  = isSubsequence needle haystack.
Proof.
  destruct haystack; [now rewrite isSubsequence_empty_haystack|].
  destruct needle; reflexivity.
Qed.

(** One turn of the loop adds the value of the token's rung. *)
Lemma scoreToken_rung (field token : string) (weight score : Q) :
  (scoreToken (normalize field)
              (if (String.length (normalize field) <=? 120)%nat
               then normalizeForFuzzy field else EmptyString)
              weight score token
   == score + factor (rungOf field token) * weight)%Q.
Proof.
  unfold scoreToken, rungOf.
  destruct (normalize field =? token)%string; [reflexivity|].
  destruct (startsWith (normalize field) token); [reflexivity|].
  destruct (includes (normalize field) (space +++ token +++ space)
            || startsWith (normalize field) (token +++ space)
            || endsWith (normalize field) (space +++ token)); [reflexivity|].
  destruct (includes (normalize field) token); [reflexivity|].
  rewrite fuzzy_guard.
  destruct (3 <=? String.length token)%nat, (String.length (normalize field) <=? 120)%nat;
    cbn [andb];
    rewrite ?isSubsequence_empty_haystack, ?isSubsequence_empty_needle;
    try (cbn [factor]; ring).
  destruct (isSubsequence (keepLowerAlnum token) (normalizeForFuzzy field));
    cbn [factor]; ring.
Qed.

Lemma fold_scoreToken (field : string) (weight : Q) (tokens : list string) :
  forall score : Q,
    (fold_left (scoreToken (normalize field)
                           (if (String.length (normalize field) <=? 120)%nat
                            then normalizeForFuzzy field else EmptyString)
                           weight)
               tokens score
     == score + ladderScore tokens field weight)%Q.
Proof.
  induction tokens as [|token tokens IH]; intro score; cbn [fold_left ladderScore].
  - ring.
  - rewrite IH, scoreToken_rung. ring.
Qed.

Lemma scoreField_ladder (tokens : list string) (field : string) (weight : Q) :
  field <> EmptyString ->
  (scoreField tokens field weight == ladderScore tokens field weight)%Q.
Proof.
  intro Hfield. unfold scoreField.
  destruct field as [|c field]; [contradiction|]. cbn [isEmpty orb].
  destruct tokens as [|token tokens]; [reflexivity|].
  cbn [length Nat.eqb]. rewrite fold_scoreToken. ring.
Qed.

Lemma factor_nonneg (r : Rung) : (0 <= factor r)%Q.
Proof. destruct r; discriminate. Qed.

Lemma ladderScore_nonneg (tokens : list string) (field : string) (weight : Q) :
  (0 <= weight)%Q -> (0 <= ladderScore tokens field weight)%Q.
Proof.
  intro Hw. induction tokens as [|token tokens IH]; cbn [ladderScore].
  - apply Qle_refl.
  - pose proof (Qmult_le_0_compat _ _ (factor_nonneg (rungOf field token)) Hw). lra.
Qed.

Lemma scoreField_empty_field (tokens : list string) (weight : Q) :
  scoreField tokens EmptyString weight = 0%Q.
Proof. reflexivity. Qed.

Lemma scoreField_nonneg (tokens : list string) (field : string) (weight : Q) :
  (0 <= weight)%Q -> (0 <= scoreField tokens field weight)%Q.
Proof.
  intro Hw. destruct field as [|c field].
  - rewrite scoreField_empty_field. apply Qle_refl.
  - rewrite scoreField_ladder by discriminate. now apply ladderScore_nonneg.
Qed.


(** A token that occurs in the normalized field is on one of the first
    four rungs. *)
Lemma rungOf_substring (field token : string) :
  includes (normalize field) token = true -> rank (rungOf field token) <= 3.
Proof.
  intro H. unfold rungOf.
  destruct (normalize field =? token)%string; [cbn; lia|].
  destruct (startsWith (normalize field) token); [cbn; lia|].
  destruct (includes (normalize field) (space +++ token +++ space)
            || startsWith (normalize field) (token +++ space)
            || endsWith (normalize field) (space +++ token)); [cbn; lia|].
  rewrite H. cbn. lia.
Qed.

Lemma factor_first_rungs (r : Rung) : rank r <= 3 -> (2 <= factor r)%Q.
Proof.
  destruct r; cbn; intro H; try lia; discriminate.
Qed.

Lemma ladderScore_member (tokens : list string) (field : string) (weight : Q)
      (token : string) :
  (0 <= weight)%Q -> In token tokens ->
  (factor (rungOf field token) * weight <= ladderScore tokens field weight)%Q.
Proof.
  intros Hw Hin. induction tokens as [|t tokens IH]; [contradiction|].
  cbn [ladderScore]. destruct Hin as [->|Hin].
  - pose proof (ladderScore_nonneg tokens field weight Hw). lra.
  - specialize (IH Hin).
    pose proof (Qmult_le_0_compat _ _ (factor_nonneg (rungOf field t)) Hw). lra.
Qed.

(** With tokens that are not empty, as [tokenize] makes them, a field that
    [getMatches] reports has a positive score: at least twice the
    weight. *)
Lemma matched_field_scores (tokens : list string) (field : string) (weight : Q)
      (token : string) :
  (0 <= weight)%Q -> In token tokens -> token <> EmptyString ->
  includes (normalize field) token = true ->
  (2 * weight <= scoreField tokens field weight)%Q.
Proof.
  intros Hw Hin Htoken Hinc.
  destruct field as [|c field].
  - destruct token; [contradiction|discriminate].
  - rewrite scoreField_ladder by discriminate.
    pose proof (ladderScore_member tokens (String c field) weight token Hw Hin) as Hm.
    pose proof (factor_first_rungs _ (rungOf_substring _ _ Hinc)) as Hf.
    assert (2 * weight <= factor (rungOf (String c field) token) * weight)%Q
      by (apply Qmult_le_compat_r; assumption).
    lra.
Qed.




End ScorerFacts.

(** * The claims about the search engine *)

Import searchEngine Ladder Samples.

(** The arguments [scoreField] is given by [calculateScore], its one
    caller: the tokens of [tokenize], none of which is empty, and a
    weight of [FIELD_WEIGHTS], all of which are positive. *)
Lemma scoreField_arguments (query : string) :
  Forall (fun t => t <> EmptyString) (tokenize query)
  /\ Forall (fun weight => 0 < weight)%Q
            [FIELD_WEIGHTS.title; FIELD_WEIGHTS.vendor; FIELD_WEIGHTS.description;
             FIELD_WEIGHTS.tags].
Proof.
  split.
  - unfold tokenize. apply Forall_forall. intros t Ht.
    apply filter_In in Ht. destruct Ht as [_ Ht]. intros ->. discriminate Ht.
  - repeat constructor.
Qed.

(** Off these arguments the guards of [scoreField] show: a negative
    weight gives a negative score, and on the empty field the score is 0
    where the ladder gives the empty token an exact match. *)
Remark scoreField_guards :
  (scoreField ["a"] "a" (-1) < 0)%Q
  /\ (scoreField [""] "" 1 == 0)%Q /\ (ladderScore [""] "" 1 == 10)%Q.
Proof.
  split; [|split]; vm_compute; reflexivity.
Qed.



(** C6, as stated, fails: the price interval [0, Infinity) removes a
    record whose price amount is negative. *)
Lemma applyFilters_drops_negative_price :
  applyFilters [priced "refund" (Finite (-1))] (Some openFilters) = []
  /\ applyFilters [priced "refund" (Finite (-1))] (Some openFilters)
     <> [priced "refund" (Finite (-1))].
Proof.
  split; [reflexivity | discriminate].
Qed.

Lemma filter_all_true {A : Type} (f : A -> bool) (l : list A) :
  Forall (fun x => f x = true) l -> filter f l = l.
Proof.
  induction 1 as [|x l Hx _ IH]; cbn; [reflexivity|]. now rewrite Hx, IH.
Qed.

Lemma applyFilters_open (products : list Product) :
  Forall (fun p => JSNumber.ge (amount (price p)) JSNumber.zero = true) products ->
  applyFilters products (Some openFilters) = products.
Proof.
  intro H. unfold applyFilters, openFilters.
  cbn [vendors priceRange inStock length Nat.ltb Nat.leb min max].
  apply filter_all_true. revert H. apply Forall_impl. intros p Hp.
  rewrite Hp. cbn [andb].
  unfold JSNumber.ge in Hp. destruct (amount (price p)); try discriminate; reflexivity.
Qed.

(** The open filters change no parsed collection. *)
Lemma applyFilters_open_parsed {RT : Runtime} {S : Type}
      (onProgress : option (Z -> ProgressStats -> S -> S))
      (csvText : string) (startTime now : Z) (w : World) :
  exists result : ParseResult,
    fst (parseCSV onProgress csvText startTime now w) = Returned result
    /\ applyFilters (products result) (Some openFilters) = products result.
Proof.
  destruct (csvParserFacts.parseCSV_cases onProgress csvText startTime now w)
    as [[Hlen Heq] | (Hlen & st & obs & Hst & Heq)]; rewrite Heq.
  - eexists. split; reflexivity.
  - eexists. split; [reflexivity|]. cbn [fst products].
    apply applyFilters_open.
    generalize (counted_retained _ _ Hst). apply Forall_impl.
    intros p [_ Hp]. now apply JSNumberFacts.lt_le.
Qed.

(** C6, amended: [applyFilters] is the identity, order included, when the
    filters are absent, and when they are the empty vendor set, the price
    interval [0, Infinity) and [inStock] false on a collection whose price
    amounts are all at least 0 (as in every parsed collection). *)
Theorem applyFilters_identity (products : list Product) :
  applyFilters products None = products
  /\ (Forall (fun p => JSNumber.ge (amount (price p)) JSNumber.zero = true) products ->
      applyFilters products (Some openFilters) = products).
Proof.
  split.
  - unfold applyFilters. reflexivity.
  - intro Hprices. now apply applyFilters_open.
Qed.

(** The hypothesis of [applyFilters_identity] on the two records of the
    test suite. *)
Lemma applyFilters_identity_witness :
  Forall (fun p => JSNumber.ge (amount (price p)) JSNumber.zero = true) mockProducts
  /\ applyFilters mockProducts (Some openFilters) = mockProducts.
Proof.
  assert (H : Forall (fun p => JSNumber.ge (amount (price p)) JSNumber.zero = true)
                     mockProducts)
    by (repeat constructor).
  split; [exact H|]. exact (proj2 (applyFilters_identity mockProducts) H).
Defined.

Lemma some_includes (s : string) (tokens : list string) :
  JSArray.some (fun t => includes s t) tokens = true
  <-> exists t : string, In t tokens /\ occursIn t s.
Proof.
  unfold JSArray.some. rewrite existsb_exists.
  split; intros (t & Hin & H); exists t; split; auto; now apply JSStringFacts.includes_spec.
Qed.

Lemma some_tag_includes (tagList tokens : list string) :
  JSArray.some (fun t => JSArray.some (fun tag => includes (normalize tag) t) tagList) tokens
  = true
  <-> exists t tag : string, In t tokens /\ In tag tagList /\ occursIn t (normalize tag).
Proof.
  unfold JSArray.some. rewrite existsb_exists. split.
  - intros (t & Hin & H). apply existsb_exists in H. destruct H as (tag & Htag & H).
    exists t, tag. repeat split; auto. now apply JSStringFacts.includes_spec.
  - intros (t & tag & Hin & Htag & H). exists t. split; [assumption|].
    apply existsb_exists. exists tag. split; [assumption|].
    now apply JSStringFacts.includes_spec.
Qed.

Lemma descriptionText_fallback (p : Product) :
  descriptionText p = if isEmpty (description p) then bodyHtml p else description p.
Proof.
  unfold descriptionText. rewrite JSStringFacts.orElse_empty. reflexivity.
Qed.

(** The names [getMatches] returns. *)
Lemma matched_names (p : Product) (tokens : list string) :
  forall name : string,
    In name (getMatches p tokens) <->
    (name = "title"
     /\ exists t, In t tokens /\ occursIn t (normalize (title p)))
    \/ (name = "vendor"
        /\ exists t, In t tokens /\ occursIn t (normalize (vendor p)))
    \/ (name = "description"
        /\ exists t, In t tokens
                     /\ occursIn t (normalize
                                      (stripHtml (if isEmpty (description p)
                                                  then bodyHtml p
                                                  else description p))))
    \/ (name = "tags"
        /\ exists t tag, In t tokens /\ In tag (tags p) /\ occursIn t (normalize tag)).
Proof.
  pose proof (some_includes (normalize (title p)) tokens) as Ht.
  pose proof (some_includes (normalize (vendor p)) tokens) as Hv.
  pose proof (some_includes (normalize (stripHtml (descriptionText p))) tokens) as Hd.
  pose proof (some_tag_includes (tags p) tokens) as Hg.
  rewrite descriptionText_fallback in Hd.
  unfold getMatches. rewrite descriptionText_fallback.
  destruct (JSArray.some (fun t => includes (normalize (title p)) t) tokens);
    destruct (JSArray.some (fun t => includes (normalize (vendor p)) t) tokens);
    destruct (JSArray.some _ tokens);
    destruct (JSArray.some _ tokens);
    intro name; cbn [app In]; intuition (try congruence; try discriminate).
Qed.

(** They come in the order title, vendor, description, tags, each
    once. *)
Lemma matched_in_order (p : Product) (tokens : list string) :
  getMatches p tokens
  = filter (fun name => existsb (String.eqb name) (getMatches p tokens)) fieldNames.
Proof.
  unfold getMatches.
  destruct (JSArray.some (fun t => includes (normalize (title p)) t) tokens);
    destruct (JSArray.some (fun t => includes (normalize (vendor p)) t) tokens);
    destruct (JSArray.some _ tokens);
    destruct (JSArray.some _ tokens);
    reflexivity.
Qed.

(** ** The search orchestration *)

Module SearchFacts.
Import Ranker.

Lemma tokenize_blank (q : string) : isBlank q = true -> tokenize q = [].
Proof.
  intro Hq. unfold tokenize, normalize.
  destruct (isEmpty q); [reflexivity|].
  assert (H : trim (toLowerCase q) = EmptyString).
  { apply JSStringFacts.isEmpty_true.
    now rewrite JSStringFacts.trim_empty, JSStringFacts.blank_toLowerCase. }
  rewrite H. reflexivity.
Qed.

(** A query with a token is not taken for "no query". *)
Lemma query_scoped (q : string) :
  tokenize q <> [] -> isEmpty q || (trim q =? "")%string = false.
Proof.
  intro Hq. destruct (isEmpty q || (trim q =? "")%string) eqn:E; [|reflexivity].
  exfalso. apply Hq, tokenize_blank.
  apply orb_true_iff in E. destruct E as [E|E].
  - apply JSStringFacts.isEmpty_true in E. now subst.
  - apply String.eqb_eq in E. rewrite <- JSStringFacts.trim_empty, E. reflexivity.
Qed.

(** The scoring loop keeps, in their order, the records that qualify. *)
Lemma fold_scoreInto (tokens : list string) (l : list Product) :
  forall acc : list SearchResult,
    fold_left (scoreInto tokens) l acc
    = acc ++ map (scored tokens) (filter (qualifies tokens) l).
Proof.
  induction l as [|p l IH]; intro acc; cbn [fold_left filter].
  - now rewrite app_nil_r.
  - rewrite IH. unfold scoreInto.
    change (Qle_bool MINIMUM_SCORE (calculateScore p tokens)) with (qualifies tokens p).
    destruct (qualifies tokens p); [|reflexivity].
    cbn [map]. rewrite <- app_assoc. reflexivity.
Qed.

Lemma truncate_incl {A : Type} (limit : option Z) (l : list A) (x : A) :
  In x (truncate limit l) -> In x l.
Proof.
  destruct limit; [apply JSArrayFacts.slice0_incl | auto].
Qed.

Section WithRuntime.
Context {RT : Runtime}.

Lemma sortResults_perm (results : list SearchResult) (sortBy : option string) :
  Permutation (sortResults results sortBy) results.
Proof. apply JSArrayFacts.sort_perm. Qed.

Lemma searchProducts_scoped (products : list Product) (options : SearchOptions) :
  tokenize (query options) <> [] ->
  searchProducts products options = truncate (limit options) (ranked products options).
Proof.
  intro Hq. unfold searchProducts, ranked.
  rewrite (query_scoped _ Hq).
  destruct (tokenize (query options)) as [|t ts] eqn:E; [contradiction|].
  cbn [length Nat.eqb]. rewrite fold_scoreInto. cbn [app].
  destruct (sortByGiven (sortBy options)); reflexivity.
Qed.

Lemma ranked_perm (products : list Product) (options : SearchOptions) :
  Permutation (ranked products options)
              (map (scored (tokenize (query options)))
                   (filter (qualifies (tokenize (query options)))
                           (applyFilters products (filters options)))).
Proof.
  unfold ranked. destruct (sortByGiven (sortBy options)).
  - eapply perm_trans; [apply sortResults_perm | apply JSArrayFacts.sort_perm].
  - apply JSArrayFacts.sort_perm.
Qed.

(** Without a query and without a sort name the records come in the
    order of their vendors. *)
Lemma searchProducts_no_query (products : list Product) (options : SearchOptions) :
  isBlank (query options) = true ->
  sortByGiven (sortBy options) = None ->
  searchProducts products options
  = truncate (limit options)
             (sortResults (map unscored (applyFilters products (filters options)))
                          (Some "vendor-asc")).
Proof.
  intros Hq Hs. unfold searchProducts. rewrite Hs.
  replace (isEmpty (query options) || (trim (query options) =? "")%string) with true;
    [reflexivity|].
  symmetry. apply orb_true_iff. right. apply String.eqb_eq.
  apply JSStringFacts.isEmpty_true. now rewrite JSStringFacts.trim_empty.
Qed.

End WithRuntime.

End SearchFacts.

(** ** The reference collation *)

Lemma reference_collation : CollationLaws Reference.reference_runtime.
Proof.
  split; cbn [localeCompare Reference.reference_runtime].
  - intros a b. apply String_as_OT.cmp_antisym.
  - intros a b c Hab Hbc.
    destruct (String.compare a b) eqn:Eab; [| |congruence].
    + apply String_as_OT.cmp_eq in Eab. now subst.
    + destruct (String.compare b c) eqn:Ebc; [| |congruence].
      * apply String_as_OT.cmp_eq in Ebc. subst. rewrite Eab. discriminate.
      * apply String_as_OT.cmp_lt in Eab, Ebc.
        pose proof (String_as_OT.lt_trans _ _ _ Eab Ebc) as Hac.
        apply String_as_OT.cmp_lt in Hac. unfold String_as_OT.cmp in Hac.
        rewrite Hac. discriminate.
Qed.

(** * The claims about sorting and searching *)

Import Ranker.

(** C7, as stated, fails: a creation text that is not a date compares
    with nothing, and [recent-desc] then leaves the record of 2020 before
    the record of 2021. *)
Lemma sortResults_unparsable_date :
  sortResults (RT := Reference.reference_runtime)
              [unscored (dated "A" "2020-01-01"); unscored (dated "X" "");
               unscored (dated "B" "2021-01-01")]
              (Some "recent-desc")
  = [unscored (dated "A" "2020-01-01"); unscored (dated "X" "");
     unscored (dated "B" "2021-01-01")]
  /\ JSNumber.lt (createdTime (RT := Reference.reference_runtime)
                              (unscored (dated "A" "2020-01-01")))
                 (createdTime (RT := Reference.reference_runtime)
                              (unscored (dated "B" "2021-01-01")))
     = true
  /\ ~ StronglySorted (inOrder (RT := Reference.reference_runtime) RecentDesc)
       (sortResults (RT := Reference.reference_runtime)
                    [unscored (dated "A" "2020-01-01"); unscored (dated "X" "");
                     unscored (dated "B" "2021-01-01")]
                    (Some "recent-desc")).
Proof.
  split; [reflexivity|]. split; [reflexivity|].
  intro H. inversion H as [|? ? _ Hall]; subst.
  inversion Hall as [|? ? _ Hall']; subst.
  inversion Hall' as [|? ? Hab _]; subst.
  vm_compute in Hab. discriminate.
Qed.

(** Whatever the order a sort leaves these three records in, it is not
    the order of their creation times: the record without a date is in
    order with no other. *)
Remark unparsable_date_never_ordered (l : list SearchResult) :
  Permutation l [unscored (dated "A" "2020-01-01"); unscored (dated "X" "");
                 unscored (dated "B" "2021-01-01")] ->
  ~ StronglySorted (inOrder (RT := Reference.reference_runtime) RecentDesc) l.
Proof.
  intros Hperm Hsorted.
  set (x := unscored (dated "X" "")) in *.
  assert (Hx : createdTime (RT := Reference.reference_runtime) x = NaN) by reflexivity.
  assert (Hnot : forall y : SearchResult,
             ~ inOrder (RT := Reference.reference_runtime) RecentDesc x y
             /\ ~ inOrder (RT := Reference.reference_runtime) RecentDesc y x).
  { intro y. cbn [inOrder]. unfold JSNumber.ge. rewrite Hx.
    split; destruct (createdTime y); discriminate. }
  assert (Hin : In x l).
  { apply (Permutation_in _ (Permutation_sym Hperm)). right. now left. }
  pose proof (Permutation_length Hperm) as Hlen.
  destruct l as [|a [|b [|c [|d l]]]]; try discriminate Hlen.
  inversion Hsorted as [|? ? Hbc Ha]; subst.
  inversion Ha as [|? ? Hab _]; subst.
  inversion Hbc as [|? ? _ Hb]; subst.
  inversion Hb as [|? ? Hbc' _]; subst.
  destruct Hin as [<-|[<-|[<-|[]]]].
  - exact (proj1 (Hnot b) Hab).
  - exact (proj2 (Hnot a) Hab).
  - exact (proj2 (Hnot b) Hbc').
Qed.

(** C7, amended: [sortResults] returns a permutation of its input,
    under each of the six names and under any other name, which sorts as
    [recent-desc].  Whenever the keys compare, that is, no price amount
    is [NaN] under the price orders and every creation text is a date
    under [recent-desc], records of equal keys keep their input order
    and the output is ordered by the key of the name: price amounts
    non-decreasing or non-increasing, ratings non-increasing with an
    absent rating as 0, vendor names in the order of the collation or
    its reverse, creation times non-increasing.  With a key that does
    not compare the comparison function is not consistent, and the
    language leaves the order of the output open. *)
Theorem sortResults_ordered_stable {RT : Runtime} {Laws : CollationLaws RT}
        (results : list SearchResult) (sortBy : string) :
  Permutation (sortResults results (Some sortBy)) results
  /\ (Forall (keyComparable (sortOptionOf sortBy)) results ->
      forall r : SearchResult,
        filter (sameKey (sortOptionOf sortBy) r) (sortResults results (Some sortBy))
        = filter (sameKey (sortOptionOf sortBy) r) results)
  /\ (Forall (keyComparable (sortOptionOf sortBy)) results ->
      StronglySorted (inOrder (sortOptionOf sortBy)) (sortResults results (Some sortBy)))
  /\ (isSortName sortBy = false ->
      sortOptionOf sortBy = RecentDesc
      /\ sortResults results (Some sortBy) = sortResults results (Some "recent-desc"))
  /\ sortResults results None = sortResults results (Some "recent-desc").
Proof.
  split; [|split; [|split; [|split]]].
  - apply JSArrayFacts.sort_perm.
  - intros _ r. apply SortEngineFacts.sortResults_stable.
  - apply SortEngineFacts.sortResults_sorted.
  - intro H. split; [now apply SortEngineFacts.sortOptionOf_unknown|].
    unfold sortResults. rewrite !SortEngineFacts.comparatorOf_sortOptionOf.
    now rewrite (SortEngineFacts.sortOptionOf_unknown _ H).
  - reflexivity.
Qed.

(** The hypotheses of [sortResults_ordered_stable] with the reference
    collation, on the two records of the test suite sorted by price. *)
Lemma sortResults_ordered_stable_witness :
  Forall (keyComparable (RT := Reference.reference_runtime) (sortOptionOf "price-asc"))
         (map unscored mockProducts)
  /\ StronglySorted (inOrder (RT := Reference.reference_runtime) PriceAsc)
       (sortResults (RT := Reference.reference_runtime)
                    (map unscored mockProducts) (Some "price-asc"))
  /\ sortResults (RT := Reference.reference_runtime)
                 (map unscored mockProducts) (Some "price-asc")
     = [unscored supplement; unscored wheyProtein].
Proof.
  assert (H : Forall (keyComparable (RT := Reference.reference_runtime)
                                    (sortOptionOf "price-asc"))
                     (map unscored mockProducts))
    by (repeat constructor; discriminate).
  split; [exact H|]. split; [|reflexivity].
  destruct (sortResults_ordered_stable (RT := Reference.reference_runtime)
              (Laws := reference_collation) (map unscored mockProducts) "price-asc")
    as (_ & _ & Hsorted & _).
  exact (Hsorted H).
Defined.

(** C5, as stated, fails: with [limit] 1 the second record of the test
    suite is filtered in and scores 8 for "Transparent Labs", and is not
    returned. *)
Lemma searchProducts_limit_drops_match :
  tokenize "Transparent Labs" <> []
  /\ In supplement (applyFilters mockProducts None)
  /\ (MINIMUM_SCORE <= calculateScore supplement (tokenize "Transparent Labs"))%Q
  /\ ~ In supplement
       (map product
            (searchProducts (RT := Reference.reference_runtime) mockProducts
                            {| query := "Transparent Labs"; filters := None;
                               sortBy := None; limit := Some 1%Z |})).
Proof.
  split; [discriminate|]. split; [right; left; reflexivity|].
  split; [vm_compute; discriminate|].
  vm_compute. intros [H|[]]. discriminate H.
Qed.

(** C5, amended: a query-scoped search returns the first [limit] entries
    (all of them without a limit) of a list that holds exactly the
    filtered records whose aggregate score is at least 0.1.  So every
    returned result is a filtered record with its score, at least 0.1, and
    without a limit a filtered record is returned if and only if its score
    is at least 0.1. *)
Theorem searchProducts_threshold {RT : Runtime}
        (products : list Product) (options : SearchOptions) :
  tokenize (query options) <> [] ->
  (exists full : list SearchResult,
      searchProducts products options = truncate (limit options) full
      /\ Permutation full
                     (map (scored (tokenize (query options)))
                          (filter (qualifies (tokenize (query options)))
                                  (applyFilters products (filters options)))))
  /\ (forall r : SearchResult,
        In r (searchProducts products options) ->
        In (product r) (applyFilters products (filters options))
        /\ relevanceScore r = calculateScore (product r) (tokenize (query options))
        /\ (MINIMUM_SCORE <= relevanceScore r)%Q)
  /\ (limit options = None ->
      forall p : Product,
        In p (map product (searchProducts products options))
        <-> In p (applyFilters products (filters options))
            /\ (MINIMUM_SCORE <= calculateScore p (tokenize (query options)))%Q).
Proof.
  intro Hq.
  pose proof (SearchFacts.searchProducts_scoped products options Hq) as Heq.
  pose proof (SearchFacts.ranked_perm products options) as Hperm.
  assert (Hin : forall r, In r (ranked products options) <->
                          exists p, r = scored (tokenize (query options)) p
                                    /\ In p (applyFilters products (filters options))
                                    /\ qualifies (tokenize (query options)) p = true).
  { intro r. split.
    - intro H. apply (Permutation_in _ Hperm) in H.
      apply in_map_iff in H. destruct H as (p & Hp & H).
      apply filter_In in H. exists p. now split.
    - intros (p & -> & H1 & H2).
      apply (Permutation_in _ (Permutation_sym Hperm)).
      apply in_map. apply filter_In. now split. }
  split; [|split].
  - exists (ranked products options). now split.
  - intros r Hr. rewrite Heq in Hr. apply SearchFacts.truncate_incl in Hr.
    apply Hin in Hr. destruct Hr as (p & -> & H1 & H2). cbn.
    repeat split; [assumption|]. now apply Qle_bool_iff.
  - intros Hlimit p. rewrite Heq, Hlimit. cbn [truncate]. rewrite in_map_iff. split.
    + intros (r & <- & Hr). apply Hin in Hr. destruct Hr as (p & -> & H1 & H2). cbn.
      split; [assumption|]. now apply Qle_bool_iff.
    + intros [H1 H2]. exists (scored (tokenize (query options)) p). split; [reflexivity|].
      apply Hin. exists p. repeat split; [assumption|]. now apply Qle_bool_iff.
Qed.

(** The hypothesis of [searchProducts_threshold] on the test suite's query
    "formula": only the second record is returned, with the score 4. *)
Lemma searchProducts_threshold_witness :
  tokenize (query (queryOnly "formula")) <> []
  /\ forall r : SearchResult,
       In r (searchProducts (RT := Reference.reference_runtime) mockProducts
                            (queryOnly "formula")) ->
       (MINIMUM_SCORE <= relevanceScore r)%Q.
Proof.
  assert (H : tokenize (query (queryOnly "formula")) <> []) by discriminate.
  split; [exact H|].
  intros r Hr.
  destruct (searchProducts_threshold (RT := Reference.reference_runtime)
              mockProducts (queryOnly "formula") H) as (_ & Hall & _).
  exact (proj2 (proj2 (Hall r Hr))).
Defined.

(** C2, as stated, fails: with no query, no filters and no sort name, the
    record of the vendor Alpha, created in 2020, comes before the record
    of the vendor Zeta, created in 2024, where [recent-desc] puts Zeta
    first. *)
Lemma searchProducts_default_order :
  searchProducts (RT := Reference.reference_runtime)
                 [dated "Zeta" "2024-01-01"; dated "Alpha" "2020-01-01"] (queryOnly "")
  = [unscored (dated "Alpha" "2020-01-01"); unscored (dated "Zeta" "2024-01-01")]
  /\ searchProducts (RT := Reference.reference_runtime)
                    [dated "Zeta" "2024-01-01"; dated "Alpha" "2020-01-01"]
                    (queryOnly "   ")
     = [unscored (dated "Alpha" "2020-01-01"); unscored (dated "Zeta" "2024-01-01")]
  /\ sortResults (RT := Reference.reference_runtime)
                 (map unscored [dated "Zeta" "2024-01-01"; dated "Alpha" "2020-01-01"])
                 (Some "recent-desc")
     = [unscored (dated "Zeta" "2024-01-01"); unscored (dated "Alpha" "2020-01-01")]
  /\ JSNumber.lt (createdTime (RT := Reference.reference_runtime)
                              (unscored (dated "Alpha" "2020-01-01")))
                 (createdTime (RT := Reference.reference_runtime)
                              (unscored (dated "Zeta" "2024-01-01")))
     = true.
Proof.
  repeat split; reflexivity.
Qed.

(** C2, amended: a search whose query is empty or white space only and
    whose options name no sort (absent, or the empty string) returns the
    filtered records, each with the score 0 and no matched field, ordered
    by vendor name ascending ([vendor-asc]), records of the same vendor in
    their input order, and cut to [limit] when one is given. *)
Theorem searchProducts_no_query_order {RT : Runtime} {Laws : CollationLaws RT}
        (products : list Product) (options : SearchOptions) :
  isBlank (query options) = true ->
  sortByGiven (sortBy options) = None ->
  exists sorted : list SearchResult,
    searchProducts products options = truncate (limit options) sorted
    /\ Permutation sorted (map unscored (applyFilters products (filters options)))
    /\ StronglySorted (inOrder VendorAsc) sorted
    /\ (forall r : SearchResult,
          filter (sameKey VendorAsc r) sorted
          = filter (sameKey VendorAsc r)
                   (map unscored (applyFilters products (filters options)))).
Proof.
  intros Hq Hs.
  exists (sortResults (map unscored (applyFilters products (filters options)))
                      (Some "vendor-asc")).
  split; [|split; [|split]].
  - now apply SearchFacts.searchProducts_no_query.
  - apply SearchFacts.sortResults_perm.
  - apply (SortEngineFacts.sortResults_sorted _ "vendor-asc").
    apply Forall_forall. intros r _. exact I.
  - intro r. apply (SortEngineFacts.sortResults_stable _ "vendor-asc").
Qed.

(** The hypotheses of [searchProducts_no_query_order] with the reference
    collation, on a query of three spaces. *)
Lemma searchProducts_no_query_order_witness :
  isBlank (query (queryOnly "   ")) = true
  /\ sortByGiven (sortBy (queryOnly "   ")) = None
  /\ exists sorted : list SearchResult,
       searchProducts (RT := Reference.reference_runtime) mockProducts (queryOnly "   ")
       = truncate (limit (queryOnly "   ")) sorted
       /\ StronglySorted (inOrder (RT := Reference.reference_runtime) VendorAsc) sorted.
Proof.
  split; [reflexivity|]. split; [reflexivity|].
  destruct (searchProducts_no_query_order (RT := Reference.reference_runtime)
              (Laws := reference_collation) mockProducts (queryOnly "   ")
              eq_refl eq_refl)
    as (sorted & H1 & _ & H3 & _).
  exists sorted. split; assumption.
Defined.

(** * The tests of the repository and the scenarios of the specification *)

(** [searchEngine.test.ts]: the brand name is found, and the record with
    the brand in title and vendor comes first. *)
Example test_find_by_brand_name :
  map (fun r => (id (product r), vendor (product r), Qred (relevanceScore r)))
      (searchProducts (RT := Reference.reference_runtime) mockProducts
                      (queryOnly "Transparent Labs"))
  = [("1", "Transparent Labs", 45%Q); ("2", "Generic Brand", 8%Q)].
Proof. reflexivity. Qed.

(** [searchEngine.test.ts]: a match in the description is disclosed. *)
Example test_match_in_description :
  map (fun r => (id (product r), matchedFields r))
      (searchProducts (RT := Reference.reference_runtime) mockProducts
                      (queryOnly "formula"))
  = [("2", ["description"])].
Proof. reflexivity. Qed.

(** Scenario C: an empty query sorted by [price-asc]. *)
Example scenario_price_asc :
  map (fun r => amount (price (product r)))
      (searchProducts (RT := Reference.reference_runtime) mockProducts
                      {| query := ""; filters := None; sortBy := Some "price-asc";
                         limit := None |})
  = [Finite 20; Finite 40].
Proof. reflexivity. Qed.

(** Scenario D: a header and one row of status [DRAFT]. *)
Example scenario_draft_row :
  fst (parseCSV (RT := Reference.reference_runtime) None draftOnly 0 0 idle)
  = Returned {| products := [];
                stats := {| totalRows := 1; parsedProducts := 0; skippedRows := 1;
                            errors := 0; parseTime := 0 |} |}.
Proof. reflexivity. Qed.

(** A feed of three rows: the active row with a price is kept, the draft
    and the row without a price are skipped, the blank line is no row. *)
Example catalogue_parsed :
  exists result : ParseResult,
    fst (parseCSV (RT := Reference.reference_runtime) None catalogue 0 0 idle)
    = Returned result
    /\ map (fun p => (id p, title p, status p, amount (price p))) (products result)
       = [("1", "Whey", "ACTIVE", Finite (1299 # 100))]
    /\ stats result = {| totalRows := 3; parsedProducts := 1; skippedRows := 2;
                         errors := 0; parseTime := 0 |}.
Proof. eexists. repeat split. Qed.

(** * Further properties *)

(** ** Words *)

Module WordFacts.

Lemma append_nil_r (s : string) : s +++ EmptyString = s.
Proof. induction s as [|c s IH]; cbn; [reflexivity | now rewrite IH]. Qed.

Lemma append_assoc (a b c : string) : (a +++ b) +++ c = a +++ (b +++ c).
Proof. induction a as [|x a IH]; cbn; [reflexivity | now rewrite IH]. Qed.

Lemma isEmpty_append (a b : string) : isEmpty (a +++ b) = isEmpty a && isEmpty b.
Proof. now destruct a. Qed.

Lemma positive_length (t : string) : (0 <? String.length t)%nat = negb (isEmpty t).
Proof. now destruct t. Qed.

Lemma noChar_append (f : ascii -> bool) (a b : string) :
  noChar f (a +++ b) = noChar f a && noChar f b.
Proof.
  induction a as [|c a IH]; cbn; [reflexivity|]. rewrite IH. now rewrite andb_assoc.
Qed.

(** [split(/\s+/)] followed by the removal of the empty pieces gives the
    words. *)
Lemma filter_splitWsFrom (s : string) :
  forall (cur : string) (inSep : bool),
    (inSep = true -> cur = EmptyString) ->
    filter (fun t => (0 <? String.length t)%nat) (splitWsFrom cur inSep s)
    = wordsFrom cur s.
Proof.
  induction s as [|c s IH]; intros cur inSep Hsep; cbn [splitWsFrom wordsFrom filter].
  - rewrite positive_length. now destruct (isEmpty cur).
  - destruct (isWhitespace c).
    + destruct inSep.
      * rewrite (Hsep eq_refl). cbn [isEmpty]. now apply IH.
      * cbn [filter]. rewrite positive_length, IH by reflexivity.
        now destruct (isEmpty cur).
    + apply IH. discriminate.
Qed.

Lemma wordsFrom_blank (s : string) :
  forall cur : string,
    isBlank s = true -> wordsFrom cur s = if isEmpty cur then [] else [cur].
Proof.
  induction s as [|c s IH]; intros cur H; cbn in *; [reflexivity|].
  apply andb_true_iff in H. destruct H as [Hc Hs]. rewrite Hc.
  rewrite (IH EmptyString Hs). cbn. now destruct (isEmpty cur).
Qed.

Lemma wordsFrom_nil (s : string) :
  forall cur : string,
    wordsFrom cur s = [] -> isEmpty cur = true /\ isBlank s = true.
Proof.
  induction s as [|c s IH]; intros cur H; cbn in *.
  - destruct (isEmpty cur); [auto|discriminate].
  - destruct (isWhitespace c); cbn.
    + destruct (isEmpty cur); [|discriminate]. split; [reflexivity|].
      now apply (IH EmptyString).
    + apply IH in H. destruct H as [H _]. rewrite isEmpty_append in H.
      apply andb_true_iff in H. destruct H as [_ H]. discriminate.
Qed.

Lemma wordsFrom_trimStart (s : string) :
  wordsFrom EmptyString (trimStart s) = wordsFrom EmptyString s.
Proof.
  induction s as [|c s IH]; [reflexivity|]. cbn [trimStart].
  destruct (isWhitespace c) eqn:E; [|reflexivity].
  cbn [wordsFrom]. rewrite E. exact IH.
Qed.

Lemma wordsFrom_trimEnd (s : string) :
  forall cur : string, wordsFrom cur (trimEnd s) = wordsFrom cur s.
Proof.
  induction s as [|c s IH]; intro cur; [reflexivity|]. cbn [trimEnd].
  destruct (isWhitespace c) eqn:Ec; cbn [andb].
  - destruct (isEmpty (trimEnd s)) eqn:Ee.
    + rewrite JSStringFacts.trimEnd_empty in Ee.
      cbn [wordsFrom]. rewrite Ec, (wordsFrom_blank s EmptyString Ee). cbn.
      now destruct (isEmpty cur).
    + cbn [wordsFrom]. rewrite Ec, IH. reflexivity.
  - cbn [wordsFrom]. rewrite Ec. apply IH.
Qed.

Lemma trimEnd_idempotent (s : string) : trimEnd (trimEnd s) = trimEnd s.
Proof.
  induction s as [|c s IH]; [reflexivity|]. cbn [trimEnd].
  destruct (isWhitespace c && isEmpty (trimEnd s)) eqn:E; [reflexivity|].
  cbn [trimEnd]. rewrite IH, E. reflexivity.
Qed.

Lemma trimEnd_cons_fixed (c : ascii) (t : string) :
  trimEnd (String c t) = String c t ->
  trimEnd t = t /\ isWhitespace c && isEmpty t = false.
Proof.
  cbn [trimEnd]. destruct (isWhitespace c && isEmpty (trimEnd t)) eqn:E; [discriminate|].
  intro H. injection H as H. rewrite H in E. now split.
Qed.

Lemma join_cons (sep p : string) (rest : list string) :
  rest <> [] -> join sep (p :: rest) = p +++ sep +++ join sep rest.
Proof. destruct rest; [contradiction|reflexivity]. Qed.

(** On a text without white space at its end, the words joined by one
    space are the text with its runs of white space replaced. *)
Lemma join_wordsFrom (t : string) :
  trimEnd t = t ->
  (forall cur : string,
      isEmpty cur = false ->
      join space (wordsFrom cur t) = cur +++ collapseFrom false t)
  /\ join space (wordsFrom EmptyString t) = collapseFrom true t.
Proof.
  induction t as [|c t IH]; intro Hfix.
  - split; [|reflexivity]. intros cur Hcur. cbn. rewrite Hcur. cbn.
    now rewrite append_nil_r.
  - apply trimEnd_cons_fixed in Hfix. destruct Hfix as [Hfix Hc].
    destruct (IH Hfix) as [IHP IHQ]. cbn [wordsFrom collapseFrom].
    destruct (isWhitespace c) eqn:Ec.
    + cbn [andb] in Hc.
      assert (Hne : wordsFrom EmptyString t <> []).
      { intro H. apply wordsFrom_nil in H. destruct H as [_ H].
        rewrite <- JSStringFacts.trimEnd_empty, Hfix, Hc in H. discriminate. }
      split.
      * intros cur Hcur. rewrite Hcur, (join_cons _ _ _ Hne), IHQ. reflexivity.
      * cbn [isEmpty]. exact IHQ.
    + split.
      * intros cur Hcur. rewrite IHP.
        -- rewrite append_assoc. reflexivity.
        -- rewrite isEmpty_append. cbn. now rewrite andb_false_r.
      * rewrite IHP by reflexivity. reflexivity.
Qed.

Lemma trimStart_head (s : string) (c : ascii) (t : string) :
  trimStart s = String c t -> isWhitespace c = false.
Proof.
  induction s as [|d s IH]; cbn; [discriminate|].
  destruct (isWhitespace d) eqn:E; [exact IH|].
  intro H. injection H as -> _. exact E.
Qed.

Lemma trim_head (s : string) (c : ascii) (t : string) :
  trim s = String c t -> isWhitespace c = false.
Proof.
  unfold trim. destruct (trimStart s) as [|d u] eqn:E; cbn [trimEnd]; [discriminate|].
  destruct (isWhitespace d && isEmpty (trimEnd u)); [discriminate|].
  intro H. injection H as -> _. now apply (trimStart_head s c u).
Qed.

(** [replace(/\s+/g, ' ')] after [trim] joins the words by one space. *)
Lemma collapse_trim_words (s : string) :
  collapseWhitespace (trim s) = join space (words s).
Proof.
  unfold words. rewrite <- wordsFrom_trimStart, <- (wordsFrom_trimEnd (trimStart s)).
  change (trimEnd (trimStart s)) with (trim s).
  assert (Hfix : trimEnd (trim s) = trim s) by apply trimEnd_idempotent.
  destruct (trim s) as [|c t] eqn:E; [reflexivity|].
  pose proof (trim_head s c t E) as Hc.
  apply trimEnd_cons_fixed in Hfix. destruct Hfix as [Hfix _].
  unfold collapseWhitespace. cbn [wordsFrom collapseFrom]. rewrite Hc.
  destruct (join_wordsFrom t Hfix) as [HP _]. now rewrite HP.
Qed.

Lemma wordsFrom_word (w : string) :
  forall cur rest : string,
    noChar isWhitespace w = true ->
    wordsFrom cur (w +++ rest) = wordsFrom (cur +++ w) rest.
Proof.
  induction w as [|c w IH]; intros cur rest H; cbn in *.
  - now rewrite append_nil_r.
  - apply andb_true_iff in H. destruct H as [Hc Hw].
    apply negb_true_iff in Hc. rewrite Hc, IH by assumption.
    now rewrite append_assoc.
Qed.

Lemma wordsFrom_join (l : list string) :
  Forall GoodWord l -> wordsFrom EmptyString (join space l) = l.
Proof.
  induction 1 as [|w l [Hne Hws] Hl IH]; [reflexivity|].
  destruct l as [|w' l].
  - cbn [join]. pose proof (wordsFrom_word w EmptyString EmptyString Hws) as H.
    rewrite append_nil_r in H. rewrite H. cbn. now rewrite Hne.
  - rewrite join_cons by discriminate. rewrite wordsFrom_word by assumption.
    cbn [String.append space wordsFrom]. cbn [String.append] in IH.
    replace (isWhitespace " ") with true by reflexivity.
    now rewrite Hne, IH.
Qed.

Lemma wordsFrom_good (s : string) :
  forall cur : string,
    noChar isWhitespace cur = true -> Forall GoodWord (wordsFrom cur s).
Proof.
  induction s as [|c s IH]; intros cur Hcur; cbn [wordsFrom].
  - destruct (isEmpty cur) eqn:E; constructor; [now split|constructor].
  - destruct (isWhitespace c) eqn:Ec.
    + destruct (isEmpty cur) eqn:E; [now apply IH|].
      constructor; [now split|now apply IH].
    + apply IH. rewrite noChar_append, Hcur. cbn. now rewrite Ec.
Qed.

Lemma wordsFrom_noChar (f : ascii -> bool) (s : string) :
  forall cur : string,
    noChar f cur = true -> noChar f s = true ->
    Forall (fun w => noChar f w = true) (wordsFrom cur s).
Proof.
  induction s as [|c s IH]; intros cur Hcur Hs; cbn [wordsFrom].
  - destruct (isEmpty cur); constructor; [assumption|constructor].
  - cbn in Hs. apply andb_true_iff in Hs. destruct Hs as [Hc Hs].
    destruct (isWhitespace c).
    + destruct (isEmpty cur); [now apply IH|].
      constructor; [assumption|now apply IH].
    + apply IH; [|assumption]. rewrite noChar_append, Hcur. cbn. now rewrite Hc.
Qed.

End WordFacts.

(** ** The normalizer and the tokenizer *)

Module NormalizerFacts.
Import WordFacts.

Lemma normalize_words (s : string) : normalize s = join space (words (toLowerCase s)).
Proof.
  unfold normalize. destruct s as [|c s]; [reflexivity|].
  cbn [isEmpty]. apply collapse_trim_words.
Qed.

Lemma words_good (s : string) : Forall GoodWord (words s).
Proof. apply wordsFrom_good. reflexivity. Qed.

Lemma tokenize_words (q : string) : tokenize q = words (toLowerCase q).
Proof.
  unfold tokenize, splitWhitespace. rewrite filter_splitWsFrom by discriminate.
  rewrite normalize_words. apply wordsFrom_join, words_good.
Qed.

Lemma normalize_join (q : string) : normalize q = join space (tokenize q).
Proof. rewrite tokenize_words. apply normalize_words. Qed.

Lemma lowerChar_idempotent (c : ascii) : lowerChar (lowerChar c) = lowerChar c.
Proof. destruct c as [[] [] [] [] [] [] [] []]; reflexivity. Qed.

Lemma lowerChar_not_upper (c : ascii) : isUpper (lowerChar c) = false.
Proof. destruct c as [[] [] [] [] [] [] [] []]; reflexivity. Qed.

Lemma lowerChar_fixed (c : ascii) : isUpper c = false -> lowerChar c = c.
Proof. unfold isUpper, lowerChar. now intros ->. Qed.

Lemma toLowerCase_idempotent (s : string) : toLowerCase (toLowerCase s) = toLowerCase s.
Proof.
  induction s as [|c s IH]; cbn; [reflexivity|]. now rewrite lowerChar_idempotent, IH.
Qed.

Lemma toLowerCase_no_upper (s : string) : noChar isUpper (toLowerCase s) = true.
Proof.
  induction s as [|c s IH]; cbn; [reflexivity|]. now rewrite lowerChar_not_upper, IH.
Qed.

Lemma toLowerCase_fixed (s : string) : noChar isUpper s = true -> toLowerCase s = s.
Proof.
  induction s as [|c s IH]; cbn; [reflexivity|]. intro H.
  apply andb_true_iff in H. destruct H as [Hc Hs]. apply negb_true_iff in Hc.
  now rewrite (lowerChar_fixed c Hc), IH.
Qed.

Lemma toLowerCase_append (a b : string) :
  toLowerCase (a +++ b) = toLowerCase a +++ toLowerCase b.
Proof. induction a as [|c a IH]; cbn; [reflexivity | now rewrite IH]. Qed.

Lemma noChar_join (f : ascii -> bool) (sep : string) (l : list string) :
  noChar f sep = true -> Forall (fun w => noChar f w = true) l ->
  noChar f (join sep l) = true.
Proof.
  intros Hsep. induction 1 as [|w l Hw Hl IH]; [reflexivity|].
  destruct l as [|w' l]; [exact Hw|].
  rewrite join_cons by discriminate. rewrite !noChar_append, Hw, Hsep. exact IH.
Qed.

Lemma tokens_lower (q : string) :
  Forall (fun t => noChar isUpper t = true) (tokenize q).
Proof.
  rewrite tokenize_words. apply wordsFrom_noChar; [reflexivity|].
  apply toLowerCase_no_upper.
Qed.

Lemma normalize_lower (s : string) : toLowerCase (normalize s) = normalize s.
Proof.
  apply toLowerCase_fixed. rewrite normalize_join.
  apply noChar_join; [reflexivity | apply tokens_lower].
Qed.

Lemma tokenize_normalize (s : string) : tokenize (normalize s) = tokenize s.
Proof.
  rewrite (tokenize_words (normalize s)), normalize_lower, normalize_join.
  apply wordsFrom_join. rewrite tokenize_words. apply words_good.
Qed.

Lemma tokenize_not_blank (q : string) : isBlank q = false -> tokenize q <> [].
Proof.
  intros Hq H. rewrite tokenize_words in H. apply wordsFrom_nil in H.
  destruct H as [_ H]. rewrite JSStringFacts.blank_toLowerCase in H. congruence.
Qed.

End NormalizerFacts.

(** X1: [normalize] is idempotent, and a query and its normal form have
    the same tokens. *)
Theorem normalize_idempotent (s : string) :
  normalize (normalize s) = normalize s
  /\ tokenize (normalize s) = tokenize s.
Proof.
  split.
  - rewrite (NormalizerFacts.normalize_join (normalize s)).
    rewrite NormalizerFacts.tokenize_normalize.
    symmetry. apply NormalizerFacts.normalize_join.
  - apply NormalizerFacts.tokenize_normalize.
Qed.

(** X2: the tokens of a query joined by one space are its normal form;
    no token is empty, none holds white space or a capital letter. *)
Theorem tokenize_join (q : string) :
  join space (tokenize q) = normalize q
  /\ Forall (fun t => t <> EmptyString
                      /\ noChar isWhitespace t = true
                      /\ noChar isUpper t = true)
            (tokenize q).
Proof.
  split; [symmetry; apply NormalizerFacts.normalize_join|].
  pose proof (NormalizerFacts.tokens_lower q) as Hl.
  pose proof (NormalizerFacts.words_good (toLowerCase q)) as Hg.
  rewrite <- NormalizerFacts.tokenize_words in Hg.
  rewrite Forall_forall in *. intros t Ht.
  destruct (Hg t Ht) as [Hne Hws]. repeat split; auto.
  intros ->. discriminate.
Qed.

(** X3: a query has no token exactly when it is empty or white space
    only, which is when [useProductSearch] says that there is no
    query. *)
Theorem tokenize_empty_iff_blank (q : string) :
  (tokenize q = [] <-> isBlank q = true)
  /\ hooks.hasQuery q = negb (isBlank q).
Proof.
  split; [split|].
  - intro H. destruct (isBlank q) eqn:E; [reflexivity|].
    exfalso. exact (NormalizerFacts.tokenize_not_blank q E H).
  - apply SearchFacts.tokenize_blank.
  - unfold hooks.hasQuery. rewrite <- JSStringFacts.trim_empty.
    now destruct (trim q).
Qed.

(** ** Subsequences *)

Module SubsequenceFacts.

Lemma Subsequence_tail (c : ascii) (needle haystack : string) :
  Subsequence (String c needle) haystack -> Subsequence needle haystack.
Proof.
  induction haystack as [|h haystack IH]; intro H; inversion H; subst.
  - apply subsequence_skip. now apply IH.
  - now apply subsequence_skip.
Qed.

Lemma subsequenceFrom_sound (haystack : string) :
  forall needle : string,
    subsequenceFrom haystack needle = true -> Subsequence needle haystack.
Proof.
  induction haystack as [|h haystack IH]; intros [|n needle] H; cbn in H;
    try discriminate; try apply subsequence_empty.
  destruct (Ascii.eqb_spec n h) as [->|Hnh].
  - apply subsequence_take. now apply IH.
  - apply subsequence_skip. now apply IH.
Qed.

(** Taking the first occurrence of each character loses no match. *)
Lemma subsequenceFrom_complete (haystack : string) :
  forall needle : string,
    Subsequence needle haystack -> subsequenceFrom haystack needle = true.
Proof.
  induction haystack as [|h haystack IH]; intros [|n needle] H; cbn;
    try reflexivity.
  - inversion H.
  - destruct (Ascii.eqb_spec n h) as [->|Hnh].
    + apply IH. inversion H; subst; [now apply (Subsequence_tail h)|assumption].
    + apply IH. inversion H; subst; [assumption|contradiction].
Qed.

Lemma Subsequence_length (needle haystack : string) :
  Subsequence needle haystack -> String.length needle <= String.length haystack.
Proof.
  induction 1; cbn; lia.
Qed.

End SubsequenceFacts.

(** X4: [isSubsequence] holds exactly when the needle is not empty and
    is the haystack with characters left out; the needle is then no
    longer than the haystack. *)
Theorem isSubsequence_spec (needle haystack : string) :
  (isSubsequence needle haystack = true
   <-> needle <> EmptyString /\ Subsequence needle haystack)
  /\ (isSubsequence needle haystack = true ->
      String.length needle <= String.length haystack).
Proof.
  assert (H : isSubsequence needle haystack = true
              <-> needle <> EmptyString /\ Subsequence needle haystack).
  { unfold isSubsequence. destruct needle as [|n needle]; cbn [isEmpty].
    - split; [discriminate|]. intros [H _]. contradiction.
    - split.
      + intro H. split; [discriminate|]. now apply SubsequenceFacts.subsequenceFrom_sound.
      + intros [_ H]. now apply SubsequenceFacts.subsequenceFrom_complete. }
  split; [exact H|].
  intro Hs. apply H in Hs. destruct Hs as [_ Hs].
  now apply SubsequenceFacts.Subsequence_length.
Qed.

(** The hypothesis of [isSubsequence_spec] on "wpi" in
    "wheyproteinisolate". *)
Lemma isSubsequence_spec_witness :
  isSubsequence "wpi" "wheyproteinisolate" = true
  /\ String.length "wpi" <= String.length "wheyproteinisolate".
Proof.
  assert (H : isSubsequence "wpi" "wheyproteinisolate" = true) by reflexivity.
  split; [exact H|].
  exact (proj2 (isSubsequence_spec "wpi" "wheyproteinisolate") H).
Defined.

(** ** The aggregate score *)

Module RankerFacts.

Lemma factor_le_10 (r : Rung) : (factor r <= 10)%Q.
Proof. destruct r; discriminate. Qed.

Lemma ladderScore_le (tokens : list string) (field : string) (weight : Q) :
  (0 <= weight)%Q ->
  (ladderScore tokens field weight
   <= 10 * weight * inject_Z (Z.of_nat (length tokens)))%Q.
Proof.
  intro Hw. induction tokens as [|t tokens IH].
  - cbn [ladderScore length Z.of_nat]. change (inject_Z 0) with 0%Q. lra.
  - cbn [ladderScore length]. rewrite Nat2Z.inj_succ, <- Z.add_1_r, inject_Z_plus.
    assert (factor (rungOf field t) * weight <= 10 * weight)%Q
      by (apply Qmult_le_compat_r; [apply factor_le_10 | assumption]).
    change (inject_Z 1) with 1%Q. lra.
Qed.

Lemma scoreField_le (tokens : list string) (field : string) (weight : Q) :
  (0 <= weight)%Q ->
  (scoreField tokens field weight
   <= 10 * weight * inject_Z (Z.of_nat (length tokens)))%Q.
Proof.
  intro Hw. destruct field as [|c field].
  - rewrite ScorerFacts.scoreField_empty_field.
    assert (0 <= inject_Z (Z.of_nat (length tokens)))%Q
      by (change 0%Q with (inject_Z 0); rewrite <- Zle_Qle; lia).
    nra.
  - rewrite ScorerFacts.scoreField_ladder by discriminate. now apply ladderScore_le.
Qed.

(** A score of the ladder is a whole number of weights. *)
Lemma ladderScore_whole (tokens : list string) (field : string) (weight : Q) :
  exists k : nat, (ladderScore tokens field weight == inject_Z (Z.of_nat k) * weight)%Q.
Proof.
  induction tokens as [|t tokens [k IH]].
  - exists 0. cbn. ring.
  - assert (Hf : exists m : nat, factor (rungOf field t) = inject_Z (Z.of_nat m)).
    { destruct (rungOf field t);
        [exists 10 | exists 5 | exists 4 | exists 2 | exists 1 | exists 0]; reflexivity. }
    destruct Hf as [m Hm]. exists (m + k). cbn [ladderScore].
    rewrite IH, Hm, Nat2Z.inj_add, inject_Z_plus. ring.
Qed.

Lemma scoreField_whole (tokens : list string) (field : string) (weight : Q) :
  exists k : nat, (scoreField tokens field weight == inject_Z (Z.of_nat k) * weight)%Q.
Proof.
  destruct field as [|c field].
  - exists 0. rewrite ScorerFacts.scoreField_empty_field. ring.
  - destruct (ladderScore_whole tokens (String c field) weight) as [k Hk].
    exists k. now rewrite ScorerFacts.scoreField_ladder by discriminate.
Qed.

(** The aggregate score is a whole number of halves. *)
Lemma calculateScore_halves (p : Product) (tokens : list string) :
  exists k : nat, (calculateScore p tokens == inject_Z (Z.of_nat k) * (1 # 2))%Q.
Proof.
  unfold calculateScore. destruct (length tokens =? 0)%nat.
  - exists 0. ring.
  - destruct (scoreField_whole tokens (title p) FIELD_WEIGHTS.title) as [k1 H1].
    destruct (scoreField_whole tokens (vendor p) FIELD_WEIGHTS.vendor) as [k2 H2].
    destruct (scoreField_whole tokens (stripHtml (descriptionText p))
                               FIELD_WEIGHTS.description) as [k3 H3].
    destruct (scoreField_whole tokens (orElse (join space (tags p)) EmptyString)
                               FIELD_WEIGHTS.tags) as [k4 H4].
    exists (6 * k1 + 4 * k2 + 2 * k3 + k4).
    rewrite H1, H2, H3, H4.
    rewrite !Nat2Z.inj_add, !Nat2Z.inj_mul, !inject_Z_plus, !inject_Z_mult.
    unfold FIELD_WEIGHTS.title, FIELD_WEIGHTS.vendor, FIELD_WEIGHTS.description,
      FIELD_WEIGHTS.tags.
    cbn [Z.of_nat Pos.of_succ_nat Pos.succ]. ring.
Qed.

Lemma calculateScore_fields_nonneg (p : Product) (tokens : list string) :
  (0 <= scoreField tokens (title p) FIELD_WEIGHTS.title)%Q
  /\ (0 <= scoreField tokens (vendor p) FIELD_WEIGHTS.vendor)%Q
  /\ (0 <= scoreField tokens (stripHtml (descriptionText p)) FIELD_WEIGHTS.description)%Q
  /\ (0 <= scoreField tokens (orElse (join space (tags p)) EmptyString)
                      FIELD_WEIGHTS.tags)%Q.
Proof.
  repeat split; apply ScorerFacts.scoreField_nonneg; discriminate.
Qed.

End RankerFacts.

(** X5: the aggregate score of a record lies between 0 and 65 times the
    number of tokens. *)
Theorem calculateScore_bounds (p : Product) (tokens : list string) :
  (0 <= calculateScore p tokens)%Q
  /\ (calculateScore p tokens <= 65 * inject_Z (Z.of_nat (length tokens)))%Q.
Proof.
  destruct (RankerFacts.calculateScore_fields_nonneg p tokens) as (H1 & H2 & H3 & H4).
  unfold calculateScore. destruct (length tokens =? 0)%nat eqn:E.
  - apply Nat.eqb_eq in E. rewrite E. cbn [Z.of_nat].
    change (inject_Z 0) with 0%Q. split; lra.
  - split; [lra|].
    pose proof (RankerFacts.scoreField_le tokens (title p) FIELD_WEIGHTS.title) as B1.
    pose proof (RankerFacts.scoreField_le tokens (vendor p) FIELD_WEIGHTS.vendor) as B2.
    pose proof (RankerFacts.scoreField_le tokens (stripHtml (descriptionText p))
                  FIELD_WEIGHTS.description) as B3.
    pose proof (RankerFacts.scoreField_le tokens
                  (orElse (join space (tags p)) EmptyString) FIELD_WEIGHTS.tags) as B4.
    unfold FIELD_WEIGHTS.title, FIELD_WEIGHTS.vendor, FIELD_WEIGHTS.description,
      FIELD_WEIGHTS.tags in *.
    specialize (B1 ltac:(discriminate)). specialize (B2 ltac:(discriminate)).
    specialize (B3 ltac:(discriminate)). specialize (B4 ltac:(discriminate)).
    lra.
Qed.


(** ** Matched fields and the threshold *)

Module MatchFacts.
Import WordFacts NormalizerFacts.

Lemma occursIn_trans (a b c : string) : occursIn a b -> occursIn b c -> occursIn a c.
Proof.
  intros (b1 & b2 & ->) (c1 & c2 & ->).
  exists (c1 +++ b1), (b2 +++ c2). now rewrite !append_assoc.
Qed.

Lemma join_app (sep : string) (l1 l2 : list string) :
  l1 <> [] -> l2 <> [] ->
  join sep (l1 ++ l2) = join sep l1 +++ sep +++ join sep l2.
Proof.
  intros H1 H2. induction l1 as [|x l1 IH]; [contradiction|].
  destruct l1 as [|y l1].
  - cbn [app]. now apply join_cons.
  - change ((x :: y :: l1) ++ l2) with (x :: ((y :: l1) ++ l2)).
    rewrite !join_cons by discriminate. rewrite IH by discriminate.
    now rewrite !append_assoc.
Qed.

(** Consecutive parts of a list, joined, are a substring of the whole
    list joined. *)
Lemma occursIn_join (sep : string) (before middle after : list string) :
  occursIn (join sep middle) (join sep (before ++ middle ++ after)).
Proof.
  destruct middle as [|m middle].
  - exists EmptyString, (join sep (before ++ after)). reflexivity.
  - destruct before as [|b before], after as [|a after].
    + exists EmptyString, EmptyString. cbn [app]. rewrite app_nil_r.
      now rewrite append_nil_r.
    + exists EmptyString, (sep +++ join sep (a :: after)). cbn [app String.append].
      now apply (join_app sep (m :: middle) (a :: after)).
    + exists (join sep (b :: before) +++ sep), EmptyString. rewrite app_nil_r.
      rewrite (join_app sep (b :: before) (m :: middle)) by discriminate.
      now rewrite append_nil_r, append_assoc.
    + exists (join sep (b :: before) +++ sep), (sep +++ join sep (a :: after)).
      rewrite (join_app sep (b :: before)) by discriminate.
      rewrite (join_app sep (m :: middle)) by discriminate.
      now rewrite !append_assoc.
Qed.

Lemma wordsFrom_space (a b : string) :
  forall cur : string,
    wordsFrom cur (a +++ space +++ b) = wordsFrom cur a ++ wordsFrom EmptyString b.
Proof.
  induction a as [|c a IH]; intro cur.
  - cbn. now destruct (isEmpty cur).
  - cbn [String.append wordsFrom]. destruct (isWhitespace c).
    + destruct (isEmpty cur); cbn [app]; now rewrite IH.
    + apply IH.
Qed.

Lemma words_join (l : list string) : words (join space l) = concat (map words l).
Proof.
  induction l as [|x l IH]; [reflexivity|]. destruct l as [|y l].
  - cbn. now rewrite app_nil_r.
  - rewrite join_cons by discriminate. unfold words in *.
    rewrite wordsFrom_space, IH. reflexivity.
Qed.

Lemma toLowerCase_join (l : list string) :
  toLowerCase (join space l) = join space (map toLowerCase l).
Proof.
  induction l as [|x l IH]; [reflexivity|]. destruct l as [|y l]; [reflexivity|].
  change (map toLowerCase (x :: y :: l))
    with (toLowerCase x :: map toLowerCase (y :: l)).
  rewrite !join_cons by discriminate.
  now rewrite !toLowerCase_append, IH.
Qed.

(** A tag, normalized, is a substring of the normalized text of the tags
    joined by a space. *)
Lemma tag_in_joined (tag : string) (tagList : list string) :
  In tag tagList -> occursIn (normalize tag) (normalize (join space tagList)).
Proof.
  intro Hin. apply in_split in Hin. destruct Hin as (l1 & l2 & ->).
  rewrite !normalize_words, toLowerCase_join, words_join.
  rewrite !map_app, concat_app. cbn [map concat].
  apply occursIn_join.
Qed.

Lemma token_in_tags (token tag : string) (tagList : list string) :
  In tag tagList -> includes (normalize tag) token = true ->
  includes (normalize (join space tagList)) token = true.
Proof.
  rewrite !JSStringFacts.includes_spec. intros Hin H.
  exact (occursIn_trans _ _ _ H (tag_in_joined tag tagList Hin)).
Qed.

Lemma qualifies_positive (p : Product) (tokens : list string) :
  qualifies tokens p = true <-> (0 < calculateScore p tokens)%Q.
Proof.
  unfold qualifies, MINIMUM_SCORE. rewrite Qle_bool_iff.
  destruct (RankerFacts.calculateScore_halves p tokens) as [k Hk]. rewrite Hk.
  destruct k as [|k].
  - change (inject_Z (Z.of_nat 0)) with 0%Q. split; intro; lra.
  - assert (1 <= inject_Z (Z.of_nat (S k)))%Q
      by (change 1%Q with (inject_Z 1); rewrite <- Zle_Qle; lia).
    split; intro; lra.
Qed.

Lemma some_true {A : Type} (f : A -> bool) (l : list A) :
  JSArray.some f l = true -> exists x : A, In x l /\ f x = true.
Proof. unfold JSArray.some. now rewrite existsb_exists. Qed.

(** With tokens that are not empty, a record with a reported field
    reaches the threshold. *)
Lemma matched_qualifies (p : Product) (tokens : list string) :
  Forall (fun t => t <> EmptyString) tokens ->
  getMatches p tokens <> [] -> qualifies tokens p = true.
Proof.
  intros Htokens Hm. rewrite Forall_forall in Htokens.
  apply qualifies_positive.
  destruct (RankerFacts.calculateScore_fields_nonneg p tokens) as (H1 & H2 & H3 & H4).
  assert (Hlen : (length tokens =? 0)%nat = false).
  { destruct tokens as [|t tokens]; [|reflexivity]. exfalso. apply Hm. reflexivity. }
  unfold calculateScore. rewrite Hlen.
  unfold getMatches in Hm.
  destruct (JSArray.some (fun t => includes (normalize (title p)) t) tokens) eqn:Et.
  { apply some_true in Et. destruct Et as (t & Hin & Ht).
    pose proof (ScorerFacts.matched_field_scores tokens (title p) FIELD_WEIGHTS.title t
                  ltac:(discriminate) Hin (Htokens t Hin) Ht) as H.
    unfold FIELD_WEIGHTS.title in *. lra. }
  destruct (JSArray.some (fun t => includes (normalize (vendor p)) t) tokens) eqn:Ev.
  { apply some_true in Ev. destruct Ev as (t & Hin & Ht).
    pose proof (ScorerFacts.matched_field_scores tokens (vendor p) FIELD_WEIGHTS.vendor t
                  ltac:(discriminate) Hin (Htokens t Hin) Ht) as H.
    unfold FIELD_WEIGHTS.vendor in *. lra. }
  destruct (JSArray.some
              (fun t => includes (normalize (stripHtml (descriptionText p))) t) tokens)
    eqn:Ed.
  { apply some_true in Ed. destruct Ed as (t & Hin & Ht).
    pose proof (ScorerFacts.matched_field_scores tokens (stripHtml (descriptionText p))
                  FIELD_WEIGHTS.description t
                  ltac:(discriminate) Hin (Htokens t Hin) Ht) as H.
    unfold FIELD_WEIGHTS.description in *. lra. }
  destruct (JSArray.some
              (fun t => JSArray.some (fun tag => includes (normalize tag) t) (tags p))
              tokens) eqn:Eg; [|exfalso; apply Hm; reflexivity].
  apply some_true in Eg. destruct Eg as (t & Hin & Ht).
  apply some_true in Ht. destruct Ht as (tag & Htag & Ht).
  pose proof (token_in_tags t tag (tags p) Htag Ht) as Hj.
  rewrite <- (JSStringFacts.orElse_empty (join space (tags p))) in Hj.
  pose proof (ScorerFacts.matched_field_scores tokens _ FIELD_WEIGHTS.tags t
                ltac:(discriminate) Hin (Htokens t Hin) Hj) as H.
  unfold FIELD_WEIGHTS.tags in *. lra.
Qed.

Lemma tokens_not_empty (q : string) :
  Forall (fun t => t <> EmptyString) (tokenize q).
Proof.
  rewrite tokenize_words.
  apply (Forall_impl _ (P := GoodWord)); [|apply words_good].
  intros t [H _] ->. discriminate H.
Qed.

(** The test of [getMatches] behind each name it reports. *)
Lemma getMatches_In (p : Product) (tokens : list string) (name : string) :
  In name (getMatches p tokens) ->
  (name = "title"
   /\ JSArray.some (fun t => includes (normalize (title p)) t) tokens = true)
  \/ (name = "vendor"
      /\ JSArray.some (fun t => includes (normalize (vendor p)) t) tokens = true)
  \/ (name = "description"
      /\ JSArray.some
           (fun t => includes (normalize (stripHtml (descriptionText p))) t) tokens
         = true)
  \/ (name = "tags"
      /\ JSArray.some
           (fun t => JSArray.some (fun tag => includes (normalize tag) t) (tags p))
           tokens
         = true).
Proof.
  unfold getMatches.
  destruct (JSArray.some (fun t => includes (normalize (title p)) t) tokens);
    destruct (JSArray.some (fun t => includes (normalize (vendor p)) t) tokens);
    destruct (JSArray.some
                (fun t => includes (normalize (stripHtml (descriptionText p))) t) tokens);
    destruct (JSArray.some
                (fun t => JSArray.some (fun tag => includes (normalize tag) t) (tags p))
                tokens);
    cbn [app In]; intuition (subst; auto).
Qed.

(** A field in which a token occurs scores twice its weight at least. *)
Lemma some_field_scores (tokens : list string) (field : string) (weight : Q) :
  (0 <= weight)%Q ->
  Forall (fun t => t <> EmptyString) tokens ->
  JSArray.some (fun t => includes (normalize field) t) tokens = true ->
  (2 * weight <= scoreField tokens field weight)%Q.
Proof.
  intros Hw Htokens H. rewrite Forall_forall in Htokens.
  apply some_true in H. destruct H as (t & Hin & Ht).
  exact (ScorerFacts.matched_field_scores tokens field weight t Hw Hin (Htokens t Hin) Ht).
Qed.

(** So do the tags, joined, when a token occurs in one of them. *)
Lemma some_tag_scores (tokens tagList : list string) (weight : Q) :
  (0 <= weight)%Q ->
  Forall (fun t => t <> EmptyString) tokens ->
  JSArray.some (fun t => JSArray.some (fun tag => includes (normalize tag) t) tagList)
               tokens = true ->
  (2 * weight <= scoreField tokens (orElse (join space tagList) EmptyString) weight)%Q.
Proof.
  intros Hw Htokens H. rewrite Forall_forall in Htokens.
  apply some_true in H. destruct H as (t & Hin & Ht).
  apply some_true in Ht. destruct Ht as (tag & Htag & Ht).
  pose proof (token_in_tags t tag tagList Htag Ht) as Hj.
  rewrite <- (JSStringFacts.orElse_empty (join space tagList)) in Hj.
  exact (ScorerFacts.matched_field_scores tokens _ weight t Hw Hin (Htokens t Hin) Hj).
Qed.

(** With tokens that are not empty, every field [getMatches] reports
    adds twice its weight at least to the score. *)
Lemma reported_field_scores (p : Product) (tokens : list string) (name : string) :
  Forall (fun t => t <> EmptyString) tokens ->
  In name (getMatches p tokens) ->
  (0 < 2 * weightOf name)%Q
  /\ (2 * weightOf name <= contribution p tokens name)%Q.
Proof.
  intros Htokens Hin.
  destruct (getMatches_In p tokens name Hin)
    as [[-> H]|[[-> H]|[[-> H]|[-> H]]]].
  - split; [reflexivity|].
    change (weightOf "title") with FIELD_WEIGHTS.title.
    change (contribution p tokens "title")
      with (scoreField tokens (title p) FIELD_WEIGHTS.title).
    apply some_field_scores; [discriminate | assumption | assumption].
  - split; [reflexivity|].
    change (weightOf "vendor") with FIELD_WEIGHTS.vendor.
    change (contribution p tokens "vendor")
      with (scoreField tokens (vendor p) FIELD_WEIGHTS.vendor).
    apply some_field_scores; [discriminate | assumption | assumption].
  - split; [reflexivity|].
    change (weightOf "description") with FIELD_WEIGHTS.description.
    change (contribution p tokens "description")
      with (scoreField tokens (stripHtml (descriptionText p)) FIELD_WEIGHTS.description).
    apply some_field_scores; [discriminate | assumption | assumption].
  - split; [reflexivity|].
    change (weightOf "tags") with FIELD_WEIGHTS.tags.
    change (contribution p tokens "tags")
      with (scoreField tokens (orElse (join space (tags p)) EmptyString)
                       FIELD_WEIGHTS.tags).
    apply some_tag_scores; [discriminate | assumption | assumption].
Qed.

(** The score of a record is the sum of what its four fields add. *)
Lemma calculateScore_contributions (p : Product) (tokens : list string) :
  tokens <> [] ->
  (calculateScore p tokens
   == contribution p tokens "title" + contribution p tokens "vendor"
      + contribution p tokens "description" + contribution p tokens "tags")%Q.
Proof.
  intro H. unfold calculateScore.
  destruct tokens as [|t tokens]; [contradiction|]. cbn [length Nat.eqb].
  change (contribution p (t :: tokens) "title")
    with (scoreField (t :: tokens) (title p) FIELD_WEIGHTS.title).
  change (contribution p (t :: tokens) "vendor")
    with (scoreField (t :: tokens) (vendor p) FIELD_WEIGHTS.vendor).
  change (contribution p (t :: tokens) "description")
    with (scoreField (t :: tokens) (stripHtml (descriptionText p))
                     FIELD_WEIGHTS.description).
  change (contribution p (t :: tokens) "tags")
    with (scoreField (t :: tokens) (orElse (join space (tags p)) EmptyString)
                     FIELD_WEIGHTS.tags).
  ring.
Qed.

End MatchFacts.

(** C9, as stated, fails in its last clause: a field [getMatches]
    reports never added zero to the score.  For the query "protein" the
    first record of the test suite has its title, description and tags
    reported, which add 12, 4 and 5/2; and for every record and every
    query, each reported field adds more than 0. *)
Lemma getMatches_reported_field_scores :
  getMatches wheyProtein (tokenize "protein") = ["title"; "description"; "tags"]
  /\ (contribution wheyProtein (tokenize "protein") "title" == 12)%Q
  /\ (contribution wheyProtein (tokenize "protein") "description" == 4)%Q
  /\ (contribution wheyProtein (tokenize "protein") "tags" == 5 # 2)%Q
  /\ forall (p : Product) (query name : string),
       In name (getMatches p (tokenize query)) ->
       (0 < contribution p (tokenize query) name)%Q.
Proof.
  split; [vm_compute; reflexivity|].
  split; [vm_compute; reflexivity|].
  split; [vm_compute; reflexivity|].
  split; [vm_compute; reflexivity|].
  intros p query name Hin.
  destruct (MatchFacts.reported_field_scores p (tokenize query) name
              (MatchFacts.tokens_not_empty query) Hin) as [H1 H2].
  lra.
Qed.

(** The hypothesis on the tokens is needed: the empty token, which
    [tokenize] never makes, occurs in every text, and the fields it is
    reported in add nothing. *)
Remark getMatches_empty_token :
  getMatches blank [EmptyString] = ["title"; "vendor"; "description"]
  /\ (calculateScore blank [EmptyString] == 0)%Q.
Proof. split; vm_compute; reflexivity. Qed.

(** C9, amended: [getMatches] returns exactly the names, among title,
    vendor, description and tags and in that order, of the fields in
    which some token occurs as a substring of the normalized text: the
    description is the record's description, or its HTML body when that
    is empty, with the tags of HTML stripped, and the tags match when a
    token occurs in one normalized tag.  No score is consulted; but with
    tokens that are not empty, as [tokenize] makes them, a reported
    field is never one that added zero to the score: what it adds, its
    term in the sum of [calculateScore], is twice its weight at
    least. *)
Theorem getMatches_exact (p : Product) (tokens : list string) :
  (forall name : string,
      In name (getMatches p tokens) <->
      (name = "title"
       /\ exists t, In t tokens /\ occursIn t (normalize (title p)))
      \/ (name = "vendor"
          /\ exists t, In t tokens /\ occursIn t (normalize (vendor p)))
      \/ (name = "description"
          /\ exists t, In t tokens
                       /\ occursIn t (normalize
                                        (stripHtml (if isEmpty (description p)
                                                    then bodyHtml p
                                                    else description p))))
      \/ (name = "tags"
          /\ exists t tag, In t tokens /\ In tag (tags p) /\ occursIn t (normalize tag)))
  /\ getMatches p tokens
     = filter (fun name => existsb (String.eqb name) (getMatches p tokens)) fieldNames
  /\ (tokens <> [] ->
      (calculateScore p tokens
       == contribution p tokens "title" + contribution p tokens "vendor"
          + contribution p tokens "description" + contribution p tokens "tags")%Q)
  /\ (Forall (fun t => t <> EmptyString) tokens ->
      forall name : string,
        In name (getMatches p tokens) ->
        (0 < 2 * weightOf name)%Q
        /\ (2 * weightOf name <= contribution p tokens name)%Q).
Proof.
  split; [|split; [|split]].
  - apply matched_names.
  - apply matched_in_order.
  - apply MatchFacts.calculateScore_contributions.
  - intros Htokens name. now apply MatchFacts.reported_field_scores.
Qed.


(** X7: under a tokenized query, a record for which [getMatches] reports
    a field has a positive score and reaches the threshold: no record
    with a field to highlight is dropped by the search. *)
Theorem matched_record_qualifies (p : Product) (q : string) :
  getMatches p (tokenize q) <> [] ->
  (0 < calculateScore p (tokenize q))%Q /\ qualifies (tokenize q) p = true.
Proof.
  intro H.
  pose proof (MatchFacts.matched_qualifies p (tokenize q)
                (MatchFacts.tokens_not_empty q) H) as Hq.
  split; [now apply MatchFacts.qualifies_positive | exact Hq].
Qed.

(** The hypothesis of [matched_record_qualifies] on a record of the test
    suite and the query "Whey". *)
Lemma matched_record_qualifies_witness :
  getMatches wheyProtein (tokenize "Whey") <> []
  /\ qualifies (tokenize "Whey") wheyProtein = true.
Proof.
  assert (H : getMatches wheyProtein (tokenize "Whey") <> [])
    by (vm_compute; discriminate).
  split; [exact H|].
  exact (proj2 (matched_record_qualifies wheyProtein "Whey" H)).
Defined.

(** X6: the threshold 0.1 keeps exactly the records whose score is
    positive, and a positive score is at least one half: a score is a
    whole number of halves. *)
Theorem threshold_is_positive_score (p : Product) (tokens : list string) :
  (qualifies tokens p = true <-> (0 < calculateScore p tokens)%Q)
  /\ ((0 < calculateScore p tokens)%Q -> (1 # 2 <= calculateScore p tokens)%Q).
Proof.
  split; [apply MatchFacts.qualifies_positive|].
  destruct (RankerFacts.calculateScore_halves p tokens) as [k Hk]. rewrite Hk.
  destruct k as [|k].
  - change (inject_Z (Z.of_nat 0)) with 0%Q. intro; lra.
  - assert (1 <= inject_Z (Z.of_nat (S k)))%Q
      by (change 1%Q with (inject_Z 1); rewrite <- Zle_Qle; lia).
    intro; lra.
Qed.

(** The hypothesis of [threshold_is_positive_score] on a record of the
    test suite and the token "whey". *)
Lemma threshold_is_positive_score_witness :
  (0 < calculateScore wheyProtein ["whey"])%Q
  /\ (1 # 2 <= calculateScore wheyProtein ["whey"])%Q.
Proof.
  assert (H : (0 < calculateScore wheyProtein ["whey"])%Q) by (vm_compute; reflexivity).
  split; [exact H|].
  exact (proj2 (threshold_is_positive_score wheyProtein ["whey"]) H).
Defined.

(** ** The search as a whole *)

Module SearchShape.
Import NormalizerFacts.

Section WithRuntime.
Context {RT : Runtime}.

Lemma eqb_empty (s : string) : (s =? "")%string = isEmpty s.
Proof. now destruct s. Qed.

(** The test [!query || query.trim() === ''] is the test for a blank
    query. *)
Lemma no_query_test (q : string) :
  isEmpty q || (trim q =? "")%string = isBlank q.
Proof.
  rewrite eqb_empty, JSStringFacts.trim_empty.
  destruct q; [reflexivity|]. reflexivity.
Qed.

Lemma blank_normalize (q : string) : isBlank (normalize q) = isBlank q.
Proof.
  destruct (isBlank q) eqn:E.
  - rewrite normalize_join, (SearchFacts.tokenize_blank q E). reflexivity.
  - destruct (isBlank (normalize q)) eqn:En; [|reflexivity].
    apply SearchFacts.tokenize_blank in En. rewrite tokenize_normalize in En.
    exfalso. now apply (tokenize_not_blank q E).
Qed.

Lemma truncate_length {A : Type} (limit : option Z) (l : list A) :
  length (truncate limit l) <= length l.
Proof.
  destruct limit as [n|]; cbn [truncate]; [|lia].
  unfold JSArray.slice0. destruct (0 <=? n)%Z; rewrite length_firstn; lia.
Qed.

Lemma truncate_length_limit {A : Type} (n : Z) (l : list A) :
  (0 <= n)%Z -> length (truncate (Some n) l) <= Z.to_nat n.
Proof.
  intro Hn. cbn [truncate]. unfold JSArray.slice0.
  destruct (Z.leb_spec 0 n); [|lia]. rewrite length_firstn. lia.
Qed.



(** The results before the limit: a list of results of filtered
    records, no longer than the filtered list. *)
Lemma searchProducts_shape (products : list Product) (options : SearchOptions) :
  exists full : list SearchResult,
    searchProducts products options = truncate (limit options) full
    /\ length full <= length (applyFilters products (filters options))
    /\ forall r : SearchResult,
        In r full -> In (product r) (applyFilters products (filters options)).
Proof.
  unfold searchProducts. rewrite no_query_test.
  destruct (isBlank (query options)) eqn:Eq.
  - eexists. split; [reflexivity|]. split.
    + unfold sortResults. rewrite JSArrayFacts.sort_length, length_map. lia.
    + intros r Hr. unfold sortResults in Hr. apply JSArrayFacts.sort_In in Hr.
      apply in_map_iff in Hr. destruct Hr as (p & <- & Hp). exact Hp.
  - pose proof (tokenize_not_blank _ Eq) as Ht.
    destruct (tokenize (query options)) as [|t ts] eqn:E; [contradiction|].
    cbn [length Nat.eqb]. rewrite SearchFacts.fold_scoreInto. cbn [app].
    set (l := map (scored (t :: ts))
                  (filter (qualifies (t :: ts))
                          (applyFilters products (filters options)))).
    assert (Hlen : length l <= length (applyFilters products (filters options))).
    { unfold l. rewrite length_map. apply filter_length_le. }
    assert (Hin : forall r, In r l ->
                            In (product r) (applyFilters products (filters options))).
    { intros r Hr. unfold l in Hr. apply in_map_iff in Hr.
      destruct Hr as (p & <- & Hp). apply filter_In in Hp. exact (proj1 Hp). }
    destruct (sortByGiven (sortBy options)) as [s|].
    + eexists. split; [reflexivity|]. split.
      * unfold sortResults. now rewrite !JSArrayFacts.sort_length.
      * intros r Hr. unfold sortResults in Hr.
        apply JSArrayFacts.sort_In, JSArrayFacts.sort_In in Hr. now apply Hin.
    + eexists. split; [reflexivity|]. split.
      * now rewrite JSArrayFacts.sort_length.
      * intros r Hr. apply JSArrayFacts.sort_In in Hr. now apply Hin.
Qed.

Lemma applyFilters_incl (products : list Product) (f : option SearchFilters)
      (p : Product) :
  In p (applyFilters products f) -> In p products.
Proof.
  destruct f as [f|]; [|auto]. unfold applyFilters.
  destruct (inStock f) as [[|]|];
    destruct (priceRange f) as [range|];
    destruct (vendors f) as [vs|];
    try destruct (0 <? length vs)%nat;
    intro H; repeat (apply filter_In in H; destruct H as [H _]); exact H.
Qed.

Lemma applyFilters_length (products : list Product) (f : option SearchFilters) :
  length (applyFilters products f) <= length products.
Proof.
  destruct f as [f|]; [|cbn; lia]. unfold applyFilters.
  destruct (inStock f) as [[|]|];
    destruct (priceRange f) as [range|];
    destruct (vendors f) as [vs|];
    try destruct (0 <? length vs)%nat;
    repeat (etransitivity; [apply filter_length_le|]); lia.
Qed.





End WithRuntime.
End SearchShape.

(** X8: a search with a query gives the same results as the search with
    the normalized query: letter case and the amount of white space of
    the query play no part. *)
Theorem searchProducts_normalized_query {RT : Runtime}
        (products : list Product) (q : string)
        (f : option SearchFilters) (s : option string) (l : option Z) :
  searchProducts products {| query := normalize q; filters := f; sortBy := s; limit := l |}
  = searchProducts products {| query := q; filters := f; sortBy := s; limit := l |}.
Proof.
  unfold searchProducts. cbn [query filters sortBy limit].
  rewrite !SearchShape.no_query_test, SearchShape.blank_normalize.
  now rewrite NormalizerFacts.tokenize_normalize.
Qed.

(** X9: whatever the options, every result of a search is a record of
    the catalogue that passes the filters; there are no more results
    than filtered records, and no more than a limit that is not
    negative. *)
Theorem searchProducts_within_catalogue {RT : Runtime}
        (products : list Product) (options : SearchOptions) :
  (forall r : SearchResult,
      In r (searchProducts products options) ->
      In (product r) (applyFilters products (filters options))
      /\ In (product r) products)
  /\ length (searchProducts products options)
     <= length (applyFilters products (filters options))
  /\ length (applyFilters products (filters options)) <= length products
  /\ (forall n : Z,
        limit options = Some n -> (0 <= n)%Z ->
        length (searchProducts products options) <= Z.to_nat n).
Proof.
  destruct (SearchShape.searchProducts_shape products options)
    as (full & Heq & Hlen & Hin).
  rewrite Heq. split; [|split; [|split]].
  - intros r Hr. apply SearchFacts.truncate_incl in Hr. apply Hin in Hr.
    split; [exact Hr|]. now apply (SearchShape.applyFilters_incl _ (filters options)).
  - pose proof (SearchShape.truncate_length (limit options) full). lia.
  - apply SearchShape.applyFilters_length.
  - intros n Hn Hpos. rewrite Hn. now apply SearchShape.truncate_length_limit.
Qed.



(** ** Filters *)

Module FilterFacts.

Lemma filter_filter {A : Type} (f g : A -> bool) (l : list A) :
  filter f (filter g l) = filter (fun x => g x && f x) l.
Proof.
  induction l as [|x l IH]; [reflexivity|]. cbn [filter].
  destruct (g x); cbn [filter andb]; [destruct (f x)|]; now rewrite IH.
Qed.

Lemma filter_true {A : Type} (l : list A) : filter (fun _ => true) l = l.
Proof. induction l as [|x l IH]; cbn; congruence. Qed.

Lemma applyFilters_filter (products : list Product) (f : SearchFilters) :
  applyFilters products (Some f) = filter (passes f) products.
Proof.
  unfold applyFilters, passes.
  destruct (vendors f) as [vs|]; [destruct (0 <? length vs)%nat|];
    destruct (priceRange f) as [range|];
    destruct (inStock f) as [[|]|];
    rewrite ?filter_filter;
    try (apply filter_ext; intro p; cbn [andb];
         now rewrite ?andb_assoc, ?andb_true_r);
    symmetry; apply filter_true.
Qed.

Lemma inactive_passes (f : SearchFilters) (p : Product) :
  hooks.hasActiveFilters (Some f) = false -> passes f p = true.
Proof.
  unfold hooks.hasActiveFilters, passes. intro H.
  apply orb_false_iff in H. destruct H as [H Hs].
  apply orb_false_iff in H. destruct H as [Hv Hr].
  destruct (priceRange f); [discriminate|].
  destruct (vendors f) as [vs|]; [rewrite Hv|];
    destruct (inStock f) as [[|]|]; try discriminate; reflexivity.
Qed.

Lemma inactive_identity (products : list Product) (filters : option SearchFilters) :
  hooks.hasActiveFilters filters = false -> applyFilters products filters = products.
Proof.
  destruct filters as [f|]; [|reflexivity]. intro H.
  rewrite applyFilters_filter.
  rewrite (filter_ext (passes f) (fun _ => true)); [apply filter_true|].
  intro p. now apply inactive_passes.
Qed.

End FilterFacts.

(** X11: [applyFilters] keeps, in their order, exactly the records that
    pass the three tests together; filtering twice changes nothing, and
    two sets of filters apply in either order. *)
Theorem applyFilters_is_filter (products : list Product) (f g : SearchFilters) :
  applyFilters products (Some f) = filter (passes f) products
  /\ (forall p : Product,
        In p (applyFilters products (Some f)) <-> In p products /\ passes f p = true)
  /\ applyFilters (applyFilters products (Some f)) (Some f)
     = applyFilters products (Some f)
  /\ applyFilters (applyFilters products (Some f)) (Some g)
     = applyFilters (applyFilters products (Some g)) (Some f).
Proof.
  rewrite !FilterFacts.applyFilters_filter. split; [reflexivity|].
  split; [intro p; apply filter_In|]. split.
  - rewrite FilterFacts.filter_filter. apply filter_ext.
    intro p. now destruct (passes f p).
  - rewrite !FilterFacts.filter_filter. apply filter_ext.
    intro p. apply andb_comm.
Qed.

(** X12: filters that [useProductSearch] does not count as active
    filter nothing. *)
Theorem inactive_filters_keep_all (products : list Product)
        (filters : option SearchFilters) :
  hooks.hasActiveFilters filters = false -> applyFilters products filters = products.
Proof.
  apply FilterFacts.inactive_identity.
Qed.

(** The hypothesis of [inactive_filters_keep_all] on filters with an
    empty vendor list and the stock filter off. *)
Lemma inactive_filters_keep_all_witness :
  applyFilters mockProducts
    (Some {| vendors := Some []; priceRange := None; inStock := Some false |})
  = mockProducts.
Proof.
  apply (inactive_filters_keep_all mockProducts
           (Some {| vendors := Some []; priceRange := None; inStock := Some false |})).
  reflexivity.
Defined.

(** ** The handlers of the sidebar *)

Module SidebarFacts.
Import FilterSidebar.

Lemma updateFilters_cases (filters : option SearchFilters) (patch : FilterPatch) :
  (updateFilters filters patch = Some (updatedFilters filters patch)
   /\ hooks.hasActiveFilters (Some (updatedFilters filters patch)) = true)
  \/ (updateFilters filters patch = None
      /\ hooks.hasActiveFilters (Some (updatedFilters filters patch)) = false).
Proof.
  unfold updateFilters, hooks.hasActiveFilters.
  destruct (_ || _ || _); [left|right]; split; reflexivity.
Qed.

Lemma updateFilters_vendors (filters : option SearchFilters) (patch : FilterPatch) :
  selectedVendors (updateFilters filters patch)
  = selectedVendors (Some (updatedFilters filters patch)).
Proof.
  destruct (updateFilters_cases filters patch) as [[-> _]|[-> H]]; [reflexivity|].
  unfold hooks.hasActiveFilters in H.
  apply orb_false_iff in H. destruct H as [H _].
  apply orb_false_iff in H. destruct H as [H _].
  unfold selectedVendors, currentVendors.
  destruct (vendors (updatedFilters filters patch)) as [[|v vs]|];
    [reflexivity|discriminate|reflexivity].
Qed.

Lemma updateFilters_priceRange (filters : option SearchFilters) (patch : FilterPatch) :
  currentPriceRange (updateFilters filters patch)
  = priceRange (updatedFilters filters patch).
Proof.
  destruct (updateFilters_cases filters patch) as [[-> _]|[-> H]]; [reflexivity|].
  unfold hooks.hasActiveFilters in H.
  apply orb_false_iff in H. destruct H as [H _].
  apply orb_false_iff in H. destruct H as [_ H].
  cbn [currentPriceRange].
  destruct (priceRange (updatedFilters filters patch)); [discriminate|reflexivity].
Qed.

Lemma updateFilters_inStock (filters : option SearchFilters) (patch : FilterPatch) :
  inStockOnly (updateFilters filters patch)
  = inStockOnly (Some (updatedFilters filters patch)).
Proof.
  destruct (updateFilters_cases filters patch) as [[-> _]|[-> H]]; [reflexivity|].
  unfold hooks.hasActiveFilters in H.
  apply orb_false_iff in H. destruct H as [_ H].
  unfold inStockOnly, currentInStock.
  destruct (inStock (updatedFilters filters patch)) as [[|]|];
    [discriminate|reflexivity|reflexivity].
Qed.

Lemma toggled_vendors (filters : option SearchFilters) (v : string) :
  selectedVendors (toggleVendor filters v)
  = if existsb (String.eqb v) (selectedVendors filters)
    then filter (fun w => negb (w =? v)%string) (selectedVendors filters)
    else selectedVendors filters ++ [v].
Proof.
  unfold toggleVendor. rewrite updateFilters_vendors.
  unfold selectedVendors at 1. unfold currentVendors, updatedFilters.
  cbn [vendors patchVendors].
  destruct (if existsb (String.eqb v) (selectedVendors filters)
            then filter (fun w => negb (w =? v)%string) (selectedVendors filters)
            else selectedVendors filters ++ [v]) as [|w l]; reflexivity.
Qed.

Lemma existsb_eqb (v : string) (l : list string) :
  existsb (String.eqb v) l = true <-> In v l.
Proof.
  rewrite existsb_exists. split.
  - intros (w & Hw & E). apply String.eqb_eq in E. now subst.
  - intro H. exists v. split; [exact H | apply String.eqb_refl].
Qed.

End SidebarFacts.

(** X13: the value [updateFilters] hands over filters the catalogue as
    the updated filters do, and it is a filter object exactly when
    [useProductSearch] counts the updated filters as active. *)
Theorem updateFilters_same_filtering (products : list Product)
        (filters : option SearchFilters) (patch : FilterSidebar.FilterPatch) :
  applyFilters products (FilterSidebar.updateFilters filters patch)
  = applyFilters products (Some (FilterSidebar.updatedFilters filters patch))
  /\ hooks.hasActiveFilters (FilterSidebar.updateFilters filters patch)
     = match FilterSidebar.updateFilters filters patch with
       | Some _ => true
       | None => false
       end.
Proof.
  destruct (SidebarFacts.updateFilters_cases filters patch) as [[-> H]|[-> H]].
  - split; [reflexivity | exact H].
  - split; [|reflexivity]. change (applyFilters products None) with products.
    symmetry. now apply FilterFacts.inactive_identity.
Qed.

Module HandlerFacts.
Import FilterSidebar.

(** [applyFilters] reads the filters through the three views of the
    sidebar only. *)
Lemma applyFilters_views (products : list Product) (filters : option SearchFilters) :
  applyFilters products filters
  = filter (fun p =>
              (if (0 <? length (selectedVendors filters))%nat
               then existsb (fun v => (v =? vendor p)%string) (selectedVendors filters)
               else true)
              && match currentPriceRange filters with
                 | Some range => JSNumber.ge (amount (price p)) (min range)
                                 && JSNumber.le (amount (price p)) (max range)
                 | None => true
                 end
              && (if inStockOnly filters
                  then JSNumber.gt (inventory p) JSNumber.zero else true))
           products.
Proof.
  destruct filters as [f|].
  - rewrite FilterFacts.applyFilters_filter. apply filter_ext. intro p.
    unfold passes, selectedVendors, inStockOnly, currentVendors, currentPriceRange,
      currentInStock.
    destruct (vendors f) as [vs|], (inStock f) as [[|]|]; reflexivity.
  - cbn. symmetry. apply FilterFacts.filter_true.
Qed.

Lemma same_views (products : list Product) (f g : option SearchFilters) :
  selectedVendors f = selectedVendors g ->
  currentPriceRange f = currentPriceRange g ->
  inStockOnly f = inStockOnly g ->
  applyFilters products f = applyFilters products g.
Proof.
  intros Hv Hr Hs. rewrite !applyFilters_views, Hv, Hr, Hs. reflexivity.
Qed.

Lemma filter_other (v : string) (l : list string) :
  ~ In v l -> filter (fun w => negb (w =? v)%string) l = l.
Proof.
  induction l as [|x l IH]; intro H; [reflexivity|]. cbn [filter].
  destruct (String.eqb_spec x v) as [->|_].
  - exfalso. apply H. now left.
  - cbn [negb]. rewrite IH; [reflexivity|]. intro Hin. apply H. now right.
Qed.

End HandlerFacts.

(** X14: [toggleVendor] flips the selection of its vendor and of no
    other, leaves the price range and the stock filter as they are, and
    toggling a vendor that was not selected twice restores the
    selection. *)
Theorem toggleVendor_flips (filters : option SearchFilters) (v : string) :
  (forall w : string,
      In w (FilterSidebar.selectedVendors (FilterSidebar.toggleVendor filters v))
      <-> if (w =? v)%string
          then ~ In v (FilterSidebar.selectedVendors filters)
          else In w (FilterSidebar.selectedVendors filters))
  /\ FilterSidebar.currentPriceRange (FilterSidebar.toggleVendor filters v)
     = FilterSidebar.currentPriceRange filters
  /\ FilterSidebar.inStockOnly (FilterSidebar.toggleVendor filters v)
     = FilterSidebar.inStockOnly filters
  /\ (~ In v (FilterSidebar.selectedVendors filters) ->
      FilterSidebar.selectedVendors
        (FilterSidebar.toggleVendor (FilterSidebar.toggleVendor filters v) v)
      = FilterSidebar.selectedVendors filters).
Proof.
  split; [|split; [|split]].
  - intro w. rewrite SidebarFacts.toggled_vendors.
    destruct (existsb (String.eqb v) (FilterSidebar.selectedVendors filters)) eqn:E.
    + apply SidebarFacts.existsb_eqb in E. rewrite filter_In.
      destruct (String.eqb_spec w v) as [->|Hwv]; cbn [negb].
      * split; [intros [_ H]; discriminate | intro H; contradiction].
      * split; [intros [H _]; exact H | intro H; now split].
    + assert (Hv : ~ In v (FilterSidebar.selectedVendors filters)).
      { intro H. apply SidebarFacts.existsb_eqb in H. congruence. }
      rewrite in_app_iff. destruct (String.eqb_spec w v) as [->|Hwv].
      * split; [intros _; exact Hv | intros _; right; now left].
      * split; [intros [H|[H|[]]]; [exact H | congruence] | intro H; now left].
  - unfold FilterSidebar.toggleVendor. apply SidebarFacts.updateFilters_priceRange.
  - unfold FilterSidebar.toggleVendor. rewrite SidebarFacts.updateFilters_inStock.
    reflexivity.
  - intro Hv. rewrite !SidebarFacts.toggled_vendors.
    assert (E : existsb (String.eqb v) (FilterSidebar.selectedVendors filters) = false).
    { destruct (existsb _ _) eqn:E; [|reflexivity].
      apply SidebarFacts.existsb_eqb in E. contradiction. }
    rewrite E.
    assert (E' : existsb (String.eqb v) (FilterSidebar.selectedVendors filters ++ [v])
                 = true).
    { apply SidebarFacts.existsb_eqb, in_or_app. right. now left. }
    rewrite E', filter_app, (HandlerFacts.filter_other v _ Hv).
    cbn [filter]. rewrite String.eqb_refl. cbn [negb]. apply app_nil_r.
Qed.

(** The hypothesis of [toggleVendor_flips] on a sidebar without
    filters. *)
Lemma toggleVendor_flips_witness :
  FilterSidebar.selectedVendors
    (FilterSidebar.toggleVendor (FilterSidebar.toggleVendor None "Healf") "Healf")
  = FilterSidebar.selectedVendors None.
Proof.
  apply (toggleVendor_flips None "Healf"). intros [].
Defined.

(** X15: [toggleInStock] negates the stock filter and [updatePriceRange]
    sets the price range; each leaves the other filters as they are, and
    toggling the stock filter twice restores the filtering. *)
Theorem sidebar_handlers_local (products : list Product)
        (filters : option SearchFilters) (lo hi : number) :
  (FilterSidebar.inStockOnly (FilterSidebar.toggleInStock filters)
   = negb (FilterSidebar.inStockOnly filters)
   /\ FilterSidebar.selectedVendors (FilterSidebar.toggleInStock filters)
      = FilterSidebar.selectedVendors filters
   /\ FilterSidebar.currentPriceRange (FilterSidebar.toggleInStock filters)
      = FilterSidebar.currentPriceRange filters)
  /\ (FilterSidebar.currentPriceRange (FilterSidebar.updatePriceRange filters lo hi)
      = Some {| min := lo; max := hi |}
      /\ FilterSidebar.selectedVendors (FilterSidebar.updatePriceRange filters lo hi)
         = FilterSidebar.selectedVendors filters
      /\ FilterSidebar.inStockOnly (FilterSidebar.updatePriceRange filters lo hi)
         = FilterSidebar.inStockOnly filters)
  /\ applyFilters products
       (FilterSidebar.toggleInStock (FilterSidebar.toggleInStock filters))
     = applyFilters products filters.
Proof.
  assert (Hs : forall f, FilterSidebar.inStockOnly (FilterSidebar.toggleInStock f)
                         = negb (FilterSidebar.inStockOnly f)).
  { intro f. unfold FilterSidebar.toggleInStock.
    now rewrite SidebarFacts.updateFilters_inStock. }
  assert (Hv : forall f, FilterSidebar.selectedVendors (FilterSidebar.toggleInStock f)
                         = FilterSidebar.selectedVendors f).
  { intro f. unfold FilterSidebar.toggleInStock.
    now rewrite SidebarFacts.updateFilters_vendors. }
  assert (Hr : forall f, FilterSidebar.currentPriceRange (FilterSidebar.toggleInStock f)
                         = FilterSidebar.currentPriceRange f).
  { intro f. unfold FilterSidebar.toggleInStock.
    now rewrite SidebarFacts.updateFilters_priceRange. }
  split; [auto|]. split.
  - unfold FilterSidebar.updatePriceRange.
    rewrite SidebarFacts.updateFilters_priceRange, SidebarFacts.updateFilters_vendors,
      SidebarFacts.updateFilters_inStock.
    repeat split.
  - apply HandlerFacts.same_views.
    + now rewrite !Hv.
    + now rewrite !Hr.
    + rewrite !Hs. apply negb_involutive.
Qed.

(** ** The counts of the vendors *)

Module CountFacts.
Import FilterSidebar.

Lemma total_cons (k : string) (n : nat) (counts : list (string * nat)) :
  total ((k, n) :: counts) = n + total counts.
Proof. reflexivity. Qed.

Lemma countOf_countVendor (counts : list (string * nat)) (v w : string) :
  countOf (countVendor counts v) w
  = if (v =? w)%string
    then Some (S (match countOf counts w with Some n => n | None => 0 end))
    else countOf counts w.
Proof.
  induction counts as [|[k n] counts IH]; cbn [countVendor countOf].
  - destruct (v =? w)%string; reflexivity.
  - destruct (String.eqb_spec k v) as [->|Hkv]; cbn [countOf].
    + destruct (v =? w)%string; reflexivity.
    + destruct (String.eqb_spec k w) as [->|Hkw].
      * destruct (String.eqb_spec v w) as [->|_]; [congruence|reflexivity].
      * exact IH.
Qed.

Lemma total_countVendor (counts : list (string * nat)) (v : string) :
  total (countVendor counts v) = S (total counts).
Proof.
  induction counts as [|[k n] counts IH]; cbn [countVendor]; [reflexivity|].
  destruct (k =? v)%string; rewrite !total_cons, ?IH; lia.
Qed.

Lemma keys_countVendor (counts : list (string * nat)) (v : string) :
  NoDup (map fst counts) ->
  NoDup (map fst (countVendor counts v))
  /\ forall k : string, In k (map fst (countVendor counts v))
                        <-> k = v \/ In k (map fst counts).
Proof.
  induction counts as [|[k n] counts IH]; intro Hnd; cbn [countVendor map fst].
  - split; [constructor; [intros []|constructor]|].
    intro k. cbn. split; [intros [H|[]]; now left | intros [H|[]]; now left].
  - inversion Hnd as [|? ? Hk Hnd']; subst.
    destruct (String.eqb_spec k v) as [->|Hkv]; cbn [map fst].
    + split; [exact Hnd|]. intro k. cbn [In]. split; [auto|].
      intros [->|H]; [now left|exact H].
    + destruct (IH Hnd') as [IH1 IH2]. split.
      * constructor; [|exact IH1]. rewrite IH2. intros [H|H]; [congruence|contradiction].
      * intro k'. cbn [In]. rewrite IH2. tauto.
Qed.

Lemma fold_countOf (products : list Product) (w : string) :
  forall counts : list (string * nat),
    countOf (fold_left (fun counts p => countVendor counts (vendor p)) products counts) w
    = match occurrences products w with
      | 0 => countOf counts w
      | S n => Some (match countOf counts w with Some m => m | None => 0 end + S n)
      end.
Proof.
  unfold occurrences.
  induction products as [|p products IH]; intro counts; [reflexivity|].
  cbn [fold_left filter]. rewrite IH, countOf_countVendor.
  destruct (String.eqb_spec (vendor p) w) as [E|E]; cbn [length].
  - destruct (length (filter _ products)); f_equal; lia.
  - reflexivity.
Qed.

Lemma fold_total (products : list Product) :
  forall counts : list (string * nat),
    total (fold_left (fun counts p => countVendor counts (vendor p)) products counts)
    = total counts + length products.
Proof.
  induction products as [|p products IH]; intro counts; cbn [fold_left length]; [lia|].
  rewrite IH, total_countVendor. lia.
Qed.

Lemma fold_keys (products : list Product) :
  forall counts : list (string * nat),
    NoDup (map fst counts) ->
    NoDup (map fst (fold_left (fun counts p => countVendor counts (vendor p))
                              products counts)).
Proof.
  induction products as [|p products IH]; intros counts H; cbn [fold_left]; [exact H|].
  apply IH. now apply keys_countVendor.
Qed.

End CountFacts.

(** X16: the count the sidebar shows for a vendor is the number of
    records of that vendor, and a vendor without a record has no count;
    the counts sum to the number of records and no vendor is counted
    twice. *)
Theorem vendorCounts_counts (products : list Product) :
  (forall v : string,
      FilterSidebar.countOf (FilterSidebar.vendorCounts products) v
      = match occurrences products v with
        | 0 => None
        | S n => Some (S n)
        end)
  /\ total (FilterSidebar.vendorCounts products) = length products
  /\ NoDup (map fst (FilterSidebar.vendorCounts products)).
Proof.
  unfold FilterSidebar.vendorCounts. split; [|split].
  - intro v. rewrite CountFacts.fold_countOf. cbn [FilterSidebar.countOf].
    destruct (occurrences products v); reflexivity.
  - rewrite CountFacts.fold_total. reflexivity.
  - apply CountFacts.fold_keys. constructor.
Qed.

(** ** The vendors of a catalogue *)

Module VendorFacts.
Import searchEngineHelpers.

Lemma setAdd_In (set : list string) (v w : string) :
  In w (setAdd set v) <-> w = v \/ In w set.
Proof.
  unfold setAdd. destruct (existsb (String.eqb v) set) eqn:E.
  - apply SidebarFacts.existsb_eqb in E. split; [auto|]. intros [->|H]; assumption.
  - rewrite in_app_iff. cbn [In]. split; [intros [H|[H|[]]]; auto | intros [H|H]; auto].
Qed.

Lemma setAdd_NoDup (set : list string) (v : string) :
  NoDup set -> NoDup (setAdd set v).
Proof.
  intro H. unfold setAdd. destruct (existsb (String.eqb v) set) eqn:E; [exact H|].
  apply NoDup_app; [exact H | constructor; [intros []|constructor] |].
  intros w Hw [<-|[]].
  apply SidebarFacts.existsb_eqb in Hw. congruence.
Qed.

Lemma fold_setAdd (values : list string) :
  forall set : list string,
    NoDup set ->
    NoDup (fold_left setAdd values set)
    /\ forall w : string, In w (fold_left setAdd values set) <-> In w values \/ In w set.
Proof.
  induction values as [|v values IH]; intros set H; cbn [fold_left].
  - split; [exact H|]. intro w. cbn. tauto.
  - destruct (IH (setAdd set v) (setAdd_NoDup set v H)) as [IH1 IH2].
    split; [exact IH1|]. intro w. rewrite IH2, setAdd_In. cbn [In].
    split; [intros [H'|[H'|H']]; auto | intros [[H'|H']|H']; auto].
Qed.

Lemma compare_trans (a b c : string) :
  String.compare a b = Lt -> String.compare b c = Lt -> String.compare a c = Lt.
Proof.
  rewrite !String_as_OT.cmp_lt. apply String_as_OT.lt_trans.
Qed.

Lemma defaultCompare_exchanged (a b : string) :
  JSNumber.gt (defaultCompare a b) JSNumber.zero = true <-> String.compare a b = Gt.
Proof.
  unfold defaultCompare. destruct (String.compare a b); cbn; split; congruence.
Qed.

(** Before: no later than, in the order of the character codes. *)
Lemma sorted_weakly (l : list string) :
  StronglySorted (fun a b => String.compare a b <> Gt) (JSArray.sort defaultCompare l).
Proof.
  apply JSArrayFacts.sort_sorted with (P := fun _ => True).
  - intros a b c _ _ _ Hab Hbc.
    destruct (String.compare a b) eqn:Eab; [| |congruence].
    + apply String_as_OT.cmp_eq in Eab. now subst.
    + destruct (String.compare b c) eqn:Ebc; [| |congruence].
      * apply String_as_OT.cmp_eq in Ebc. subst. congruence.
      * rewrite (compare_trans a b c Eab Ebc). discriminate.
  - intros a b _ _ H Hgt. apply defaultCompare_exchanged in Hgt. congruence.
  - intros a b _ _ H. apply defaultCompare_exchanged in H.
    assert (Ha : String.compare b a = CompOpp (String.compare a b))
      by apply String_as_OT.cmp_antisym.
    rewrite Ha, H. discriminate.
  - apply Forall_forall. auto.
Qed.

Lemma sorted_strictly (l : list string) :
  NoDup l ->
  StronglySorted (fun a b => String.compare a b <> Gt) l ->
  StronglySorted (fun a b => String.compare a b = Lt) l.
Proof.
  intros Hnd Hs. induction Hs as [|x l Hs IH Hx]; [constructor|].
  inversion Hnd as [|? ? Hnx Hnd']; subst.
  constructor; [now apply IH|].
  rewrite Forall_forall in *. intros y Hy.
  destruct (String.compare x y) eqn:E; [|reflexivity|].
  - apply String_as_OT.cmp_eq in E. subst. contradiction.
  - exfalso. now apply (Hx y Hy).
Qed.

End VendorFacts.

(** X17: [getUniqueVendors] lists the vendors of the catalogue that are
    not the empty string, each once, in strictly ascending order of the
    character codes. *)
Theorem getUniqueVendors_sorted_set (products : list Product) :
  (forall v : string,
      In v (searchEngineHelpers.getUniqueVendors products)
      <-> v <> EmptyString /\ exists p : Product, In p products /\ vendor p = v)
  /\ NoDup (searchEngineHelpers.getUniqueVendors products)
  /\ StronglySorted (fun a b => String.compare a b = Lt)
                    (searchEngineHelpers.getUniqueVendors products).
Proof.
  unfold searchEngineHelpers.getUniqueVendors, searchEngineHelpers.setFrom.
  set (values := filter (fun v => negb (isEmpty v)) (map vendor products)).
  destruct (VendorFacts.fold_setAdd values [] (NoDup_nil _)) as [Hnd Hin].
  assert (Hnd' : NoDup (JSArray.sort searchEngineHelpers.defaultCompare
                          (fold_left searchEngineHelpers.setAdd values []))).
  { apply (Permutation_NoDup (Permutation_sym (JSArrayFacts.sort_perm _ _))), Hnd. }
  split; [|split].
  - intro v. rewrite JSArrayFacts.sort_In, Hin. unfold values.
    rewrite filter_In, in_map_iff. cbn [In]. split.
    + intros [[(p & Hp & Hin') Hne]|[]]. split.
      * intros ->. discriminate Hne.
      * now exists p.
    + intros [Hne (p & Hp & Hv)]. left. split; [now exists p|].
      destruct v; [contradiction|reflexivity].
  - exact Hnd'.
  - apply VendorFacts.sorted_strictly; [exact Hnd' | apply VendorFacts.sorted_weakly].
Qed.

(** ** The price range of a catalogue *)

Module PriceFacts.
Import searchEngineHelpers.

Lemma le_refl (x : number) : x <> NaN -> JSNumber.le x x = true.
Proof.
  destruct x as [| |q|]; cbn; try congruence. intros _. apply Qle_bool_iff, Qle_refl.
Qed.

Lemma lt_false_le (x y : number) :
  x <> NaN -> y <> NaN -> JSNumber.lt x y = false -> JSNumber.le y x = true.
Proof.
  intros Hx Hy. destruct x as [| |p|], y as [| |q|]; cbn; try congruence.
  rewrite JSNumberFacts.Qltb_false, Qle_bool_iff. auto.
Qed.

Lemma le_not_NaN (x y : number) : JSNumber.le x y = true -> x <> NaN /\ y <> NaN.
Proof. destruct x, y; cbn; split; congruence. Qed.

Lemma le_antisym_infinite (x : number) :
  JSNumber.le PosInfinity x = true -> x = PosInfinity.
Proof. destruct x; cbn; congruence. Qed.

Lemma ge_antisym_infinite (x : number) :
  JSNumber.le x NegInfinity = true -> x = NegInfinity.
Proof. destruct x; cbn; congruence. Qed.

Lemma fold_min2 (l : list number) :
  forall acc : number,
    acc <> NaN -> Forall (fun x => x <> NaN) l ->
    let r := fold_left min2 l acc in
    JSNumber.le r acc = true
    /\ Forall (fun x => JSNumber.le r x = true) l
    /\ (r = acc \/ In r l).
Proof.
  induction l as [|x l IH]; intros acc Hacc Hl; cbn [fold_left].
  - split; [now apply le_refl|]. split; [constructor | now left].
  - inversion Hl as [|? ? Hx Hl']; subst.
    assert (Hstep : min2 acc x <> NaN
                    /\ JSNumber.le (min2 acc x) acc = true
                    /\ JSNumber.le (min2 acc x) x = true
                    /\ (min2 acc x = acc \/ min2 acc x = x)).
    { unfold min2. destruct acc as [| |a|], x as [| |b|]; try congruence;
        cbn [JSNumber.isNaN orb];
        try (destruct (JSNumber.lt _ _) eqn:E; try discriminate E);
        repeat split; try discriminate; try reflexivity; auto;
        try (apply le_refl; discriminate);
        try (now apply JSNumberFacts.lt_le);
        try (apply lt_false_le; [discriminate|discriminate|assumption]). }
    destruct Hstep as (Hn & Ha & Hb & Hor).
    destruct (IH (min2 acc x) Hn Hl') as (H1 & H2 & H3).
    split; [exact (JSNumberFacts.le_trans _ _ _ H1 Ha)|]. split.
    + constructor; [exact (JSNumberFacts.le_trans _ _ _ H1 Hb) | exact H2].
    + destruct H3 as [H3|H3]; [|right; now right].
      destruct Hor as [Hor|Hor]; [left | right; left]; congruence.
Qed.

Lemma fold_max2 (l : list number) :
  forall acc : number,
    acc <> NaN -> Forall (fun x => x <> NaN) l ->
    let r := fold_left max2 l acc in
    JSNumber.le acc r = true
    /\ Forall (fun x => JSNumber.le x r = true) l
    /\ (r = acc \/ In r l).
Proof.
  induction l as [|x l IH]; intros acc Hacc Hl; cbn [fold_left].
  - split; [now apply le_refl|]. split; [constructor | now left].
  - inversion Hl as [|? ? Hx Hl']; subst.
    assert (Hstep : max2 acc x <> NaN
                    /\ JSNumber.le acc (max2 acc x) = true
                    /\ JSNumber.le x (max2 acc x) = true
                    /\ (max2 acc x = acc \/ max2 acc x = x)).
    { unfold max2. destruct acc as [| |a|], x as [| |b|]; try congruence;
        cbn [JSNumber.isNaN orb];
        try (destruct (JSNumber.lt _ _) eqn:E; try discriminate E);
        repeat split; try discriminate; try reflexivity; auto;
        try (apply le_refl; discriminate);
        try (now apply JSNumberFacts.lt_le);
        try (apply lt_false_le; [discriminate|discriminate|assumption]). }
    destruct Hstep as (Hn & Ha & Hb & Hor).
    destruct (IH (max2 acc x) Hn Hl') as (H1 & H2 & H3).
    split; [exact (JSNumberFacts.le_trans _ _ _ Ha H1)|]. split.
    + constructor; [exact (JSNumberFacts.le_trans _ _ _ Hb H1) | exact H2].
    + destruct H3 as [H3|H3]; [|right; now right].
      destruct Hor as [Hor|Hor]; [left | right; left]; congruence.
Qed.

Lemma fold_min2_NaN (l : list number) :
  forall acc : number,
    acc = NaN \/ In NaN l -> fold_left min2 l acc = NaN.
Proof.
  induction l as [|x l IH]; intros acc H; cbn [fold_left].
  - destruct H as [H|[]]. exact H.
  - apply IH. destruct H as [->|[->|H]]; [left; reflexivity | left | now right].
    unfold min2. cbn [JSNumber.isNaN]. now rewrite orb_true_r.
Qed.

Lemma fold_max2_NaN (l : list number) :
  forall acc : number,
    acc = NaN \/ In NaN l -> fold_left max2 l acc = NaN.
Proof.
  induction l as [|x l IH]; intros acc H; cbn [fold_left].
  - destruct H as [H|[]]. exact H.
  - apply IH. destruct H as [->|[->|H]]; [left; reflexivity | left | now right].
    unfold max2. cbn [JSNumber.isNaN]. now rewrite orb_true_r.
Qed.

(** The bounds of a catalogue whose amounts are numbers: every amount
    lies between them. *)
Lemma getPriceRange_encloses (products : list Product) (p : Product) :
  Forall (fun p => amount (price p) <> NaN) products ->
  In p products ->
  JSNumber.le (min (getPriceRange products)) (amount (price p)) = true
  /\ JSNumber.le (amount (price p)) (max (getPriceRange products)) = true.
Proof.
  intros Hn Hp. unfold getPriceRange.
  destruct products as [|p0 products]; [contradiction|]. cbn [length Nat.eqb min max].
  set (prices := map (fun p => amount (price p)) (p0 :: products)).
  assert (Hprices : Forall (fun x => x <> NaN) prices).
  { unfold prices. apply Forall_map. exact Hn. }
  assert (Hin : In (amount (price p)) prices).
  { unfold prices. apply in_map_iff. now exists p. }
  destruct (fold_min2 prices PosInfinity ltac:(discriminate) Hprices) as (_ & Hmin & _).
  destruct (fold_max2 prices NegInfinity ltac:(discriminate) Hprices) as (_ & Hmax & _).
  rewrite Forall_forall in Hmin, Hmax. split; [now apply Hmin | now apply Hmax].
Qed.

Lemma full_range_keeps (products : list Product) :
  Forall (fun p => amount (price p) <> NaN) products ->
  applyFilters products
    (Some {| vendors := None;
             priceRange := Some (getPriceRange products);
             inStock := None |})
  = products.
Proof.
  intro Hn. cbn [applyFilters vendors priceRange inStock].
  rewrite <- (FilterFacts.filter_true products) at 2.
  apply filter_ext_in. intros p Hp.
  destruct (getPriceRange_encloses products p Hn Hp) as [H1 H2].
  unfold JSNumber.ge. now rewrite H1, H2.
Qed.

End PriceFacts.

(** X18: on a catalogue whose amounts are numbers, [getPriceRange]
    returns bounds that enclose every amount and that are the amounts of
    records of the catalogue; one amount that is [NaN] makes both bounds
    [NaN], and the empty catalogue has the range from 0 to 0. *)
Theorem getPriceRange_bounds (products : list Product) :
  (Forall (fun p => amount (price p) <> NaN) products ->
   (forall p : Product,
       In p products ->
       JSNumber.le (min (searchEngineHelpers.getPriceRange products)) (amount (price p))
       = true
       /\ JSNumber.le (amount (price p)) (max (searchEngineHelpers.getPriceRange products))
          = true)
   /\ (products <> [] ->
       (exists p : Product,
           In p products
           /\ amount (price p) = min (searchEngineHelpers.getPriceRange products))
       /\ (exists p : Product,
              In p products
              /\ amount (price p) = max (searchEngineHelpers.getPriceRange products))))
  /\ ((exists p : Product, In p products /\ amount (price p) = NaN) ->
      min (searchEngineHelpers.getPriceRange products) = NaN
      /\ max (searchEngineHelpers.getPriceRange products) = NaN)
  /\ (products = [] ->
      searchEngineHelpers.getPriceRange products
      = {| min := JSNumber.zero; max := JSNumber.zero |}).
Proof.
  split; [|split].
  - intro Hn. split; [intros p Hp; now apply PriceFacts.getPriceRange_encloses|].
    intro Hne. unfold searchEngineHelpers.getPriceRange.
    destruct products as [|p0 products]; [contradiction|]. cbn [length Nat.eqb min max].
    set (prices := map (fun p => amount (price p)) (p0 :: products)).
    assert (Hprices : Forall (fun x => x <> NaN) prices).
    { unfold prices. apply Forall_map. exact Hn. }
    destruct (PriceFacts.fold_min2 prices PosInfinity ltac:(discriminate) Hprices)
      as (_ & Hmin & Hmin').
    destruct (PriceFacts.fold_max2 prices NegInfinity ltac:(discriminate) Hprices)
      as (_ & Hmax & Hmax').
    rewrite Forall_forall in Hmin, Hmax.
    assert (H0 : In (amount (price p0)) prices) by (left; reflexivity).
    split.
    + destruct Hmin' as [E|Hin].
      * exists p0. split; [now left|]. unfold searchEngineHelpers.mathMin.
        specialize (Hmin _ H0). rewrite E in Hmin |- *.
        now apply PriceFacts.le_antisym_infinite.
      * unfold prices in Hin. apply in_map_iff in Hin.
        destruct Hin as (p & Hp & Hin). now exists p.
    + destruct Hmax' as [E|Hin].
      * exists p0. split; [now left|]. unfold searchEngineHelpers.mathMax.
        specialize (Hmax _ H0). rewrite E in Hmax |- *.
        now apply PriceFacts.ge_antisym_infinite.
      * unfold prices in Hin. apply in_map_iff in Hin.
        destruct Hin as (p & Hp & Hin). now exists p.
  - intros (p & Hp & Hnan). unfold searchEngineHelpers.getPriceRange.
    destruct products as [|p0 products]; [contradiction|]. cbn [length Nat.eqb min max].
    assert (Hin : In NaN (map (fun p => amount (price p)) (p0 :: products))).
    { apply in_map_iff. now exists p. }
    split; [apply PriceFacts.fold_min2_NaN | apply PriceFacts.fold_max2_NaN]; now right.
  - intros ->. reflexivity.
Qed.

(** The hypotheses of [getPriceRange_bounds] on the records of the test
    suite. *)
Lemma getPriceRange_bounds_witness :
  Forall (fun p => amount (price p) <> NaN) mockProducts
  /\ JSNumber.le (min (searchEngineHelpers.getPriceRange mockProducts))
                 (amount (price wheyProtein)) = true.
Proof.
  assert (H : Forall (fun p => amount (price p) <> NaN) mockProducts)
    by (repeat constructor; discriminate).
  split; [exact H|].
  apply (proj1 (proj1 (getPriceRange_bounds mockProducts) H) wheyProtein).
  left. reflexivity.
Defined.

(** X19: on a catalogue whose amounts are numbers, the price filter set
    to the range of the catalogue keeps every record. *)
Theorem full_price_range_keeps_all (products : list Product) :
  Forall (fun p => amount (price p) <> NaN) products ->
  applyFilters products
    (Some {| vendors := None;
             priceRange := Some (searchEngineHelpers.getPriceRange products);
             inStock := None |})
  = products.
Proof.
  apply PriceFacts.full_range_keeps.
Qed.

(** The hypothesis of [full_price_range_keeps_all] on the records of the
    test suite. *)
Lemma full_price_range_keeps_all_witness :
  applyFilters mockProducts
    (Some {| vendors := None;
             priceRange := Some (searchEngineHelpers.getPriceRange mockProducts);
             inStock := None |})
  = mockProducts.
Proof.
  apply (full_price_range_keeps_all mockProducts).
  repeat constructor; discriminate.
Defined.

(** ** The suggestions of [useProductSearch] *)

Module SuggestionFacts.
Import hooks.

(** What makes a string a suggestion for the normalized query. *)
Lemma consider_spec (normalized candidate : string) (suggestionList : list string) :
  NoDup suggestionList ->
  NoDup (consider normalized candidate suggestionList)
  /\ length (consider normalized candidate suggestionList) <= S (length suggestionList)
  /\ forall s : string,
      In s (consider normalized candidate suggestionList) ->
      In s suggestionList
      \/ (s = candidate /\ candidate <> EmptyString
          /\ occursIn normalized (toLowerCase candidate)).
Proof.
  intro Hnd. unfold consider.
  destruct (negb (isEmpty candidate)
            && includes (toLowerCase candidate) normalized
            && negb (existsb (String.eqb candidate) suggestionList)) eqn:E.
  - apply andb_true_iff in E. destruct E as [E Hnew].
    apply andb_true_iff in E. destruct E as [Hne Hinc].
    apply negb_true_iff in Hnew, Hne.
    split; [|split].
    + apply NoDup_app; [exact Hnd | constructor; [intros []|constructor] |].
      intros w Hw [<-|[]].
      apply SidebarFacts.existsb_eqb in Hw. congruence.
    + rewrite length_app. cbn. lia.
    + intros s Hs. apply in_app_or in Hs. destruct Hs as [Hs|[<-|[]]]; [now left|].
      right. split; [reflexivity|]. split.
      * intros ->. discriminate Hne.
      * now apply JSStringFacts.includes_spec.
  - split; [exact Hnd|]. split; [lia|]. intros s Hs. now left.
Qed.

Lemma suggestLoop_spec (normalized : string) (results : list SearchResult) :
  forall suggestionList : list string,
    NoDup suggestionList -> length suggestionList <= 5 ->
    NoDup (suggestLoop normalized results suggestionList)
    /\ length (suggestLoop normalized results suggestionList) <= 7
    /\ forall s : string,
        In s (suggestLoop normalized results suggestionList) ->
        In s suggestionList
        \/ (s <> EmptyString /\ occursIn normalized (toLowerCase s)
            /\ exists r : SearchResult,
                In r results
                /\ (s = trim (title (product r)) \/ s = trim (vendor (product r)))).
Proof.
  induction results as [|r results IH]; intros acc Hnd Hlen; cbn [suggestLoop].
  - split; [exact Hnd|]. split; [lia|]. intros s Hs. now left.
  - destruct (consider_spec normalized (trim (title (product r))) acc Hnd)
      as (Hnd1 & Hlen1 & Hin1).
    destruct (consider_spec normalized (trim (vendor (product r))) _ Hnd1)
      as (Hnd2 & Hlen2 & Hin2).
    set (acc2 := consider normalized (trim (vendor (product r)))
                          (consider normalized (trim (title (product r))) acc)) in *.
    assert (Hin : forall s, In s acc2 ->
                            In s acc
                            \/ (s <> EmptyString /\ occursIn normalized (toLowerCase s)
                                /\ exists r0, In r0 (r :: results)
                                              /\ (s = trim (title (product r0))
                                                  \/ s = trim (vendor (product r0))))).
    { intros s Hs. apply Hin2 in Hs. destruct Hs as [Hs|(-> & Hne & Hocc)].
      - apply Hin1 in Hs. destruct Hs as [Hs|(-> & Hne & Hocc)]; [now left|].
        right. split; [exact Hne|]. split; [exact Hocc|].
        exists r. split; [now left | now left].
      - right. split; [exact Hne|]. split; [exact Hocc|].
        exists r. split; [now left | now right]. }
    destruct (Nat.leb_spec 6 (length acc2)) as [H6|H6].
    + split; [exact Hnd2|]. split; [lia|]. exact Hin.
    + destruct (IH acc2 Hnd2 ltac:(lia)) as (IH1 & IH2 & IH3).
      split; [exact IH1|]. split; [exact IH2|].
      intros s Hs. apply IH3 in Hs. destruct Hs as [Hs|(Hne & Hocc & r0 & Hr0 & Hs)].
      * now apply Hin.
      * right. split; [exact Hne|]. split; [exact Hocc|].
        exists r0. split; [now right | exact Hs].
Qed.

End SuggestionFacts.

(** X20: the suggestions are at most seven different strings, each the
    trimmed title or vendor, not empty, of a result, and each holds the
    trimmed, lower-cased query, which has two characters or more; seven
    suggestions do occur. *)
Theorem suggestions_sound (query : string) (results : list SearchResult) :
  NoDup (hooks.suggestions query results)
  /\ length (hooks.suggestions query results) <= 7
  /\ (forall s : string,
        In s (hooks.suggestions query results) ->
        s <> EmptyString
        /\ 2 <= String.length (toLowerCase (trim query))
        /\ occursIn (toLowerCase (trim query)) (toLowerCase s)
        /\ exists r : SearchResult,
            In r results
            /\ (s = trim (title (product r)) \/ s = trim (vendor (product r))))
  /\ exists (query0 : string) (results0 : list SearchResult),
      length (hooks.suggestions query0 results0) = 7.
Proof.
  unfold hooks.suggestions.
  destruct (Nat.ltb_spec (String.length (toLowerCase (trim query))) 2) as [Hlt|Hge].
  - split; [constructor|]. split; [cbn; lia|]. split; [intros s []|].
    exists "ab", (map unscored [dated "ab" ""; priced "ab1" NaN; priced "ab2" NaN;
                                priced "ab3" NaN; priced "ab4" NaN;
                                {| id := ""; title := "ab5"; handle := ""; vendor := "ab6";
                                   productType := ""; description := ""; bodyHtml := "";
                                   tags := []; status := ""; createdAt := "";
                                   updatedAt := ""; price := gbp 1; compareAtPrice := None;
                                   inventory := NaN; images := []; rating := None;
                                   reviewCount := None |}]).
    reflexivity.
  - destruct (SuggestionFacts.suggestLoop_spec (toLowerCase (trim query)) results []
                (NoDup_nil _) ltac:(cbn; lia)) as (H1 & H2 & H3).
    split; [exact H1|]. split; [exact H2|]. split.
    + intros s Hs. apply H3 in Hs. destruct Hs as [[]|(Hne & Hocc & Hr)].
      repeat split; assumption.
    + exists "ab", (map unscored [dated "ab" ""; priced "ab1" NaN; priced "ab2" NaN;
                                  priced "ab3" NaN; priced "ab4" NaN;
                                  {| id := ""; title := "ab5"; handle := ""; vendor := "ab6";
                                     productType := ""; description := ""; bodyHtml := "";
                                     tags := []; status := ""; createdAt := "";
                                     updatedAt := ""; price := gbp 1;
                                     compareAtPrice := None;
                                     inventory := NaN; images := []; rating := None;
                                     reviewCount := None |}]).
      reflexivity.
Qed.

(** ** The cart and the pages of results *)

Module CartFacts.
Import page.

Lemma fold_quantity (cartItems : list CartItem) :
  forall sum : Z,
    fold_left (fun sum item => (sum + quantity item)%Z) cartItems sum
    = (sum + cartCount cartItems)%Z.
Proof.
  unfold cartCount.
  induction cartItems as [|item cartItems IH]; intro sum; cbn [fold_left]; [lia|].
  rewrite IH, (IH (0 + quantity item)%Z). lia.
Qed.

Lemma cartCount_cons (item : CartItem) (cartItems : list CartItem) :
  cartCount (item :: cartItems) = (quantity item + cartCount cartItems)%Z.
Proof.
  unfold cartCount at 1. cbn [fold_left]. rewrite fold_quantity. lia.
Qed.

Lemma cartCount_app (a b : list CartItem) :
  cartCount (a ++ b) = (cartCount a + cartCount b)%Z.
Proof.
  induction a as [|item a IH]; [reflexivity|].
  cbn [app]. rewrite !cartCount_cons, IH. lia.
Qed.

Lemma existsb_sameProduct (productId : string) (cartItems : list CartItem) :
  existsb (sameProduct productId) cartItems = true
  <-> In productId (map cartIds cartItems).
Proof.
  rewrite existsb_exists, in_map_iff. unfold sameProduct, cartIds.
  split; intros (item & H1 & H2).
  - exists item. split; [now apply String.eqb_eq | exact H1].
  - exists item. split; [exact H2 | now apply String.eqb_eq].
Qed.

(** Raising the quantity of the item of [productId] keeps the
    products. *)
Lemma raised_ids (productId : string) (cartItems : list CartItem) :
  map cartIds
      (map (fun item =>
              if sameProduct productId item
              then {| cartProduct := cartProduct item;
                      quantity := (quantity item + 1)%Z |}
              else item) cartItems)
  = map cartIds cartItems.
Proof.
  rewrite map_map. apply map_ext. intro item.
  now destruct (sameProduct productId item).
Qed.

Lemma raised_count (productId : string) (cartItems : list CartItem) :
  NoDup (map cartIds cartItems) ->
  In productId (map cartIds cartItems) ->
  cartCount
    (map (fun item =>
            if sameProduct productId item
            then {| cartProduct := cartProduct item;
                    quantity := (quantity item + 1)%Z |}
            else item) cartItems)
  = (cartCount cartItems + 1)%Z.
Proof.
  induction cartItems as [|item cartItems IH]; intros Hnd Hin; [contradiction|].
  cbn [map] in *. inversion Hnd as [|? ? Hnew Hnd']; subst.
  rewrite !cartCount_cons. unfold sameProduct at 1.
  destruct (String.eqb_spec (id (cartProduct item)) productId) as [E|E].
  - cbn [quantity].
    rewrite (map_ext_in _ (fun item => item)), map_id; [lia|].
    intros other Hother. unfold sameProduct.
    destruct (String.eqb_spec (id (cartProduct other)) productId) as [E'|_];
      [|reflexivity].
    exfalso. apply Hnew. unfold cartIds at 1. rewrite E, <- E'.
    apply in_map_iff. now exists other.
  - destruct Hin as [Hin|Hin]; [unfold cartIds in Hin; congruence|].
    rewrite (IH Hnd' Hin). lia.
Qed.



End CartFacts.

(** X21: on a cart that lists no product twice, [handleAddToCart] adds
    one to the number of items, keeps the cart free of doubles and the
    quantities positive, and leaves the product in the cart; a product
    that was in the cart keeps its place. *)
Theorem handleAddToCart_adds_one (prev : list page.CartItem) (p : Product) :
  NoDup (map cartIds prev) ->
  page.cartCount (page.handleAddToCart prev p) = (page.cartCount prev + 1)%Z
  /\ NoDup (map cartIds (page.handleAddToCart prev p))
  /\ In (id p) (map cartIds (page.handleAddToCart prev p))
  /\ (Forall (fun item => (1 <= page.quantity item)%Z) prev ->
      Forall (fun item => (1 <= page.quantity item)%Z) (page.handleAddToCart prev p))
  /\ (In (id p) (map cartIds prev) ->
      map cartIds (page.handleAddToCart prev p) = map cartIds prev).
Proof.
  intro Hnd. unfold page.handleAddToCart.
  destruct (existsb (page.sameProduct (id p)) prev) eqn:E.
  - apply CartFacts.existsb_sameProduct in E.
    rewrite CartFacts.raised_ids. split; [now apply CartFacts.raised_count|].
    split; [exact Hnd|]. split; [exact E|]. split; [|reflexivity].
    intro Hq. apply Forall_map. apply (Forall_impl _ (P := fun item => (1 <= page.quantity item)%Z));
      [|exact Hq].
    intros item Hitem. destruct (page.sameProduct (id p) item); cbn [page.quantity]; lia.
  - assert (Hnew : ~ In (id p) (map cartIds prev)).
    { intro H. apply CartFacts.existsb_sameProduct in H. congruence. }
    rewrite CartFacts.cartCount_app, map_app. cbn [map].
    split; [reflexivity|]. split; [|split; [|split]].
    + apply NoDup_app; [exact Hnd | constructor; [intros []|constructor] |].
      intros w Hw [<-|[]]. contradiction.
    + apply in_or_app. right. now left.
    + intro Hq. apply Forall_app. split; [exact Hq|].
      constructor; [cbn; lia | constructor].
    + intro H. contradiction.
Qed.

(** The hypothesis of [handleAddToCart_adds_one] on a cart of one
    product, added again. *)
Lemma handleAddToCart_adds_one_witness :
  page.cartCount
    (page.handleAddToCart [ {| page.cartProduct := wheyProtein; page.quantity := 2 |} ]
                          wheyProtein)
  = 3%Z.
Proof.
  apply (handleAddToCart_adds_one
           [ {| page.cartProduct := wheyProtein; page.quantity := 2 |} ] wheyProtein).
  repeat constructor. intros [].
Defined.



(** X23: the visible results are the first [displayedItems] results;
    there are more results exactly when some result is not visible, and
    then loading a page of at least one item shows more. *)
Theorem pagination_shows_more (results : list SearchResult)
        (displayedItems itemsPerPage : Z) :
  (0 <= displayedItems)%Z ->
  page.visibleResults results displayedItems
  = firstn (Z.to_nat displayedItems) results
  /\ (page.hasMoreResults results displayedItems = false
      <-> page.visibleResults results displayedItems = results)
  /\ ((1 <= itemsPerPage)%Z ->
      page.hasMoreResults results displayedItems = true ->
      length (page.visibleResults results displayedItems)
      < length (page.visibleResults results
                                    (page.handleLoadMore displayedItems itemsPerPage))).
Proof.
  intro Hd. unfold page.visibleResults, page.hasMoreResults, page.handleLoadMore,
              JSArray.slice0.
  destruct (Z.leb_spec 0 displayedItems) as [_|]; [|lia].
  split; [reflexivity|]. split.
  - rewrite Z.ltb_ge. split.
    + intro H. apply firstn_all2. lia.
    + intro H. apply (f_equal (@length _)) in H. rewrite length_firstn in H. lia.
  - intros Hp Hmore. apply Z.ltb_lt in Hmore.
    destruct (Z.leb_spec 0 (displayedItems + itemsPerPage)) as [_|]; [|lia].
    rewrite !length_firstn. lia.
Qed.

(** The hypotheses of [pagination_shows_more] on the records of the test
    suite, one shown, pages of one. *)
Lemma pagination_shows_more_witness :
  length (page.visibleResults (map unscored mockProducts) 1)
  < length (page.visibleResults (map unscored mockProducts) (page.handleLoadMore 1 1)).
Proof.
  apply (pagination_shows_more (map unscored mockProducts) 1 1); [lia|lia|reflexivity].
Defined.

(** ** The fields of a line *)

Module LineFacts.
Import WordFacts.

Lemma trimStart_fixed (c : ascii) (s : string) :
  isWhitespace c = false -> trimStart (String c s) = String c s.
Proof. intro H. cbn. now rewrite H. Qed.

Lemma trim_idempotent (s : string) : trim (trim s) = trim s.
Proof.
  destruct (trim s) as [|c t] eqn:E; [reflexivity|].
  pose proof (trim_head s c t E) as Hc.
  unfold trim at 1. rewrite (trimStart_fixed c t Hc), <- E.
  unfold trim. apply trimEnd_idempotent.
Qed.

Lemma noChar_trimStart (f : ascii -> bool) (s : string) :
  noChar f s = true -> noChar f (trimStart s) = true.
Proof.
  induction s as [|c s IH]; [reflexivity|]. intro H. cbn [trimStart].
  destruct (isWhitespace c); [|exact H].
  apply IH. cbn in H. apply andb_true_iff in H. exact (proj2 H).
Qed.

Lemma noChar_trimEnd (f : ascii -> bool) (s : string) :
  noChar f s = true -> noChar f (trimEnd s) = true.
Proof.
  induction s as [|c s IH]; [reflexivity|]. intro H. cbn [trimEnd].
  cbn in H. apply andb_true_iff in H. destruct H as [Hc Hs].
  destruct (isWhitespace c && isEmpty (trimEnd s)); [reflexivity|].
  cbn. now rewrite Hc, IH.
Qed.

Lemma noChar_trim (f : ascii -> bool) (s : string) :
  noChar f s = true -> noChar f (trim s) = true.
Proof. intro H. now apply noChar_trimEnd, noChar_trimStart. Qed.

(** Outside quotes and without a quote ahead, [parseCSVLine] cuts at the
    commas. *)
Lemma parseCSVLineFrom_plain (line : string) :
  forall (result : list string) (current : string),
    noChar isQuote line = true ->
    parseCSVLineFrom result current false line
    = result ++ map trim (splitCharFrom ","%char current line).
Proof.
  induction line as [|c line IH]; intros result current H; [reflexivity|].
  cbn in H. apply andb_true_iff in H. destruct H as [Hc Hline].
  apply negb_true_iff in Hc. unfold isQuote in Hc.
  cbn [parseCSVLineFrom splitCharFrom]. rewrite Hc.
  destruct (Ascii.eqb c ","%char); cbn [andb negb].
  - rewrite IH by assumption. cbn [map]. now rewrite <- app_assoc.
  - now apply IH.
Qed.

Lemma parseCSVLineFrom_bounded (n : nat) :
  forall (line : string) (result : list string) (current : string) (inQuotes : bool),
    String.length line <= n ->
    exists fields : list string,
      parseCSVLineFrom result current inQuotes line = result ++ fields
      /\ fields <> []
      /\ Forall (fun f => trim f = f) fields.
Proof.
  induction n as [|n IH]; intros line result current inQuotes Hn.
  - destruct line; [|cbn in Hn; lia].
    exists [trim current]. split; [reflexivity|]. split; [discriminate|].
    constructor; [apply trim_idempotent | constructor].
  - destruct line as [|c line].
    + exists [trim current]. split; [reflexivity|]. split; [discriminate|].
      constructor; [apply trim_idempotent | constructor].
    + cbn in Hn. cbn [parseCSVLineFrom]. destruct (Ascii.eqb c dquote).
      * destruct line as [|next line'].
        -- apply IH. cbn. lia.
        -- destruct (inQuotes && Ascii.eqb next dquote); apply IH; cbn in *; lia.
      * destruct (Ascii.eqb c ","%char && negb inQuotes); [|apply IH; lia].
        destruct (IH line (result ++ [trim current]) EmptyString inQuotes ltac:(lia))
          as (fields & Heq & Hne & Htrim).
        exists (trim current :: fields). split; [|split].
        -- rewrite Heq. now rewrite <- app_assoc.
        -- discriminate.
        -- constructor; [apply trim_idempotent | exact Htrim].
Qed.

(** Inside quotes, the doubled quotes of a field are read back as the
    field, up to the closing quote. *)
Lemma parseCSVLineFrom_quoted (field : string) :
  forall (result : list string) (current rest : string),
    (forall tail : string, rest <> String dquote tail) ->
    parseCSVLineFrom result current true
                     (doubleQuotes field +++ String dquote rest)
    = parseCSVLineFrom result (current +++ field) false rest.
Proof.
  induction field as [|c field IH]; intros result current rest Hrest.
  - cbn [doubleQuotes String.append parseCSVLineFrom]. rewrite Ascii.eqb_refl.
    rewrite append_nil_r. destruct rest as [|next tail]; [reflexivity|].
    destruct (Ascii.eqb_spec next dquote) as [->|_]; [|reflexivity].
    exfalso. now apply (Hrest tail).
  - cbn [doubleQuotes]. unfold isQuote.
    destruct (Ascii.eqb_spec c dquote) as [->|Hc].
    + cbn [String.append parseCSVLineFrom]. rewrite !Ascii.eqb_refl. cbn [andb].
      rewrite IH by assumption. now rewrite append_assoc.
    + cbn [String.append parseCSVLineFrom].
      destruct (Ascii.eqb_spec c dquote) as [|_]; [contradiction|].
      rewrite andb_false_r, IH by assumption. now rewrite append_assoc.
Qed.

Lemma parseCSVLineFrom_quoteField (field rest : string) (result : list string) :
  (forall tail : string, rest <> String dquote tail) ->
  parseCSVLineFrom result EmptyString false (quoteField field +++ rest)
  = parseCSVLineFrom result field false rest.
Proof.
  intro Hrest. unfold quoteField.
  cbn [String.append parseCSVLineFrom]. rewrite Ascii.eqb_refl. cbn [andb negb].
  assert (E : parseCSVLineFrom result EmptyString true
                ((doubleQuotes field +++ String dquote EmptyString) +++ rest)
              = parseCSVLineFrom result field false rest).
  { rewrite append_assoc. cbn [String.append].
    now rewrite parseCSVLineFrom_quoted. }
  destruct ((doubleQuotes field +++ String dquote EmptyString) +++ rest); exact E.
Qed.

Lemma parseCSVLineFrom_quoted_fields (fields : list string) :
  forall (result : list string) (field : string),
    parseCSVLineFrom result EmptyString false
                     (join "," (map quoteField (field :: fields)))
    = result ++ map trim (field :: fields).
Proof.
  induction fields as [|g fields IH]; intros result field.
  - cbn [map join]. rewrite <- (append_nil_r (quoteField field)).
    rewrite parseCSVLineFrom_quoteField by (intros r; discriminate). reflexivity.
  - change (map quoteField (field :: g :: fields))
      with (quoteField field :: map quoteField (g :: fields)).
    rewrite join_cons by discriminate.
    rewrite parseCSVLineFrom_quoteField by (intros r; discriminate).
    cbn [String.append parseCSVLineFrom].
    change (Ascii.eqb ","%char dquote) with false. cbn [Ascii.eqb andb negb].
    rewrite IH. cbn [map]. now rewrite <- app_assoc.
Qed.

End LineFacts.

(** X24: [parseCSVLine] returns at least one field, every field
    trimmed; on a line without a quote the fields are the pieces between
    the commas, trimmed. *)
Theorem parseCSVLine_fields (line : string) :
  parseCSVLine line <> []
  /\ Forall (fun f => trim f = f) (parseCSVLine line)
  /\ (noChar isQuote line = true ->
      parseCSVLine line = map trim (splitChar ","%char line)).
Proof.
  unfold parseCSVLine.
  destruct (LineFacts.parseCSVLineFrom_bounded (String.length line) line []
              EmptyString false (Nat.le_refl _)) as (fields & Heq & Hne & Htrim).
  cbn [app] in Heq. rewrite Heq. split; [exact Hne|]. split; [exact Htrim|].
  intro H. rewrite <- Heq. now rewrite LineFacts.parseCSVLineFrom_plain.
Qed.

(** The hypothesis of [parseCSVLine_fields] on a header line. *)
Lemma parseCSVLine_fields_witness :
  parseCSVLine "ID, TITLE ,STATUS" = map trim (splitChar ","%char "ID, TITLE ,STATUS").
Proof.
  apply (parseCSVLine_fields "ID, TITLE ,STATUS"). reflexivity.
Defined.

(** X25: a line written from fields, each between quotes with its quotes
    doubled, the fields joined by commas, is read back as the fields,
    trimmed: commas, quotes and line ends inside a field are kept. *)
Theorem parseCSVLine_round_trip (field : string) (fields : list string) :
  parseCSVLine (join "," (map quoteField (field :: fields)))
  = map trim (field :: fields).
Proof.
  unfold parseCSVLine. now rewrite LineFacts.parseCSVLineFrom_quoted_fields.
Qed.

(** ** Tags *)

Module TagFacts.
Import WordFacts LineFacts.

Lemma splitCharFrom_pieces (s : string) :
  forall cur : string,
    noChar isComma cur = true ->
    Forall (fun t => noChar isComma t = true) (splitCharFrom ","%char cur s).
Proof.
  induction s as [|c s IH]; intros cur Hcur; cbn [splitCharFrom].
  - constructor; [exact Hcur | constructor].
  - destruct (Ascii.eqb c ","%char) eqn:E.
    + constructor; [exact Hcur | now apply IH].
    + apply IH. rewrite noChar_append, Hcur. cbn. unfold isComma. now rewrite E.
Qed.

Lemma splitCharFrom_chunk (t : string) :
  forall cur rest : string,
    noChar isComma t = true ->
    splitCharFrom ","%char cur (t +++ rest) = splitCharFrom ","%char (cur +++ t) rest.
Proof.
  induction t as [|c t IH]; intros cur rest H.
  - now rewrite append_nil_r.
  - cbn in H. apply andb_true_iff in H. destruct H as [Hc Ht].
    apply negb_true_iff in Hc. unfold isComma in Hc.
    cbn [String.append splitCharFrom]. rewrite Hc, IH by assumption.
    now rewrite append_assoc.
Qed.

Lemma splitCharFrom_joined (tagList : list string) :
  forall cur t : string,
    Forall (fun t => noChar isComma t = true) (t :: tagList) ->
    splitCharFrom ","%char cur (join ", " (t :: tagList))
    = (cur +++ t) :: map (String.append " ") tagList.
Proof.
  induction tagList as [|u tagList IH]; intros cur t H;
    inversion H as [|? ? Ht Hrest]; subst.
  - cbn [join map]. rewrite <- (append_nil_r t) at 1.
    now rewrite splitCharFrom_chunk.
  - rewrite join_cons by discriminate.
    rewrite splitCharFrom_chunk by assumption.
    cbn [String.append splitCharFrom Ascii.eqb Bool.eqb].
    rewrite (IH " " u Hrest). reflexivity.
Qed.

Lemma parseTags_clean (tagsString : string) : Forall CleanTag (parseTags tagsString).
Proof.
  unfold parseTags. destruct (isEmpty tagsString); [constructor|].
  apply Forall_forall. intros t Ht.
  apply filter_In in Ht. destruct Ht as [Ht Hne].
  apply in_map_iff in Ht. destruct Ht as (piece & <- & Hpiece).
  split; [|split].
  - intro E. rewrite E in Hne. discriminate Hne.
  - apply trim_idempotent.
  - apply noChar_trim.
    pose proof (splitCharFrom_pieces tagsString EmptyString eq_refl) as H.
    rewrite Forall_forall in H. now apply H.
Qed.

Lemma parseTags_joined (tagList : list string) :
  Forall CleanTag tagList -> parseTags (join ", " tagList) = tagList.
Proof.
  intro H. destruct tagList as [|t tagList]; [reflexivity|].
  assert (Hcomma : Forall (fun t => noChar isComma t = true) (t :: tagList)).
  { apply (Forall_impl _ (P := CleanTag)); [|exact H]. now intros a (_ & _ & Ha). }
  unfold parseTags, splitChar.
  assert (Hne : isEmpty (join ", " (t :: tagList)) = false).
  { inversion H as [|? ? (Ht & _) _]; subst.
    destruct t as [|c t]; [contradiction|].
    destruct tagList; reflexivity. }
  rewrite Hne, splitCharFrom_joined by assumption.
  change (EmptyString +++ t) with t. cbn [map filter].
  inversion H as [|? ? (Ht & Htrim & _) Hrest]; subst.
  rewrite Htrim.
  assert (E : (String.length t =? 0)%nat = false) by (destruct t; [contradiction|reflexivity]).
  rewrite E. cbn [negb]. f_equal.
  clear -Hrest. induction Hrest as [|u l (Hu & Htrim & _) Hl IH]; [reflexivity|].
  cbn [map filter].
  change (trim (" " +++ u)) with (trim u). rewrite Htrim.
  assert (E : (String.length u =? 0)%nat = false) by (destruct u; [contradiction|reflexivity]).
  rewrite E. cbn [negb]. now rewrite IH.
Qed.

End TagFacts.

(** X26: every tag [parseTags] returns is not empty, trimmed and without
    a comma, and tags of that kind written with ", " between them are
    read back as they are. *)
Theorem parseTags_round_trip (tagsString : string) (tagList : list string) :
  Forall CleanTag (parseTags tagsString)
  /\ (Forall CleanTag tagList -> parseTags (join ", " tagList) = tagList).
Proof.
  split; [apply TagFacts.parseTags_clean | apply TagFacts.parseTags_joined].
Qed.

(** The hypothesis of [parseTags_round_trip] on the tags of a record of
    the test suite. *)
Lemma parseTags_round_trip_witness :
  parseTags (join ", " ["protein"; "whey"]) = ["protein"; "whey"].
Proof.
  apply (parseTags_round_trip "" ["protein"; "whey"]).
  repeat constructor; discriminate.
Defined.

(** ** Records *)

Module RecordFacts.

Section WithRuntime.
Context {RT : Runtime}.

Lemma rawGetOr_default (raw : RawProductData) (key d : string) :
  d <> EmptyString -> rawGetOr raw key d <> EmptyString.
Proof.
  intro Hd. unfold rawGetOr. destruct (rawGet raw key) as [v|]; [|exact Hd].
  unfold orElse. destruct v; [exact Hd | discriminate].
Qed.

Lemma extractPrice_number (priceJson : option string) (price : Price) :
  extractPrice priceJson = Returned price -> amount price <> NaN.
Proof.
  unfold extractPrice.
  destruct (JSON.getOpt _ _) as [v|];
    [|intro H; injection H as <-; discriminate].
  destruct (JSON.truthy v); [|intro H; injection H as <-; discriminate].
  destruct (numberOf _) as [n|error]; cbn [andThen]; [|discriminate].
  intro H. injection H as <-. apply JSNumberFacts.orZero_not_NaN.
Qed.

(** [extractPrice] throws when [Number] throws on the amount, and then
    only. *)
Lemma extractPrice_throws (priceJson : option string) :
  (exists error, extractPrice priceJson = Thrown error) <-> amountThrows priceJson = true.
Proof.
  unfold extractPrice, amountThrows.
  destruct (JSON.getOpt _ _) as [v|];
    [|split; [intros [error H]|intro H]; discriminate].
  destruct (JSON.truthy v); cbn [andb];
    [|split; [intros [error H]|intro H]; discriminate].
  unfold numberOf. destruct (JSON.get v "amount") as [a|]; cbn [andThen].
  - destruct (JSON.throwsToPrimitive a); cbn [andThen].
    + split; [reflexivity | intros _; now exists TypeError].
    + split; [intros [error H]|intro H]; discriminate.
  - split; [intros [error H]|intro H]; discriminate.
Qed.

Lemma positiveOrUndefined_positive (x : option number) (n : number) :
  positiveOrUndefined x = Some n -> JSNumber.gt n JSNumber.zero = true.
Proof.
  unfold positiveOrUndefined. destruct x as [m|]; [|discriminate].
  destruct (JSNumber.truthy m && JSNumber.gt m JSNumber.zero) eqn:E; [|discriminate].
  intro H. injection H as <-. apply andb_true_iff in E. exact (proj2 E).
Qed.

Lemma extractRating_positive (metafieldsJson : option string)
      (ratings : option number * option number) (n : number) :
  extractRating metafieldsJson = Returned ratings ->
  (fst ratings = Some n -> JSNumber.gt n JSNumber.zero = true)
  /\ (snd ratings = Some n -> JSNumber.gt n JSNumber.zero = true).
Proof.
  unfold extractRating.
  destruct (reviewValues metafieldsJson) as [[average count]|].
  - destruct (parseFloatOf average) as [x|error]; cbn [andThen]; [|discriminate].
    destruct (parseIntOf count) as [y|error]; cbn [andThen]; [|discriminate].
    intro H. injection H as <-. cbn [fst snd].
    split; apply positiveOrUndefined_positive.
  - intro H. injection H as <-. cbn [fst snd]. split; discriminate.
Qed.

(** [extractRating] throws when [parseFloat] or [parseInt] throws on a
    review value, and then only. *)
Lemma extractRating_throws (metafieldsJson : option string) :
  (exists error, extractRating metafieldsJson = Thrown error)
  <-> reviewThrows metafieldsJson = true.
Proof.
  unfold extractRating, reviewThrows.
  destruct (reviewValues metafieldsJson) as [[average count]|];
    [|split; [intros [error H]|intro H]; discriminate].
  unfold parseFloatOf, parseIntOf.
  destruct (JSON.throwsToPrimitive average); cbn [andThen orb].
  - split; [reflexivity | intros _; now exists TypeError].
  - destruct (JSON.throwsToPrimitive count); cbn [andThen].
    + split; [reflexivity | intros _; now exists TypeError].
    + split; [intros [error H]|intro H]; discriminate.
Qed.

Lemma extractImages_length (imagesJson featuredJson : option string) :
  length (extractImages imagesJson featuredJson) <= 1.
Proof.
  unfold extractImages. destruct featuredJson as [text|]; [|cbn; lia].
  destruct (isEmpty text); [cbn; lia|].
  destruct (JSON.getOpt _ _) as [v|]; [|cbn; lia].
  destruct (JSON.truthy v); cbn; lia.
Qed.

Lemma parseProductTry_wellFormed (raw : RawProductData) (p : Product) :
  parseProductTry raw = Returned p -> WellFormed p.
Proof.
  unfold parseProductTry.
  pose proof (extractPrice_number (rawGet raw "PRICE_RANGE_V2")) as Hp.
  destruct (extractPrice (rawGet raw "PRICE_RANGE_V2")) as [cost|error];
    cbn [andThen]; [|discriminate].
  pose proof (extractRating_positive (rawGet raw "METAFIELDS")) as Hr.
  destruct (extractRating (rawGet raw "METAFIELDS")) as [[r c]|error];
    cbn [andThen]; [|discriminate].
  pose proof (fun n => Hr (r, c) n eq_refl) as Hr'. cbn [fst snd] in Hr'.
  intro H. injection H as <-.
  unfold WellFormed. cbn [title vendor status price rating reviewCount images
                            compareAtPrice tags].
  repeat split.
  - apply rawGetOr_default. discriminate.
  - apply rawGetOr_default. discriminate.
  - apply rawGetOr_default. discriminate.
  - now apply Hp.
  - intros n Hn. now apply (proj1 (Hr' n)).
  - intros n Hn. now apply (proj2 (Hr' n)).
  - apply extractImages_length.
  - apply TagFacts.parseTags_clean.
Qed.

Lemma parseProduct_wellFormed (raw : RawProductData) (p : Product) :
  parseProduct raw = Some p -> WellFormed p.
Proof.
  unfold parseProduct. pose proof (parseProductTry_wellFormed raw) as H.
  destruct (parseProductTry raw) as [q|error]; [|discriminate].
  intro E. injection E as <-. now apply H.
Qed.

(** The [try] block throws when one of the conversions throws, and then
    only. *)
Lemma parseProductTry_throws (raw : RawProductData) :
  (exists error, parseProductTry raw = Thrown error) <-> conversionThrows raw = true.
Proof.
  unfold parseProductTry, conversionThrows.
  pose proof (extractPrice_throws (rawGet raw "PRICE_RANGE_V2")) as Hp.
  pose proof (extractRating_throws (rawGet raw "METAFIELDS")) as Hr.
  destruct (extractPrice (rawGet raw "PRICE_RANGE_V2")) as [price|e1]; cbn [andThen].
  - destruct (amountThrows _).
    + destruct (proj2 Hp eq_refl) as [error H]. discriminate.
    + cbn [orb].
      destruct (extractRating (rawGet raw "METAFIELDS")) as [[r c]|e2]; cbn [andThen].
      * destruct (reviewThrows _).
        -- destruct (proj2 Hr eq_refl) as [error H]. discriminate.
        -- split; [intros [error H]|intro H]; discriminate.
      * rewrite (proj1 Hr (ex_intro _ e2 eq_refl)).
        split; [reflexivity | intros _; now exists e2].
  - rewrite (proj1 Hp (ex_intro _ e1 eq_refl)). cbn [orb].
    split; [reflexivity | intros _; now exists e1].
Qed.

Lemma parseProduct_null (raw : RawProductData) :
  parseProduct raw = None <-> conversionThrows raw = true.
Proof.
  rewrite <- parseProductTry_throws. unfold parseProduct.
  destruct (parseProductTry raw) as [p|error].
  - split; [discriminate | intros [e H]; discriminate].
  - split; [intros _; now exists error | reflexivity].
Qed.

Section WithObserver.
Context {S : Type}.
Variable onProgress : option (Z -> ProgressStats -> S -> S).

Lemma rowStep_wellFormed (headers : list string) (line : string) (st : LoopState) :
  Forall WellFormed (loopProducts st) ->
  Forall WellFormed (loopProducts (rowStep headers line st)).
Proof.
  intro H. unfold rowStep, decodeRow.
  pose proof (parseProduct_wellFormed (fillRawData headers (parseCSVLine line) 0 []))
    as Hp.
  destruct (parseProduct _) as [p|]; [|exact H].
  specialize (Hp p eq_refl).
  destruct (isRetained (Some p)); [|exact H].
  cbn [pushProduct loopProducts]. apply Forall_app. split; [exact H|].
  constructor; [exact Hp | constructor].
Qed.

Lemma parseRows_wellFormed (headers : list string) (totalLines : nat)
      (rows : list string) :
  forall (i : nat) (st : LoopState) (obs : S),
    Forall WellFormed (loopProducts st) ->
    Forall WellFormed
           (loopProducts (fst (parseRows onProgress headers totalLines i rows st obs))).
Proof.
  induction rows as [|row rows IH]; intros i st obs H; cbn [parseRows]; [exact H|].
  destruct (isEmpty (trim row)).
  - apply IH. exact H.
  - apply IH. now apply rowStep_wellFormed.
Qed.

Lemma parseCSV_wellFormed (csvText : string) (startTime now : Z) (w : World)
      (result : ParseResult) (w' : World) :
  parseCSV onProgress csvText startTime now w = (Returned result, w') ->
  Forall WellFormed (products result).
Proof.
  unfold parseCSV. destruct (splitLines csvText) as [|headerLine [|row rows]].
  - intro H. injection H as <- _. constructor.
  - intro H. injection H as <- _. constructor.
  - pose proof (parseRows_wellFormed (parseCSVLine headerLine)
                  (length (headerLine :: row :: rows) - 1) (row :: rows) 1
                  {| loopProducts := []; loopSkippedRows := 0; loopErrors := 0 |}
                  (observer w) (Forall_nil _)) as Hwf.
    destruct (parseRows _ _ _ _ _ _ _) as [st obs]. cbn [fst] in Hwf.
    intro H. injection H as <- _. exact Hwf.
Qed.

End WithObserver.
End WithRuntime.
End RecordFacts.

(** X27: [parseProduct] returns [null] exactly when a conversion of
    its [try] block throws, that is, when the amount of the price or a
    review value is an object that cannot be converted to a primitive;
    for every other row it returns a record, and every record it returns
    is well formed: its title, vendor and status are not empty, its
    amount is a number, a rating and a review count are absent or
    positive, it has one image at most, no compare-at price, and its
    tags are clean. *)
Theorem parseProduct_well_formed {RT : Runtime} (raw : RawProductData) :
  (parseProduct raw = None <-> conversionThrows raw = true)
  /\ (conversionThrows raw = false -> exists p : Product, parseProduct raw = Some p)
  /\ (forall p : Product, parseProduct raw = Some p -> WellFormed p).
Proof.
  split; [apply RecordFacts.parseProduct_null|]. split.
  - intro H. destruct (parseProduct raw) as [p|] eqn:E; [now exists p|].
    apply RecordFacts.parseProduct_null in E. congruence.
  - apply RecordFacts.parseProduct_wellFormed.
Qed.

(** Both cases of [parseProduct_well_formed] occur, with the reference
    run time: a row of the feed gives a record, and a row whose amount
    is an object with a member [toString] gives [null]. *)
Example parseProduct_both_cases :
  (exists p : Product,
      parseProduct (RT := Reference.reference_runtime)
        (rawDataOf ["ID"; "TITLE"; "STATUS"; "PRICE_RANGE_V2"]
                   ("1,Whey,ACTIVE," +++ priceField "12.99")) = Some p
      /\ id p = "1" /\ amount (price p) = Finite (1299 # 100))
  /\ parseProduct (RT := Reference.reference_runtime)
        (rawDataOf ["ID"; "TITLE"; "STATUS"; "PRICE_RANGE_V2"]
                   ("2,Odd,ACTIVE," +++ objectAmount)) = None
  /\ conversionThrows (RT := Reference.reference_runtime)
        (rawDataOf ["ID"; "TITLE"; "STATUS"; "PRICE_RANGE_V2"]
                   ("2,Odd,ACTIVE," +++ objectAmount)) = true.
Proof.
  split; [eexists; split; [vm_compute; reflexivity | split; vm_compute; reflexivity]|].
  split; vm_compute; reflexivity.
Qed.

(** X28: every record of a catalogue [parseCSV] returns is well formed;
    so the price filter set to the range of the parsed catalogue keeps
    every record, and the catalogue sorts by price into ascending
    order. *)
Theorem parseCSV_catalogue_well_formed {RT : Runtime} {Laws : CollationLaws RT}
        {S : Type} (onProgress : option (Z -> ProgressStats -> S -> S))
        (csvText : string) (startTime now : Z) (w : World)
        (result : ParseResult) (w' : World) :
  parseCSV onProgress csvText startTime now w = (Returned result, w') ->
  Forall WellFormed (products result)
  /\ applyFilters (products result)
       (Some {| vendors := None;
                priceRange := Some (searchEngineHelpers.getPriceRange (products result));
                inStock := None |})
     = products result
  /\ StronglySorted (inOrder PriceAsc)
       (sortResults (map unscored (products result)) (Some "price-asc")).
Proof.
  intro H. pose proof (RecordFacts.parseCSV_wellFormed _ _ _ _ _ _ _ H) as Hwf.
  assert (Hn : Forall (fun p => amount (price p) <> NaN) (products result)).
  { apply (Forall_impl _ (P := WellFormed)); [|exact Hwf].
    intros p Hp. apply Hp. }
  split; [exact Hwf|]. split.
  - now apply PriceFacts.full_range_keeps.
  - apply (SortEngineFacts.sortResults_sorted _ "price-asc").
    apply Forall_map. exact Hn.
Qed.

(** The hypothesis of [parseCSV_catalogue_well_formed] on a feed of
    three rows, with the reference run time. *)
Lemma parseCSV_catalogue_well_formed_witness :
  exists (result : ParseResult) (w : World (S := unit)),
    parseCSV (RT := Reference.reference_runtime) None catalogue 0 0 idle
    = (Returned result, w)
    /\ Forall WellFormed (products result).
Proof.
  eexists. eexists. split.
  - vm_compute. reflexivity.
  - refine (proj1 (parseCSV_catalogue_well_formed
                     (RT := Reference.reference_runtime) (Laws := reference_collation)
                     None catalogue 0 0 idle _ _ _)).
    vm_compute. reflexivity.
Defined.

(** ** Text without tags *)

Module HtmlFacts.
Import WordFacts NormalizerFacts.

Lemma whitespace_no_angle (c : ascii) :
  isWhitespace c = true -> isLt c = false /\ isGt c = false.
Proof.
  destruct c as [[] [] [] [] [] [] [] []]; cbn; intro H; try discriminate H;
    split; reflexivity.
Qed.

Lemma noTagFrom_whitespace (opened : bool) (c : ascii) (s : string) :
  isWhitespace c = true -> noTagFrom opened (String c s) = noTagFrom opened s.
Proof.
  intro H. destruct (whitespace_no_angle c H) as [Hlt Hgt].
  cbn [noTagFrom]. now rewrite Hlt, Hgt, andb_false_r, orb_false_r.
Qed.

Lemma noTagFrom_collapse (s : string) :
  forall opened inRun : bool,
    noTagFrom opened (collapseFrom inRun s) = noTagFrom opened s.
Proof.
  induction s as [|c s IH]; intros opened inRun; [reflexivity|].
  cbn [collapseFrom]. destruct (isWhitespace c) eqn:E.
  - rewrite (noTagFrom_whitespace opened c s E).
    destruct inRun; [apply IH|].
    rewrite (noTagFrom_whitespace opened " "%char _ eq_refl). apply IH.
  - cbn [noTagFrom]. now rewrite IH.
Qed.

Lemma noTagFrom_trimStart (s : string) (opened : bool) :
  noTagFrom opened (trimStart s) = noTagFrom opened s.
Proof.
  induction s as [|c s IH]; [reflexivity|]. cbn [trimStart].
  destruct (isWhitespace c) eqn:E; [|reflexivity].
  now rewrite (noTagFrom_whitespace opened c s E).
Qed.

Lemma noTagFrom_trimEnd (s : string) :
  forall opened : bool, noTagFrom opened (trimEnd s) = noTagFrom opened s.
Proof.
  induction s as [|c s IH]; intro opened; [reflexivity|]. cbn [trimEnd].
  destruct (isWhitespace c) eqn:E; cbn [andb].
  - rewrite (noTagFrom_whitespace opened c s E), <- IH.
    destruct (trimEnd s) as [|d t]; cbn [isEmpty]; [reflexivity|].
    now rewrite (noTagFrom_whitespace opened c _ E).
  - cbn [noTagFrom]. now rewrite IH.
Qed.

Lemma noGt_noTag (s : string) :
  forall opened : bool, noChar isGt s = true -> noTagFrom opened s = true.
Proof.
  induction s as [|c s IH]; intros opened H; [reflexivity|].
  cbn in H. apply andb_true_iff in H. destruct H as [Hc Hs].
  apply negb_true_iff in Hc. cbn [noTagFrom]. rewrite Hc, andb_false_r. now apply IH.
Qed.

Lemma replaceTagsFrom_noTag (s : string) :
  forall pending : option string,
    match pending with
    | Some buf => noChar isGt buf = true
    | None => True
    end ->
    noTagFrom false (replaceTagsFrom pending s) = true.
Proof.
  induction s as [|c s IH]; intros [buf|] H; cbn [replaceTagsFrom].
  - now apply noGt_noTag.
  - reflexivity.
  - destruct (Ascii.eqb c ">"%char) eqn:E.
    + rewrite (noTagFrom_whitespace false " "%char _ eq_refl). now apply IH.
    + apply IH. rewrite noChar_append, H. cbn. unfold isGt. now rewrite E.
  - destruct (Ascii.eqb_spec c "<"%char) as [->|Hc].
    + apply IH. reflexivity.
    + cbn [noTagFrom andb orb]. unfold isLt.
      destruct (Ascii.eqb_spec c "<"%char) as [|_]; [contradiction|]. now apply IH.
Qed.

Lemma opened_tag (inside after : string) :
  noTagFrom true (inside +++ String ">"%char after) = false.
Proof.
  induction inside as [|c inside IH]; cbn [String.append noTagFrom andb orb].
  - reflexivity.
  - destruct (isGt c); [reflexivity | exact IH].
Qed.

Lemma tag_found (before inside after : string) :
  forall opened : bool,
    noTagFrom opened (before +++ String "<"%char (inside +++ String ">"%char after))
    = false.
Proof.
  induction before as [|c before IH]; intro opened; cbn [String.append noTagFrom].
  - change (isGt "<"%char) with false. change (isLt "<"%char) with true.
    rewrite andb_false_r, orb_true_r. apply opened_tag.
  - destruct (opened && isGt c); [reflexivity | apply IH].
Qed.

Lemma replaceTagsFrom_pending (s : string) :
  forall buf : string,
    noTagFrom true s = true -> replaceTagsFrom (Some buf) s = buf +++ s.
Proof.
  induction s as [|c s IH]; intros buf H; cbn [replaceTagsFrom].
  - now rewrite append_nil_r.
  - cbn [noTagFrom andb orb] in H. unfold isGt in H.
    destruct (Ascii.eqb c ">"%char); [discriminate H|].
    rewrite IH by assumption. now rewrite append_assoc.
Qed.

Lemma replaceTags_noTag (s : string) :
  noTagFrom false s = true -> replaceTags s = s.
Proof.
  unfold replaceTags. induction s as [|c s IH]; intro H; [reflexivity|].
  cbn [replaceTagsFrom]. cbn [noTagFrom andb orb] in H. unfold isLt in H.
  destruct (Ascii.eqb_spec c "<"%char) as [->|_].
  - now rewrite replaceTagsFrom_pending.
  - now rewrite IH.
Qed.

Lemma replaceTags_plain (s : string) :
  noChar isLt s = true -> replaceTags s = s.
Proof.
  unfold replaceTags. induction s as [|c s IH]; intro H; [reflexivity|].
  cbn in H. apply andb_true_iff in H. destruct H as [Hc Hs].
  apply negb_true_iff in Hc. unfold isLt in Hc.
  cbn [replaceTagsFrom]. now rewrite Hc, IH.
Qed.

Lemma collapseFrom_blank (s : string) :
  isBlank s = true -> collapseFrom true s = EmptyString.
Proof.
  induction s as [|c s IH]; [reflexivity|]. cbn. intro H.
  apply andb_true_iff in H. destruct H as [Hc Hs]. rewrite Hc. now apply IH.
Qed.

Lemma collapseFrom_empty (s : string) :
  collapseFrom true s = EmptyString -> isBlank s = true.
Proof.
  induction s as [|c s IH]; [reflexivity|]. cbn.
  destruct (isWhitespace c); [exact IH | discriminate].
Qed.

Lemma trimStart_collapse (s : string) :
  forall inRun : bool,
    trimStart (collapseFrom inRun s) = collapseFrom false (trimStart s).
Proof.
  induction s as [|c s IH]; intro inRun; [reflexivity|].
  cbn [collapseFrom trimStart]. destruct (isWhitespace c) eqn:E.
  - destruct inRun; [apply IH|]. cbn [trimStart isWhitespace]. apply IH.
  - cbn [trimStart collapseFrom]. now rewrite E.
Qed.

Lemma trimEnd_collapse (s : string) :
  forall inRun : bool,
    trimEnd (collapseFrom inRun s) = collapseFrom inRun (trimEnd s).
Proof.
  induction s as [|c s IH]; intro inRun; [reflexivity|].
  cbn [collapseFrom trimEnd]. destruct (isWhitespace c) eqn:E; cbn [andb].
  - destruct (isEmpty (trimEnd s)) eqn:Eb.
    + rewrite JSStringFacts.trimEnd_empty in Eb.
      rewrite (collapseFrom_blank s Eb). now destruct inRun.
    + assert (Hne : isEmpty (trimEnd (collapseFrom true s)) = false).
      { rewrite IH. destruct (collapseFrom true (trimEnd s)) eqn:Ec; [|reflexivity].
        apply collapseFrom_empty in Ec.
        rewrite <- JSStringFacts.trimEnd_empty, trimEnd_idempotent in Ec. congruence. }
      cbn [collapseFrom]. rewrite E.
      destruct inRun; [apply IH|].
      cbn [trimEnd]. rewrite Hne.
      change (isWhitespace " "%char && false) with false. cbv iota. now rewrite IH.
  - cbn [trimEnd collapseFrom]. now rewrite E, IH.
Qed.

Lemma trim_collapse (s : string) :
  trim (collapseWhitespace s) = collapseWhitespace (trim s).
Proof.
  unfold trim, collapseWhitespace. now rewrite trimStart_collapse, trimEnd_collapse.
Qed.

Lemma stripHtml_words (html : string) :
  stripHtml html = join space (words (replaceTags html)).
Proof.
  unfold stripHtml. rewrite trim_collapse. apply collapse_trim_words.
Qed.

Lemma stripHtml_noTag (html : string) : noTagFrom false (stripHtml html) = true.
Proof.
  unfold stripHtml, trim, collapseWhitespace.
  rewrite noTagFrom_trimEnd, noTagFrom_trimStart, noTagFrom_collapse.
  now apply (replaceTagsFrom_noTag html None).
Qed.

End HtmlFacts.

(** X29: [stripHtml] returns the words of the text outside the tags,
    joined by single spaces; no tag is left in it, so stripping again
    changes nothing; a text without [<] only has its white space
    normalized. *)
Theorem stripHtml_leaves_no_tag (html : string) :
  stripHtml html = join space (words (replaceTags html))
  /\ (forall before inside after : string,
        stripHtml html
        <> before +++ String "<"%char (inside +++ String ">"%char after))
  /\ stripHtml (stripHtml html) = stripHtml html
  /\ (noChar isLt html = true -> stripHtml html = join space (words html)).
Proof.
  split; [apply HtmlFacts.stripHtml_words|]. split; [|split].
  - intros before inside after H.
    pose proof (HtmlFacts.stripHtml_noTag html) as Hn.
    rewrite H, HtmlFacts.tag_found in Hn. discriminate Hn.
  - rewrite (HtmlFacts.stripHtml_words (stripHtml html)).
    rewrite (HtmlFacts.replaceTags_noTag _ (HtmlFacts.stripHtml_noTag html)).
    rewrite HtmlFacts.stripHtml_words. unfold words at 1.
    now rewrite (WordFacts.wordsFrom_join _ (NormalizerFacts.words_good _)).
  - intro H. rewrite HtmlFacts.stripHtml_words.
    now rewrite (HtmlFacts.replaceTags_plain html H).
Qed.

(** The hypothesis of [stripHtml_leaves_no_tag] on a text without a
    tag. *)
Lemma stripHtml_leaves_no_tag_witness :
  stripHtml "High  quality protein " = join space (words "High  quality protein ").
Proof.
  apply (stripHtml_leaves_no_tag "High  quality protein "). reflexivity.
Defined.

(** ** The two loops of [parseCSV] on a quoted field *)

Module QuoteFacts.
Import WordFacts.

Lemma splitLinesFrom_chunk (x : string) :
  forall (lines : list string) (currentLine rest : string) (inQuotes : bool),
    noChar isQuote x = true ->
    inQuotes = true \/ noChar isLineBreak x = true ->
    splitLinesFrom lines currentLine inQuotes (x +++ rest)
    = splitLinesFrom lines (currentLine +++ x) inQuotes rest.
Proof.
  induction x as [|c x IH]; intros lines currentLine rest inQuotes Hq Hb.
  - now rewrite append_nil_r.
  - cbn in Hq. apply andb_true_iff in Hq. destruct Hq as [Hc Hq].
    apply negb_true_iff in Hc. unfold isQuote in Hc.
    cbn [String.append splitLinesFrom]. rewrite Hc.
    assert (E : (Ascii.eqb c newline || Ascii.eqb c carriageReturn) && negb inQuotes
                = false).
    { destruct Hb as [->|Hb]; [apply andb_false_r|].
      cbn in Hb. apply andb_true_iff in Hb. destruct Hb as [Hb _].
      apply negb_true_iff in Hb. unfold isLineBreak in Hb. now rewrite Hb. }
    rewrite E, IH; [now rewrite append_assoc | exact Hq |].
    destruct Hb as [Hb|Hb]; [now left | right].
    cbn in Hb. apply andb_true_iff in Hb. exact (proj2 Hb).
Qed.

Lemma parseCSVLineFrom_chunk (x : string) :
  forall (result : list string) (current rest : string) (inQuotes : bool),
    noChar isQuote x = true ->
    inQuotes = true \/ noChar isComma x = true ->
    parseCSVLineFrom result current inQuotes (x +++ rest)
    = parseCSVLineFrom result (current +++ x) inQuotes rest.
Proof.
  induction x as [|c x IH]; intros result current rest inQuotes Hq Hb.
  - now rewrite append_nil_r.
  - cbn in Hq. apply andb_true_iff in Hq. destruct Hq as [Hc Hq].
    apply negb_true_iff in Hc. unfold isQuote in Hc.
    cbn [String.append parseCSVLineFrom]. rewrite Hc.
    assert (E : Ascii.eqb c ","%char && negb inQuotes = false).
    { destruct Hb as [->|Hb]; [apply andb_false_r|].
      cbn in Hb. apply andb_true_iff in Hb. destruct Hb as [Hb _].
      apply negb_true_iff in Hb. unfold isComma in Hb. now rewrite Hb. }
    rewrite E, IH; [now rewrite append_assoc | exact Hq |].
    destruct Hb as [Hb|Hb]; [now left | right].
    cbn in Hb. apply andb_true_iff in Hb. exact (proj2 Hb).
Qed.

Lemma doubleQuotes_plain (x : string) : noChar isQuote x = true -> doubleQuotes x = x.
Proof.
  induction x as [|c x IH]; [reflexivity|]. cbn. intro H.
  apply andb_true_iff in H. destruct H as [Hc Hx]. apply negb_true_iff in Hc.
  now rewrite Hc, IH.
Qed.

Lemma doubleQuotes_append (x y : string) :
  doubleQuotes (x +++ y) = doubleQuotes x +++ doubleQuotes y.
Proof.
  induction x as [|c x IH]; [reflexivity|]. cbn [String.append doubleQuotes].
  destruct (isQuote c); cbn [String.append]; now rewrite IH.
Qed.

(** A line that begins with a quote is not blank. *)
Lemma pushLine_quoted (lines : list string) (s : string) :
  pushLine lines (String dquote s) = lines ++ [String dquote s].
Proof.
  unfold pushLine. rewrite JSStringFacts.trim_empty. reflexivity.
Qed.

Lemma splitLinesFrom_toggle (lines : list string) (currentLine : string)
      (inQuotes : bool) (next : ascii) (rest : string) :
  Ascii.eqb next dquote = false ->
  splitLinesFrom lines currentLine inQuotes (String dquote (String next rest))
  = splitLinesFrom lines (currentLine +++ String dquote EmptyString) (negb inQuotes)
                   (String next rest).
Proof. intro H. cbn [splitLinesFrom]. now rewrite Ascii.eqb_refl, H. Qed.

Lemma splitLinesFrom_pair (lines : list string) (currentLine : string)
      (inQuotes : bool) (rest : string) :
  splitLinesFrom lines currentLine inQuotes (String dquote (String dquote rest))
  = splitLinesFrom lines
      (currentLine +++ String dquote (String dquote (String dquote EmptyString)))
      inQuotes rest.
Proof.
  cbn [splitLinesFrom]. rewrite !Ascii.eqb_refl. reflexivity.
Qed.

Lemma splitLinesFrom_end (lines : list string) (currentLine : string) (inQuotes : bool) :
  splitLinesFrom lines currentLine inQuotes (String dquote EmptyString)
  = pushLine lines (currentLine +++ String dquote EmptyString).
Proof. cbn [splitLinesFrom]. now rewrite Ascii.eqb_refl. Qed.

Lemma parseCSVLineFrom_open (result : list string) (current rest : string) :
  parseCSVLineFrom result current false (String dquote rest)
  = parseCSVLineFrom result current true rest.
Proof. cbn [parseCSVLineFrom]. rewrite Ascii.eqb_refl. now destruct rest. Qed.

Lemma parseCSVLineFrom_pair (result : list string) (current rest : string) :
  parseCSVLineFrom result current true (String dquote (String dquote rest))
  = parseCSVLineFrom result (current +++ String dquote EmptyString) true rest.
Proof. cbn [parseCSVLineFrom]. now rewrite !Ascii.eqb_refl. Qed.

Lemma parseCSVLineFrom_close (result : list string) (current : string)
      (next : ascii) (rest : string) :
  Ascii.eqb next dquote = false ->
  parseCSVLineFrom result current true (String dquote (String next rest))
  = parseCSVLineFrom result current false (String next rest).
Proof. intro H. cbn [parseCSVLineFrom]. now rewrite Ascii.eqb_refl, H. Qed.

Lemma parseCSVLineFrom_comma (result : list string) (current rest : string) :
  parseCSVLineFrom result current false (String ","%char rest)
  = parseCSVLineFrom (result ++ [trim current]) EmptyString false rest.
Proof. reflexivity. Qed.

Lemma parseCSVLineFrom_end (result : list string) (current : string) (inQuotes : bool) :
  parseCSVLineFrom result current inQuotes (String dquote EmptyString)
  = result ++ [trim current].
Proof. cbn [parseCSVLineFrom]. now rewrite Ascii.eqb_refl. Qed.

(** What follows the quote of the field does not begin with a quote. *)
Lemma after_quote (b rest : string) :
  noChar isQuote b = true ->
  exists (next : ascii) (tail : string),
    b +++ String ","%char rest = String next tail /\ Ascii.eqb next dquote = false.
Proof.
  intro H. destruct b as [|y b].
  - now exists ","%char, rest.
  - exists y, (b +++ String ","%char rest). split; [reflexivity|].
    cbn in H. apply andb_true_iff in H. destruct H as [H _].
    now apply negb_true_iff in H.
Qed.

End QuoteFacts.

(** X30: a field that holds a quote and, later, a comma, written between
    quotes with its quote doubled, is not read back by the two loops of
    [parseCSV] together: the first loop makes three quotes of the two,
    and [parseCSVLine] then cuts the field at the comma.  [parseCSVLine]
    alone reads the field back. *)
Theorem quoted_field_cut_at_comma (x : ascii) (a b c : string) :
  noChar isQuote (String x a) = true ->
  noChar isQuote b = true -> noChar isQuote c = true ->
  noChar isComma b = true -> noChar isComma c = true ->
  splitLines (quoteField (quoteThenComma (String x a) b c))
  = [tripledLine (String x a) b c]
  /\ parseCSVLine (tripledLine (String x a) b c)
     = [trim (String x a +++ String dquote b); trim c]
  /\ parseCSVLine (quoteField (quoteThenComma (String x a) b c))
     = [trim (quoteThenComma (String x a) b c)].
Proof.
  intros Ha Hb Hc Hbc Hcc.
  assert (Hx : Ascii.eqb x dquote = false).
  { cbn in Ha. apply andb_true_iff in Ha. destruct Ha as [Ha _].
    now apply negb_true_iff in Ha. }
  assert (Hbc' : noChar isQuote (b +++ String ","%char c) = true).
  { rewrite WordFacts.noChar_append, Hb. cbn. now rewrite Hc. }
  assert (Hq : quoteField (quoteThenComma (String x a) b c)
               = String dquote
                   (String x a +++ String dquote (String dquote
                      ((b +++ String ","%char c) +++ String dquote EmptyString)))).
  { unfold quoteField, quoteThenComma.
    rewrite QuoteFacts.doubleQuotes_append, (QuoteFacts.doubleQuotes_plain _ Ha).
    cbn [doubleQuotes]. unfold isQuote at 1. rewrite Ascii.eqb_refl.
    rewrite (QuoteFacts.doubleQuotes_plain _ Hbc').
    rewrite !WordFacts.append_assoc. cbn [String.append].
    rewrite ?WordFacts.append_assoc. reflexivity. }
  assert (Ht : tripledLine (String x a) b c
               = String dquote
                   (String x a +++ String dquote (String dquote (String dquote
                      ((b +++ String ","%char c) +++ String dquote EmptyString))))).
  { unfold tripledLine. rewrite !WordFacts.append_assoc. cbn [String.append].
    rewrite ?WordFacts.append_assoc. reflexivity. }
  split; [|split].
  - rewrite Hq, Ht. unfold splitLines.
    change (String x a +++ ?r) with (String x (a +++ r)) at 1.
    rewrite (QuoteFacts.splitLinesFrom_toggle _ _ _ _ _ Hx). cbn [negb].
    change (String x (a +++ ?r)) with (String x a +++ r) at 1.
    rewrite QuoteFacts.splitLinesFrom_chunk by auto.
    rewrite QuoteFacts.splitLinesFrom_pair.
    rewrite QuoteFacts.splitLinesFrom_chunk by auto.
    rewrite QuoteFacts.splitLinesFrom_end.
    rewrite !WordFacts.append_assoc. cbn [String.append].
    rewrite QuoteFacts.pushLine_quoted. reflexivity.
  - unfold parseCSVLine, tripledLine.
    rewrite QuoteFacts.parseCSVLineFrom_open.
    rewrite QuoteFacts.parseCSVLineFrom_chunk by auto.
    rewrite QuoteFacts.parseCSVLineFrom_pair.
    destruct (QuoteFacts.after_quote b (c +++ String dquote EmptyString) Hb)
      as (next & tail & Hnext & Hne).
    rewrite Hnext, (QuoteFacts.parseCSVLineFrom_close _ _ _ _ Hne), <- Hnext.
    rewrite QuoteFacts.parseCSVLineFrom_chunk by auto.
    rewrite QuoteFacts.parseCSVLineFrom_comma.
    rewrite QuoteFacts.parseCSVLineFrom_chunk by auto.
    rewrite QuoteFacts.parseCSVLineFrom_end.
    cbn [app String.append]. rewrite !WordFacts.append_assoc. reflexivity.
  - unfold parseCSVLine.
    change (quoteField (quoteThenComma (String x a) b c))
      with (join "," (map quoteField [quoteThenComma (String x a) b c])).
    now rewrite LineFacts.parseCSVLineFrom_quoted_fields.
Qed.

(** The hypotheses of [quoted_field_cut_at_comma] on a field that reads
    6, a quote for inches, then bar, a comma and steel. *)
Lemma quoted_field_cut_at_comma_witness :
  splitLines (quoteField (quoteThenComma "6" " bar" " steel"))
  = [tripledLine "6" " bar" " steel"]
  /\ parseCSVLine (tripledLine "6" " bar" " steel") = ["6" +++ quote +++ " bar"; "steel"].
Proof.
  destruct (quoted_field_cut_at_comma "6"%char "" " bar" " steel"
              eq_refl eq_refl eq_refl eq_refl eq_refl) as (H1 & H2 & _).
  split; [exact H1 | exact H2].
Defined.
